(** * reposketch: the directory traversal and reporting engine

    A shallow embedding of [src/traverseRepository.js] (printTree,
    exportTreeToFile, exportFileContentsToFile, collectFileContents,
    generateDirectorySummary, collectDirectoryStats, minimatch) and the
    properties of it that the specification states.

    JavaScript exceptions are explicit: a computation runs in a state and
    ends in [Ret v] or [Throw e]; [try_catch] is the [try]/[catch] block.
    The file system is a tree of [node]s that does not change during a walk. *)

From Stdlib Require Import String Ascii List ZArith Bool Lia.
From Stdlib Require Import Sorting.Sorted Sorting.Permutation.
From Stdlib Require Import DecimalString.
Import ListNotations.
Open Scope string_scope.
Open Scope list_scope.
Open Scope Z_scope.

#[local] Set Warnings "-register-all".

(** String concatenation, as in a template literal. *)
Infix "+++" := String.append (at level 60, right associativity).

(* ================================================================= *)
(** ** JavaScript values, errors and exceptions *)

(** The values a caller can pass where a path is expected. *)
Inductive jsvalue :=
| JUndefined
| JNull
| JBoolean (b : bool)
| JNumber (z : Z)
| JString (s : string)
| JObject.

(** [!v] is [negb (truthy v)]. *)
Definition truthy (v : jsvalue) : bool :=
  match v with
  | JUndefined | JNull => false
  | JBoolean b => b
  | JNumber z => negb (z =? 0)
  | JString s => negb (String.eqb s "")
  | JObject => true
  end.

(** [typeof v === "string"]. *)
Definition is_string (v : jsvalue) : bool :=
  match v with JString _ => true | _ => false end.

Definition string_of (v : jsvalue) : string :=
  match v with JString s => s | _ => "" end.

(** An [Error] object; only its message is observed. *)
Inductive Error := MkError (message : string).

Definition message (e : Error) : string :=
  match e with MkError m => m end.

Inductive outcome (A : Type) :=
| Ret (a : A)
| Throw (e : Error).
Arguments Ret {A} a.
Arguments Throw {A} e.

(** A computation over a mutable state [S] that may throw.  The state
    changes made before a [throw] stay. *)
Definition M (S A : Type) : Type := S -> S * outcome A.

Definition ret {S A} (a : A) : M S A := fun s => (s, Ret a).

Definition throw {S A} (e : Error) : M S A := fun s => (s, Throw e).

Definition lift {S A} (o : outcome A) : M S A := fun s => (s, o).

Definition bind {S A B} (m : M S A) (k : A -> M S B) : M S B :=
  fun s =>
    match m s with
    | (s', Ret a) => k a s'
    | (s', Throw e) => (s', Throw e)
    end.

Definition try_catch {S A} (m : M S A) (h : Error -> M S A) : M S A :=
  fun s =>
    match m s with
    | (s', Throw e) => h e s'
    | r => r
    end.

Definition modify {S} (f : S -> S) : M S unit := fun s => (f s, Ret tt).

Notation "x <- m ;; k" := (bind m (fun x => k))
  (at level 61, m at next level, right associativity).
Notation "m ;; k" := (bind m (fun _ => k))
  (at level 61, right associativity).

Definition dflt {A} (d : A) (o : option A) : A :=
  match o with Some a => a | None => d end.

(** [${n}] for an integer. *)
Definition show_Z (z : Z) : string := NilZero.string_of_int (Z.to_int z).

(** [s.startsWith(".")] *)
Definition startsWithDot (s : string) : bool :=
  match s with
  | String c _ => Ascii.eqb c "."
  | EmptyString => false
  end.

(** [list.includes(x)] on strings. *)
Definition includes (l : list string) (x : string) : bool :=
  existsb (String.eqb x) l.

(* ================================================================= *)
(** ** The runtime: Node's [path], [String] and [RegExp], the clock *)

Inductive Style := info | success | error.

Record Runtime := {
  path_resolve : string -> string;
  path_join : string -> string -> string;
  path_basename : string -> string;
  path_dirname : string -> string;
  path_relative : string -> string -> string;
  path_extname : string -> string;
  toLowerCase : string -> string;
  (** [a.localeCompare(b)] *)
  localeCompare : string -> string -> Z;
  (** [new RegExp(source).test(s)]; a source the engine rejects throws
      a SyntaxError. *)
  RegExp_test : string -> string -> outcome bool;
  (** [formatFileSize] of the source: [Math.log], a floating-point
      division and [toFixed(2)]; the digits are the runtime's. *)
  formatFileSize : Z -> string;
  (** [new Date().toLocaleString()] *)
  dateNow : string;
  (** the [colors] theme applied to a string, and the logger's
      [line.replace(/\u001b\[\d+m/g, "")] *)
  colorize : Style -> string -> string;
  stripColors : string -> string
}.

(* ================================================================= *)
(** ** The file system *)

(** What [fs] finds at a path. *)
Inductive node :=
| File (size : Z) (content : outcome string)
    (** a regular file: its size and what [readFileSync] gives *)
| Dir (entries : list (string * node))
    (** a directory and its listing, in [readdirSync] order *)
| DirNoRead (e : Error)
    (** a directory whose [readdirSync] throws [e] *)
| NoStat (e : Error).
    (** nothing that [statSync] can reach: it throws [e] *)

Record Stats := { isDirectory : bool; size : Z }.

(** [statSync]; the size of a directory is never looked at. *)
Definition statSync (n : node) : outcome Stats :=
  match n with
  | File sz _ => Ret {| isDirectory := false; size := sz |}
  | Dir _ | DirNoRead _ => Ret {| isDirectory := true; size := 0 |}
  | NoStat e => Throw e
  end.

Definition existsSync (n : node) : bool :=
  match n with NoStat _ => false | _ => true end.

(** A listed name with the node it names and the walk of that node
    ([visit] is the recursive call, taken before the list is filtered and
    sorted). *)
Record Entry (R : Type) := { name : string; target : node; visit : R }.
Arguments name {R} e.
Arguments target {R} e.
Arguments visit {R} e.

Definition readdirSync {R} (walk : node -> R) (n : node) : outcome (list (Entry R)) :=
  match n with
  | Dir entries =>
      Ret (map (fun e => {| name := fst e; target := snd e; visit := walk (snd e) |}) entries)
  | DirNoRead e => Throw e
  | File _ _ => Throw (MkError "ENOTDIR: not a directory, scandir")
  | NoStat e => Throw e
  end.

Definition readFileSync (n : node) : outcome string :=
  match n with
  | File _ content => content
  | Dir _ | DirNoRead _ => Throw (MkError "EISDIR: illegal operation on a directory, read")
  | NoStat e => Throw e
  end.

(* ================================================================= *)
(** ** [Array.prototype.sort]

    The sort is stable.  With a consistent comparator the result is the one
    stable sorted arrangement, which this insertion sort computes.  With an
    inconsistent one ECMAScript leaves the order to the engine, and this
    function is then one of the orders an engine may give.  The comparator of
    printTree is inconsistent only where [statSync] throws for an entry, so
    the statements about the order of the items of a tree assume that it
    returns for every entry; the one about an entry for which it throws is
    about a listing of two names, which every stable sort leaves as it is
    when the comparator returns 0 both ways. *)

Section Sort.
Context {A : Type} (cmp : A -> A -> Z).

Fixpoint insert (x : A) (l : list A) : list A :=
  match l with
  | [] => [x]
  | y :: l' => if cmp x y <=? 0 then x :: l else y :: insert x l'
  end.

Definition js_sort (l : list A) : list A := fold_right insert [] l.
End Sort.

(* ================================================================= *)
(** ** printTree *)

Module Options.
(** The keys of the [options] object other than [logger], which is its own
    argument below; [None] is a key that is not set.  [options] is an object,
    as its documented type says: printTree destructures it before its [try],
    so a call with [null] throws, and the model does not cover it. *)
Record t := {
  prefix : option string;
  maxDepth : option Z;
  exclude : option (list string);
  showHidden : option bool;
  showSize : option bool;
  currentDepth : option Z;
  extensions : option (list string);
  maxFileSize : option Z;
  separator : option string;
  includeStats : option bool;
  includeFileCount : option bool
}.

Definition empty : t :=
  {| prefix := None; maxDepth := None; exclude := None; showHidden := None;
     showSize := None; currentDepth := None; extensions := None;
     maxFileSize := None; separator := None; includeStats := None;
     includeFileCount := None |}.

(** [{ ...options, prefix: p, currentDepth: d }] *)
Definition descend (options : t) (p : string) (d : Z) : t :=
  {| prefix := Some p; maxDepth := maxDepth options; exclude := exclude options;
     showHidden := showHidden options; showSize := showSize options;
     currentDepth := Some d; extensions := extensions options;
     maxFileSize := maxFileSize options; separator := separator options;
     includeStats := includeStats options;
     includeFileCount := includeFileCount options |}.
End Options.

Module WalkResult.
Record t := { success : bool; error : option Error }.
End WalkResult.

(** A line handed to the logger.  [level] is the [currentDepth] of the call
    that logged it; it is not part of the text. *)
Record Line := { level : Z; style : Style; text : string }.

(** [options.logger], called on a line.  It is a function of the caller:
    it may store the line, do something else, or throw. *)
Definition Logger : Type := Z -> Style -> string -> M (list Line) unit.

(** A logger that stores the line and returns: [console.log], the default,
    and the [output.push] of exportTreeToFile and generateDirectorySummary. *)
Definition logger : Logger :=
  fun d st txt => modify (fun out => out ++ [{| level := d; style := st; text := txt |}]).
Arguments logger d st txt /.

Definition Walk : Type := jsvalue -> Options.t -> M (list Line) WalkResult.t.

Section TreeRenderer.
Variable rt : Runtime.
(** The [logger] of the options object of the call; [{ ...options, prefix,
    currentDepth }] hands it on to the calls below.  The other keys are in
    [Options.t]. *)
Variable log : Logger.

(** The comparator of [items.sort]: directories first, then by name; 0 when
    either [statSync] throws. *)
Definition compareItems {R} (a b : Entry R) : Z :=
  match statSync (target a) with
  | Throw _ => 0
  | Ret aStats =>
      match statSync (target b) with
      | Throw _ => 0
      | Ret bStats =>
          let aIsDir := isDirectory aStats in
          let bIsDir := isDirectory bStats in
          if aIsDir && negb bIsDir then -1
          else if negb aIsDir && bIsDir then 1
          else localeCompare rt (name a) (name b)
      end
  end.

(** The filter of [items.filter]. *)
Definition shown (showHidden : bool) (exclude : list string) (item : string) : bool :=
  if negb showHidden && startsWithDot item then false
  else if includes exclude item then false
  else true.

Section Items.
Variables (options : Options.t) (resolvedPath prefix : string)
          (showSize : bool) (currentDepth : Z).

(** One turn of the [for] loop, on the item [it]; [isLast] is
    [i === lastIndex] and [resultError] is [result.error]. *)
Definition printItem (it : Entry Walk) (isLast : bool) (resultError : option Error)
  : M (list Line) (option Error) :=
  let item := name it in
  let fullPath := path_join rt resolvedPath item in
  let connector := if isLast then "└── " else "├── " in
  try_catch
    (stats <- lift (statSync (target it)) ;;
     let isDir := isDirectory stats in
     let sizeInfo :=
       if showSize && negb isDir
       then " (" +++ formatFileSize rt (size stats) +++ ")"
       else "" in
     log currentDepth info
       (prefix +++ connector +++ item +++ (if isDir then "/" else "") +++ sizeInfo) ;;
     if isDir then
       let newPrefix := prefix +++ (if isLast then "    " else "│   ") in
       let newOptions := Options.descend options newPrefix (currentDepth + 1) in
       subResult <- visit it (JString fullPath) newOptions ;;
       if negb (WalkResult.success subResult)
       then ret (WalkResult.error subResult)
       else ret resultError
     else ret resultError)
    (fun err =>
       log currentDepth error
         (prefix +++ connector +++ item +++ " [Error: " +++ message err +++ "]") ;;
       ret resultError).

(** The [for] loop over the sorted items. *)
Fixpoint printItems (items : list (Entry Walk)) (resultError : option Error)
  : M (list Line) (option Error) :=
  match items with
  | [] => ret resultError
  | it :: rest =>
      let isLast := match rest with [] => true | _ => false end in
      resultError' <- printItem it isLast resultError ;;
      printItems rest resultError'
  end.
End Items.

(** The body of [printTree(directoryPath, options)], where [here] is what
    the file system holds at the resolved path and [printTree] is the
    function itself, for the calls on the entries of [here]. *)
Definition printTree_body (printTree : node -> Walk) (here : node)
  (directoryPath : jsvalue) (options : Options.t) : M (list Line) WalkResult.t :=
  let prefix := dflt "" (Options.prefix options) in
  let maxDepth := dflt (-1) (Options.maxDepth options) in
  let exclude := dflt [] (Options.exclude options) in
  let showHidden := dflt false (Options.showHidden options) in
  let showSize := dflt false (Options.showSize options) in
  let currentDepth := dflt 0 (Options.currentDepth options) in
  let result := {| WalkResult.success := true; WalkResult.error := None |} in
  try_catch
    (if negb (truthy directoryPath) || negb (is_string directoryPath)
     then throw (MkError "Invalid directory path provided") else
     let resolvedPath := path_resolve rt (string_of directoryPath) in
     if negb (existsSync here)
     then throw (MkError ("Directory does not exist: " +++ resolvedPath)) else
     pathStats <- lift (statSync here) ;;
     if negb (isDirectory pathStats)
     then throw (MkError ("Path is not a directory: " +++ resolvedPath)) else
     if (maxDepth >=? 0) && (currentDepth >? maxDepth) then ret result else
     (if currentDepth =? 0
      then log currentDepth info (prefix +++ path_basename rt resolvedPath +++ "/")
      else ret tt) ;;
     listing <-
       try_catch
         (items <- lift (readdirSync printTree here) ;; ret (inl items))
         (fun err =>
            log currentDepth error
              (prefix +++ "├── [Error reading directory: " +++ message err +++ "]") ;;
            ret (inr {| WalkResult.success := false; WalkResult.error := Some err |})) ;;
     match listing with
     | inr failed => ret failed
     | inl items =>
         let items := filter (fun it => shown showHidden exclude (name it)) items in
         let items := js_sort compareItems items in
         resultError <-
           printItems options resolvedPath prefix showSize currentDepth items
             (WalkResult.error result) ;;
         (if (Z.of_nat (List.length items) =? 0)
          then log currentDepth info (prefix +++ "└── [empty]")
          else ret tt) ;;
         ret {| WalkResult.success := WalkResult.success result;
                WalkResult.error := resultError |}
     end)
    (fun err =>
       log currentDepth error ("Error: " +++ message err) ;;
       ret {| WalkResult.success := false; WalkResult.error := Some err |}).

Fixpoint printTree_at (here : node) {struct here} : Walk :=
  printTree_body printTree_at here.
End TreeRenderer.

(* ================================================================= *)
(** ** The output artifact and the console *)

Record World := {
  (** what the file system holds at a path *)
  at_path : string -> node;
  (** the error, if any, that the n-th write to the output file raises *)
  write_error : nat -> option Error
}.

(** [printTree(directoryPath, options)] on the file system of [w]. *)
Definition printTree (rt : Runtime) (log : Logger) (w : World)
  (directoryPath : jsvalue) (options : Options.t) : M (list Line) WalkResult.t :=
  printTree_at rt log (at_path w (path_resolve rt (string_of directoryPath)))
    directoryPath options.

Record Disk := {
  (** the output file: the pieces written to it, oldest first *)
  artifact : list string;
  (** the writes attempted so far *)
  attempts : nat;
  (** the paths handed to [readFileSync] so far *)
  reads : list string;
  console : list Line
}.

Definition blank : Disk :=
  {| artifact := []; attempts := 0%nat; reads := []; console := [] |}.

Definition write (w : World) (put : list string -> list string) : M Disk unit :=
  fun d =>
    match write_error w (attempts d) with
    | Some e =>
        ({| artifact := artifact d; attempts := S (attempts d);
            reads := reads d; console := console d |}, Throw e)
    | None =>
        ({| artifact := put (artifact d); attempts := S (attempts d);
            reads := reads d; console := console d |}, Ret tt)
    end.

Definition writeFileSync (w : World) (data : string) : M Disk unit :=
  write w (fun _ => [data]).

Definition appendFileSync (w : World) (data : string) : M Disk unit :=
  write w (fun old => old ++ [data]).

Definition readFile (path : string) (n : node) : M Disk string :=
  fun d =>
    ({| artifact := artifact d; attempts := attempts d;
        reads := reads d ++ [path]; console := console d |}, readFileSync n).

Definition console_log (st : Style) (txt : string) : M Disk unit :=
  modify (fun d =>
    {| artifact := artifact d; attempts := attempts d; reads := reads d;
       console := console d ++ [{| level := 0; style := st; text := txt |}] |}).

(** A function's local variable next to the state of its caller. *)
Definition with_local {S L A} (init : L) (m : M (S * L) A) : M S A :=
  fun s => match m (s, init) with ((s', _), r) => (s', r) end.

Definition outer {S L A} (m : M S A) : M (S * L) A :=
  fun sl => match m (fst sl) with (s', r) => ((s', snd sl), r) end.

Definition local {S L} : M (S * L) L := fun sl => (sl, Ret (snd sl)).

Definition set_local {S L} (f : L -> L) : M (S * L) unit :=
  modify (fun sl => (fst sl, f (snd sl))).

Definition nl : string := String (ascii_of_nat 10) EmptyString.

(** [s.repeat(n)] *)
Fixpoint repeat_string (s : string) (n : nat) : string :=
  match n with
  | O => EmptyString
  | S n' => s +++ repeat_string s n'
  end.

(* ================================================================= *)
(** ** minimatch *)

(** [s.includes("*")] *)
Fixpoint includesStar (s : string) : bool :=
  match s with
  | EmptyString => false
  | String c s' => Ascii.eqb c "*" || includesStar s'
  end.

(** [s.replace(/c/g, by)] for one character [c]. *)
Fixpoint replaceAll (c : ascii) (by_ : string) (s : string) : string :=
  match s with
  | EmptyString => EmptyString
  | String a s' =>
      (if Ascii.eqb a c then by_ else String a EmptyString) +++ replaceAll c by_ s'
  end.

(** The source of the regular expression that [minimatch] compiles. *)
Definition regexSource (pattern : string) : string :=
  let regexPattern := replaceAll "*" ".*" (replaceAll "." "\." pattern) in
  "^" +++ regexPattern +++ "$".

Definition minimatch (rt : Runtime) (str pattern : string) : outcome bool :=
  RegExp_test rt (regexSource pattern) str.

(** [list.some(f)] where [f] may throw. *)
Fixpoint some {A} (f : A -> outcome bool) (l : list A) : outcome bool :=
  match l with
  | [] => Ret false
  | x :: l' =>
      match f x with
      | Throw e => Throw e
      | Ret true => Ret true
      | Ret false => some f l'
      end
  end.

(* ================================================================= *)
(** ** exportFileContentsToFile and collectFileContents *)

Module Counts.
Record t := { processed : Z; skipped : Z }.

Definition zero : t := {| processed := 0; skipped := 0 |}.

Definition skip (c : t) : t :=
  {| processed := processed c; skipped := skipped c + 1 |}.

Definition process (c : t) : t :=
  {| processed := processed c + 1; skipped := skipped c |}.

Definition add (sub c : t) : t :=
  {| processed := processed c + processed sub; skipped := skipped c + skipped sub |}.
End Counts.

Module CollectOptions.
Record t := {
  exclude : list string;
  showHidden : bool;
  maxDepth : Z;
  extensions : option (list string);
  maxFileSize : Z;
  separator : string;
  currentDepth : Z
}.

(** [{ ...options, currentDepth: currentDepth + 1 }] *)
Definition descend (o : t) : t :=
  {| exclude := exclude o; showHidden := showHidden o; maxDepth := maxDepth o;
     extensions := extensions o; maxFileSize := maxFileSize o;
     separator := separator o; currentDepth := currentDepth o + 1 |}.
End CollectOptions.

Definition Collect : Type := string -> string -> CollectOptions.t -> M Disk Counts.t.

Section ContentCollector.
Variables (rt : Runtime) (w : World).

(** The test of [exclude.some(...)] in [collectFileContents]. *)
Definition excluded (exclude : list string) (item : string) : outcome bool :=
  some (fun pattern =>
          if includesStar pattern then minimatch rt item pattern
          else Ret (String.eqb item pattern))
       exclude.

(** [extensions && extensions.length > 0 && !extensions.includes(ext)] *)
Definition extensionRejected (extensions : option (list string)) (ext : string) : bool :=
  match extensions with
  | None => false
  | Some l => (Z.of_nat (List.length l) >? 0) && negb (includes l ext)
  end.

Section Items.
Variables (dirPath outputPath : string) (options : CollectOptions.t).

Definition tooLarge (relativePath : string) (sz : Z) : string :=
  "File: " +++ relativePath +++ nl +++ "[FILE TOO LARGE: " +++ formatFileSize rt sz
  +++ "]" +++ nl +++ CollectOptions.separator options.

Definition fileRecord (relativePath content : string) : string :=
  "File: " +++ relativePath +++ nl +++ nl +++ content +++ nl
  +++ CollectOptions.separator options.

Definition unableToRead (relativePath : string) (readErr : Error) : string :=
  "File: " +++ relativePath +++ nl +++ "[UNABLE TO READ: " +++ message readErr
  +++ "]" +++ nl +++ CollectOptions.separator options.

Definition pathError (relativePath : string) (statErr : Error) : string :=
  "Path: " +++ relativePath +++ nl +++ "[ERROR: " +++ message statErr
  +++ "]" +++ nl +++ CollectOptions.separator options.

Definition directoryError (err : Error) : string :=
  "Directory: " +++ dirPath +++ nl +++ "[ERROR: " +++ message err
  +++ "]" +++ nl +++ CollectOptions.separator options.

(** One turn of the [for (const item of items)] loop; [counts] is the local
    variable of the enclosing call. *)
Definition collectItem (it : Entry Collect) : M (Disk * Counts.t) unit :=
  let item := name it in
  if negb (CollectOptions.showHidden options) && startsWithDot item
  then set_local Counts.skip else
  isExcluded <- lift (excluded (CollectOptions.exclude options) item) ;;
  if (isExcluded : bool) then set_local Counts.skip else
  let fullPath := path_join rt dirPath item in
  let relativePath := path_relative rt (path_dirname rt outputPath) fullPath in
  try_catch
    (stats <- lift (statSync (target it)) ;;
     if isDirectory stats then
       subCounts <- outer (visit it fullPath outputPath (CollectOptions.descend options)) ;;
       set_local (Counts.add subCounts)
     else if size stats >? CollectOptions.maxFileSize options then
       outer (appendFileSync w (tooLarge relativePath (size stats))) ;;
       set_local Counts.skip
     else
       let ext := toLowerCase rt (path_extname rt item) in
       if extensionRejected (CollectOptions.extensions options) ext
       then set_local Counts.skip else
       try_catch
         (content <- outer (readFile fullPath (target it)) ;;
          outer (appendFileSync w (fileRecord relativePath content)) ;;
          set_local Counts.process)
         (fun readErr =>
            outer (appendFileSync w (unableToRead relativePath readErr)) ;;
            set_local Counts.skip))
    (fun statErr =>
       outer (appendFileSync w (pathError relativePath statErr)) ;;
       set_local Counts.skip).

Fixpoint collectItems (items : list (Entry Collect)) : M (Disk * Counts.t) unit :=
  match items with
  | [] => ret tt
  | it :: rest => collectItem it ;; collectItems rest
  end.
End Items.

(** The body of [collectFileContents(dirPath, outputPath, options)], where
    [here] is what the file system holds at [dirPath] and
    [collectFileContents] is the function itself. *)
Definition collectFileContents_body (collectFileContents : node -> Collect)
  (here : node) (dirPath outputPath : string) (options : CollectOptions.t)
  : M Disk Counts.t :=
  if (CollectOptions.maxDepth options >=? 0)
     && (CollectOptions.currentDepth options >? CollectOptions.maxDepth options)
  then ret Counts.zero else
  with_local Counts.zero
    (try_catch
       (items <- lift (readdirSync collectFileContents here) ;;
        collectItems dirPath outputPath options items)
       (fun err => outer (appendFileSync w (directoryError dirPath options err))) ;;
     local).

Fixpoint collectFileContents (here : node) {struct here} : Collect :=
  collectFileContents_body collectFileContents here.
End ContentCollector.

Module ExportResult.
Record t := {
  success : bool;
  filePath : option string;
  error : option Error;
  message : option string;
  fileCount : option Counts.t
}.

Definition failed (err : Error) (msg : string) : t :=
  {| success := false; filePath := None; error := Some err;
     message := Some msg; fileCount := None |}.
End ExportResult.

(** Eighty dashes between two line feeds: the default [separator]. *)
Definition defaultSeparator : string := nl +++ repeat_string "-" 80 +++ nl.

Definition exportFileContentsToFile (rt : Runtime) (w : World)
  (directoryPath : jsvalue) (outputPath : string) (options : Options.t)
  : M Disk ExportResult.t :=
  try_catch
    (let exclude := dflt [] (Options.exclude options) in
     let showHidden := dflt false (Options.showHidden options) in
     let maxDepth := dflt (-1) (Options.maxDepth options) in
     let extensions := Options.extensions options in
     let maxFileSize := dflt (1024 * 1024) (Options.maxFileSize options) in
     let separator := dflt defaultSeparator (Options.separator options) in
     if negb (truthy directoryPath) || negb (is_string directoryPath)
     then throw (MkError "Invalid directory path provided") else
     let resolvedDirPath := path_resolve rt (string_of directoryPath) in
     let resolvedOutputPath := path_resolve rt outputPath in
     let here := at_path w resolvedDirPath in
     if negb (existsSync here)
     then throw (MkError ("Directory does not exist: " +++ resolvedDirPath)) else
     pathStats <- lift (statSync here) ;;
     if negb (isDirectory pathStats)
     then throw (MkError ("Path is not a directory: " +++ resolvedDirPath)) else
     writeFileSync w ("File contents from: " +++ resolvedDirPath +++ nl +++ separator) ;;
     fileCount <-
       collectFileContents rt w here resolvedDirPath resolvedOutputPath
         {| CollectOptions.exclude := exclude;
            CollectOptions.showHidden := showHidden;
            CollectOptions.maxDepth := maxDepth;
            CollectOptions.extensions := extensions;
            CollectOptions.maxFileSize := maxFileSize;
            CollectOptions.separator := separator;
            CollectOptions.currentDepth := 0 |} ;;
     appendFileSync w
       (separator +++ "End of file contents" +++ nl
        +++ "Total files processed: " +++ show_Z (Counts.processed fileCount) +++ nl
        +++ "Files skipped: " +++ show_Z (Counts.skipped fileCount) +++ nl) ;;
     console_log success ("File contents exported successfully to: " +++ outputPath) ;;
     console_log info
       ("Files processed: " +++ show_Z (Counts.processed fileCount)
        +++ ", Files skipped: " +++ show_Z (Counts.skipped fileCount)) ;;
     ret {| ExportResult.success := true;
            ExportResult.filePath := Some resolvedOutputPath;
            ExportResult.error := None;
            ExportResult.message := None;
            ExportResult.fileCount := Some fileCount |})
    (fun err =>
       console_log error ("Failed to export file contents: " +++ message err) ;;
       ret (ExportResult.failed err ("Failed to export file contents: " +++ message err))).

(* ================================================================= *)
(** ** exportTreeToFile *)

(** Runs a walk whose logger pushes onto a fresh [output] array. *)
Definition collecting {S A} (m : M (list Line) A) : M S (list Line * A) :=
  fun s =>
    match m [] with
    | (output, Ret a) => (s, Ret (output, a))
    | (_, Throw e) => (s, Throw e)
    end.

(** Runs a computation on an object of the caller and gives the object back. *)
Definition on_object {S T A} (obj : T) (m : M T A) : M S T :=
  fun s =>
    match m obj with
    | (obj', Ret _) => (s, Ret obj')
    | (_, Throw e) => (s, Throw e)
    end.

(** What the collecting logger stores for a line. *)
Definition plain (rt : Runtime) (l : Line) : string :=
  stripColors rt (colorize rt (style l) (text l)).

(** [output.join("\n")] *)
Definition join_lines (output : list string) : string := String.concat nl output.

Definition exportTreeToFile (rt : Runtime) (w : World)
  (directoryPath : jsvalue) (outputPath : string) (options : Options.t)
  : M Disk ExportResult.t :=
  try_catch
    (walked <- collecting (printTree rt logger w directoryPath options) ;;
     let output := map (plain rt) (fst walked) in
     let result := snd walked in
     writeFileSync w (join_lines output) ;;
     console_log success ("Tree structure exported successfully to: " +++ outputPath) ;;
     ret {| ExportResult.success := true;
            ExportResult.filePath := Some (path_resolve rt outputPath);
            ExportResult.error := WalkResult.error result;
            ExportResult.message := None;
            ExportResult.fileCount := None |})
    (fun err =>
       console_log error ("Failed to export tree: " +++ message err) ;;
       ret (ExportResult.failed err ("Failed to export tree: " +++ message err))).

(** A walk whose logger is [console.log]. *)
Definition on_console {A} (m : M (list Line) A) : M Disk A :=
  fun d =>
    match m [] with
    | (output, r) =>
        ({| artifact := artifact d; attempts := attempts d; reads := reads d;
            console := console d ++ output |}, r)
    end.

Definition simpleTreePrint (rt : Runtime) (w : World) (directoryPath : jsvalue)
  : M Disk WalkResult.t :=
  console_log success (nl +++ "Simple Tree Print:") ;;
  on_console
    (printTree rt logger w directoryPath
       {| Options.prefix := None; Options.maxDepth := Some (-1);
          Options.exclude := None; Options.showHidden := Some false;
          Options.showSize := Some true; Options.currentDepth := None;
          Options.extensions := None; Options.maxFileSize := None;
          Options.separator := None; Options.includeStats := None;
          Options.includeFileCount := None |}).

(* ================================================================= *)
(** ** generateDirectorySummary and collectDirectoryStats *)

Module LargeFile.
Record t := { path : string; size : Z }.
End LargeFile.

Module TypeStats.
Record t := { count : Z; size : Z }.
End TypeStats.

Module DirectoryStats.
Record t := {
  totalFiles : Z;
  totalDirectories : Z;
  totalSize : Z;
  (** the keys of the [fileTypes] object in insertion order *)
  fileTypes : list (string * TypeStats.t);
  largestFiles : list LargeFile.t
}.

Definition zero : t :=
  {| totalFiles := 0; totalDirectories := 0; totalSize := 0;
     fileTypes := []; largestFiles := [] |}.
End DirectoryStats.

Module StatsOptions.
Record t := {
  exclude : list string;
  showHidden : bool;
  maxDepth : Z;
  currentDepth : Z
}.

Definition descend (o : t) : t :=
  {| exclude := exclude o; showHidden := showHidden o; maxDepth := maxDepth o;
     currentDepth := currentDepth o + 1 |}.
End StatsOptions.

(** The comparator [(a, b) => b.size - a.size]. *)
Definition bySizeDesc (a b : LargeFile.t) : Z := LargeFile.size b - LargeFile.size a.

(** The comparator [(a, b) => b[1].count - a[1].count]. *)
Definition byCountDesc (a b : string * TypeStats.t) : Z :=
  TypeStats.count (snd b) - TypeStats.count (snd a).

(** [largestFiles.push(f)], then the trim to the 20 largest. *)
Definition trackLargest (largestFiles : list LargeFile.t) (f : LargeFile.t)
  : list LargeFile.t :=
  let pushed := largestFiles ++ [f] in
  if Z.of_nat (List.length pushed) >? 20
  then firstn 20 (js_sort bySizeDesc pushed)
  else pushed.

(** The bucket of [ext] created if missing, then [count++] and [size += sz]. *)
Fixpoint trackType (ext : string) (sz : Z) (fileTypes : list (string * TypeStats.t))
  : list (string * TypeStats.t) :=
  match fileTypes with
  | [] => [(ext, {| TypeStats.count := 0 + 1; TypeStats.size := 0 + sz |})]
  | (k, v) :: rest =>
      if String.eqb k ext
      then (k, {| TypeStats.count := TypeStats.count v + 1;
                  TypeStats.size := TypeStats.size v + sz |}) :: rest
      else (k, v) :: trackType ext sz rest
  end.

(** [s || "(no extension)"] *)
Definition orNoExtension (s : string) : string :=
  if String.eqb s "" then "(no extension)" else s.

(** What the loop of [collectDirectoryStats] does to [stats] for a file. *)
Definition countFile (rt : Runtime) (item fullPath : string) (sz : Z)
  (stats : DirectoryStats.t) : DirectoryStats.t :=
  let ext := orNoExtension (toLowerCase rt (path_extname rt item)) in
  {| DirectoryStats.totalFiles := DirectoryStats.totalFiles stats + 1;
     DirectoryStats.totalDirectories := DirectoryStats.totalDirectories stats;
     DirectoryStats.totalSize := DirectoryStats.totalSize stats + sz;
     DirectoryStats.fileTypes := trackType ext sz (DirectoryStats.fileTypes stats);
     DirectoryStats.largestFiles :=
       trackLargest (DirectoryStats.largestFiles stats)
         {| LargeFile.path := fullPath; LargeFile.size := sz |} |}.

Definition countDirectory (stats : DirectoryStats.t) : DirectoryStats.t :=
  {| DirectoryStats.totalFiles := DirectoryStats.totalFiles stats;
     DirectoryStats.totalDirectories := DirectoryStats.totalDirectories stats + 1;
     DirectoryStats.totalSize := DirectoryStats.totalSize stats;
     DirectoryStats.fileTypes := DirectoryStats.fileTypes stats;
     DirectoryStats.largestFiles := DirectoryStats.largestFiles stats |}.

Definition Aggregate : Type := string -> StatsOptions.t -> M DirectoryStats.t unit.

Section StatsAggregator.
Variable rt : Runtime.

Section Items.
Variables (dirPath : string) (options : StatsOptions.t).

(** One turn of the loop; the state is the [stats] object, shared by all
    the calls of one aggregation. *)
Definition statsItem (it : Entry Aggregate) : M DirectoryStats.t unit :=
  let item := name it in
  if negb (StatsOptions.showHidden options) && startsWithDot item then ret tt else
  if existsb (fun pattern => String.eqb item pattern) (StatsOptions.exclude options)
  then ret tt else
  let fullPath := path_join rt dirPath item in
  try_catch
    (itemStats <- lift (statSync (target it)) ;;
     if isDirectory itemStats then
       modify countDirectory ;;
       visit it fullPath (StatsOptions.descend options)
     else
       modify (countFile rt item fullPath (size itemStats)))
    (fun _ => ret tt).

Fixpoint statsItems (items : list (Entry Aggregate)) : M DirectoryStats.t unit :=
  match items with
  | [] => ret tt
  | it :: rest => statsItem it ;; statsItems rest
  end.
End Items.

(** The body of [collectDirectoryStats(dirPath, stats, options)], where
    [collectDirectoryStats] is the function itself. *)
Definition collectDirectoryStats_body (collectDirectoryStats : node -> Aggregate)
  (here : node) (dirPath : string) (options : StatsOptions.t)
  : M DirectoryStats.t unit :=
  if (StatsOptions.maxDepth options >=? 0)
     && (StatsOptions.currentDepth options >? StatsOptions.maxDepth options)
  then ret tt else
  try_catch
    (items <- lift (readdirSync collectDirectoryStats here) ;;
     statsItems dirPath options items)
    (fun _ => ret tt).

Fixpoint collectDirectoryStats (here : node) {struct here} : Aggregate :=
  collectDirectoryStats_body collectDirectoryStats here.
End StatsAggregator.

Module SummaryResult.
Record t := {
  success : bool;
  filePath : option string;
  stats : option DirectoryStats.t;
  error : option Error;
  message : option string
}.
End SummaryResult.

(** [path.resolve(v)]: a TypeError unless [v] is a string. *)
Definition path_resolve_any (rt : Runtime) (v : jsvalue) : outcome string :=
  match v with
  | JString s => Ret (path_resolve rt s)
  | _ => Throw (MkError "The paths[0] argument must be of type string")
  end.

(** The largest files as the report lists them: sorted, the first 10. *)
Definition displayedLargest (sorted : list LargeFile.t) : list LargeFile.t :=
  firstn 10 sorted.

Definition statisticsLines (rt : Runtime) (stats : DirectoryStats.t)
  (sortedLargest : list LargeFile.t) : list string :=
  [""; repeat_string "=" 80; ""; "Directory Statistics:";
   "- Total Files: " +++ show_Z (DirectoryStats.totalFiles stats);
   "- Total Directories: " +++ show_Z (DirectoryStats.totalDirectories stats);
   "- Total Size: " +++ formatFileSize rt (DirectoryStats.totalSize stats);
   ""; "File Types:"]
  ++ map (fun entry =>
            "- " +++ orNoExtension (fst entry) +++ ": "
            +++ show_Z (TypeStats.count (snd entry)) +++ " files ("
            +++ formatFileSize rt (TypeStats.size (snd entry)) +++ ")")
         (js_sort byCountDesc (DirectoryStats.fileTypes stats))
  ++ [""; "Largest Files:"]
  ++ map (fun file =>
            "- " +++ LargeFile.path file +++ " ("
            +++ formatFileSize rt (LargeFile.size file) +++ ")")
         (displayedLargest sortedLargest).

Definition generateDirectorySummary (rt : Runtime) (w : World)
  (directoryPath : jsvalue) (outputPath : string) (options : Options.t)
  : M Disk SummaryResult.t :=
  try_catch
    (let exclude := dflt ["node_modules"; ".git"] (Options.exclude options) in
     let showHidden := dflt false (Options.showHidden options) in
     let includeStats := dflt true (Options.includeStats options) in
     let includeFileCount := dflt true (Options.includeFileCount options) in
     let maxDepth := dflt (-1) (Options.maxDepth options) in
     let stats := DirectoryStats.zero in
     resolved <- lift (path_resolve_any rt directoryPath) ;;
     let output :=
       ["Directory Summary: " +++ resolved; "Generated on: " +++ dateNow rt;
        repeat_string "=" 80; ""; "Directory Structure:"] in
     walked <-
       collecting
         (printTree rt logger w directoryPath
            {| Options.prefix := Some ""; Options.maxDepth := Some maxDepth;
               Options.exclude := Some exclude; Options.showHidden := Some showHidden;
               Options.showSize := Some false; Options.currentDepth := None;
               Options.extensions := None; Options.maxFileSize := None;
               Options.separator := None; Options.includeStats := None;
               Options.includeFileCount := None |}) ;;
     let output := output ++ map (plain rt) (fst walked) in
     reported <-
       (if includeStats || includeFileCount then
          stats <-
            on_object stats
              (collectDirectoryStats rt (at_path w (string_of directoryPath))
                 (string_of directoryPath)
                 {| StatsOptions.exclude := exclude;
                    StatsOptions.showHidden := showHidden;
                    StatsOptions.maxDepth := maxDepth;
                    StatsOptions.currentDepth := 0 |}) ;;
          let sortedLargest := js_sort bySizeDesc (DirectoryStats.largestFiles stats) in
          let stats :=
            {| DirectoryStats.totalFiles := DirectoryStats.totalFiles stats;
               DirectoryStats.totalDirectories := DirectoryStats.totalDirectories stats;
               DirectoryStats.totalSize := DirectoryStats.totalSize stats;
               DirectoryStats.fileTypes := DirectoryStats.fileTypes stats;
               DirectoryStats.largestFiles := sortedLargest |} in
          ret (output ++ statisticsLines rt stats sortedLargest, stats)
        else ret (output, stats)) ;;
     writeFileSync w (join_lines (fst reported)) ;;
     console_log success ("Directory summary generated successfully to: " +++ outputPath) ;;
     ret {| SummaryResult.success := true;
            SummaryResult.filePath := Some (path_resolve rt outputPath);
            SummaryResult.stats := Some (snd reported);
            SummaryResult.error := None;
            SummaryResult.message := None |})
    (fun err =>
       console_log error ("Failed to generate directory summary: " +++ message err) ;;
       ret {| SummaryResult.success := false;
              SummaryResult.filePath := None;
              SummaryResult.stats := None;
              SummaryResult.error := Some err;
              SummaryResult.message :=
                Some ("Failed to generate directory summary: " +++ message err) |}).

(* ================================================================= *)
(** ** A runtime and file systems to run the functions on *)

Module Example.

(** The part of a path after its last slash, and the part before it. *)
Fixpoint basename (s : string) : string :=
  match s with
  | EmptyString => EmptyString
  | String c s' =>
      if Ascii.eqb c "/" then basename s'
      else if existsb (Ascii.eqb "/") (list_ascii_of_string s') then basename s'
      else s
  end.

Fixpoint dirname (s : string) : string :=
  match s with
  | EmptyString => EmptyString
  | String c s' =>
      if existsb (Ascii.eqb "/") (list_ascii_of_string s')
      then String c (dirname s')
      else EmptyString
  end.

(** [to] seen from the directory [from], for a [to] below [from]. *)
Definition relative (from to : string) : string :=
  if String.prefix (from +++ "/") to
  then String.substring (S (String.length from)) (String.length to) to
  else to.

(** From the last dot of a name on, when that dot is not its first
    character. *)
Fixpoint extname_from (s : string) : string :=
  match s with
  | EmptyString => EmptyString
  | String c s' =>
      if existsb (Ascii.eqb ".") (list_ascii_of_string s') then extname_from s'
      else if Ascii.eqb c "." then s
      else EmptyString
  end.

Definition extname (s : string) : string :=
  match s with
  | EmptyString => EmptyString
  | String _ s' => extname_from s'
  end.

Definition lower (c : ascii) : ascii :=
  let n := nat_of_ascii c in
  if (65 <=? n)%nat && (n <=? 90)%nat then ascii_of_nat (n + 32) else c.

Fixpoint lowercase (s : string) : string :=
  match s with
  | EmptyString => EmptyString
  | String c s' => String (lower c) (lowercase s')
  end.

Definition compareNames (a b : string) : Z :=
  match String.compare a b with
  | Lt => -1
  | Eq => 0
  | Gt => 1
  end.

(** A small engine for the sources that [minimatch] builds from patterns
    without other metacharacters: it knows [^ ... $] over literal characters,
    escaped characters and [.*], and answers every other source with a
    SyntaxError (a real engine accepts more). *)
Inductive token := TChar (c : ascii) | TAnyStar.

Definition special (c : ascii) : bool :=
  existsb (Ascii.eqb c) (list_ascii_of_string "^$\.*+?()[]{}|/").

Fixpoint tokens (fuel : nat) (s : string) : option (list token) :=
  match fuel with
  | O => None
  | S fuel' =>
      match s with
      | String "$" EmptyString => Some []
      | String "\" (String c s') => option_map (cons (TChar c)) (tokens fuel' s')
      | String "." (String "*" s') => option_map (cons TAnyStar) (tokens fuel' s')
      | String c s' =>
          if special c then None else option_map (cons (TChar c)) (tokens fuel' s')
      | EmptyString => None
      end
  end.

Definition lineTerminator (c : ascii) : bool :=
  Ascii.eqb c (ascii_of_nat 10) || Ascii.eqb c (ascii_of_nat 13).

Fixpoint matches (ts : list token) (s : string) {struct ts} : bool :=
  match ts with
  | [] => String.eqb s EmptyString
  | TChar c :: ts' =>
      match s with
      | String a s' => Ascii.eqb a c && matches ts' s'
      | EmptyString => false
      end
  | TAnyStar :: ts' =>
      (fix star (s : string) : bool :=
         matches ts' s
         || match s with
            | String a s' => negb (lineTerminator a) && star s'
            | EmptyString => false
            end) s
  end.

Definition regexp_test (source s : string) : outcome bool :=
  match source with
  | String "^" body =>
      match tokens (S (String.length body)) body with
      | Some ts => Ret (matches ts s)
      | None => Throw (MkError ("Invalid regular expression: /" +++ source +++ "/"))
      end
  | _ => Throw (MkError ("Invalid regular expression: /" +++ source +++ "/"))
  end.

(** [formatFileSize] computed with integers: the unit is the largest power
    of 1024 that the size reaches, and the value has two decimals. *)
Fixpoint unitIndex (fuel : nat) (bytes : Z) : nat :=
  match fuel with
  | O => O
  | S fuel' => if bytes <? 1024 then O else S (unitIndex fuel' (bytes / 1024))
  end.

Definition twoDigits (z : Z) : string :=
  if z <? 10 then "0" +++ show_Z z else show_Z z.

Definition formatSize (bytes : Z) : string :=
  if bytes =? 0 then "0 B" else
  let i := unitIndex 5 bytes in
  let unit := 1024 ^ Z.of_nat i in
  let hundredths := (bytes * 200 + unit) / (2 * unit) in
  show_Z (hundredths / 100) +++ "." +++ twoDigits (hundredths mod 100) +++ " "
  +++ nth i ["B"; "KB"; "MB"; "GB"; "TB"; "PB"] "".

Definition runtime : Runtime :=
  {| path_resolve := fun p => p;
     path_join := fun a b => a +++ "/" +++ b;
     path_basename := basename;
     path_dirname := dirname;
     path_relative := relative;
     path_extname := extname;
     toLowerCase := lowercase;
     localeCompare := compareNames;
     RegExp_test := regexp_test;
     formatFileSize := formatSize;
     dateNow := "1/1/2025, 12:00:00 AM";
     colorize := fun _ s => s;
     stripColors := fun s => s |}.

Definition EACCES : Error := MkError "EACCES: permission denied, scandir".
Definition ENOENT : Error := MkError "ENOENT: no such file or directory".

(** A file system that holds [tree] at [/root] and nothing else, and whose
    writes succeed. *)
Definition holding (tree : node) : World :=
  {| at_path := fun p => if String.eqb p "/root" then tree else NoStat ENOENT;
     write_error := fun _ => None |}.

(** [root/{a.txt (5 bytes), b/.hidden (1 byte), b/c.js (10 bytes)}] *)
Definition scenario : node :=
  Dir [("a.txt", File 5 (Ret "hello"));
       ("b", Dir [(".hidden", File 1 (Ret "x"));
                  ("c.js", File 10 (Ret "let a = 1;"))])].

(** A directory that cannot be listed, next to a file. *)
Definition locked : node :=
  Dir [("a", DirNoRead EACCES); ("b.txt", File 1 (Ret "b"))].

(** A name whose [statSync] throws (a link to nothing), listed before a
    directory, as [readdirSync] lists them. *)
Definition raced : node :=
  Dir [("a", NoStat ENOENT); ("d", Dir [])].

(** The options [{ exclude: l }]. *)
Definition excluding (l : list string) : Options.t :=
  {| Options.prefix := None; Options.maxDepth := None; Options.exclude := Some l;
     Options.showHidden := None; Options.showSize := None;
     Options.currentDepth := None; Options.extensions := None;
     Options.maxFileSize := None; Options.separator := None;
     Options.includeStats := None; Options.includeFileCount := None |}.


(** A file of 11 bytes and one of 10 with another extension. *)
Definition sizes : node :=
  Dir [("big.bin", File 11 (Ret "0123456789A"));
       ("fit.txt", File 10 (Ret "0123456789"))].

(** Content export of files up to 10 bytes with the extension [.txt]. *)
Definition upTo10 : CollectOptions.t :=
  {| CollectOptions.exclude := []; CollectOptions.showHidden := false;
     CollectOptions.maxDepth := -1; CollectOptions.extensions := Some [".txt"];
     CollectOptions.maxFileSize := 10; CollectOptions.separator := defaultSeparator;
     CollectOptions.currentDepth := 0 |}.

End Example.

(* ================================================================= *)
(** ** What a walk meets *)

(** The files that the statistics walk counts for one entry of a listing:
    none if the entry is hidden or named in [exclude], the entry itself if
    [statSync] finds something other than a directory, and the files counted
    below it if it is a directory. *)
Definition visitedEntry (rt : Runtime)
  (visitedFiles : node -> string -> StatsOptions.t -> list LargeFile.t)
  (dirPath : string) (options : StatsOptions.t) (e : string * node)
  : list LargeFile.t :=
  let item := fst e in
  let fullPath := path_join rt dirPath item in
  if negb (StatsOptions.showHidden options) && startsWithDot item then []
  else if includes (StatsOptions.exclude options) item then []
  else
    match snd e with
    | File sz _ => [{| LargeFile.path := fullPath; LargeFile.size := sz |}]
    | Dir _ | DirNoRead _ =>
        visitedFiles (snd e) fullPath (StatsOptions.descend options)
    | NoStat _ => []
    end.

(** The files that the statistics walk of [here] counts, in the order in
    which it meets them, within the depth limit. *)
Fixpoint visitedFiles (rt : Runtime) (here : node) (dirPath : string)
  (options : StatsOptions.t) {struct here} : list LargeFile.t :=
  if (StatsOptions.maxDepth options >=? 0)
     && (StatsOptions.currentDepth options >? StatsOptions.maxDepth options)
  then [] else
  match here with
  | Dir entries => flat_map (visitedEntry rt (visitedFiles rt) dirPath options) entries
  | File _ _ | DirNoRead _ | NoStat _ => []
  end.

(** A file that the content walk reaches: its full path, its name and the
    node. *)
Record Reached := { fullPathOf : string; itemOf : string; fileOf : node }.

(** The files that the content walk reaches for one entry of a listing: none
    if the entry is hidden or a pattern of [exclude] matches it, the entry
    itself if [statSync] finds a file, and the files reached below it if it is
    a directory. *)
Definition reachedEntry (rt : Runtime)
  (reachedFiles : node -> string -> CollectOptions.t -> list Reached)
  (dirPath : string) (options : CollectOptions.t) (e : string * node)
  : list Reached :=
  let item := fst e in
  let fullPath := path_join rt dirPath item in
  if negb (CollectOptions.showHidden options) && startsWithDot item then []
  else
    match excluded rt (CollectOptions.exclude options) item with
    | Ret false =>
        match snd e with
        | File _ _ => [{| fullPathOf := fullPath; itemOf := item; fileOf := snd e |}]
        | Dir _ | DirNoRead _ =>
            reachedFiles (snd e) fullPath (CollectOptions.descend options)
        | NoStat _ => []
        end
    | _ => []
    end.

(** The files that the content walk of [here] reaches, in order, within the
    depth limit. *)
Fixpoint reachedFiles (rt : Runtime) (here : node) (dirPath : string)
  (options : CollectOptions.t) {struct here} : list Reached :=
  if (CollectOptions.maxDepth options >=? 0)
     && (CollectOptions.currentDepth options >? CollectOptions.maxDepth options)
  then [] else
  match here with
  | Dir entries => flat_map (reachedEntry rt (reachedFiles rt) dirPath options) entries
  | File _ _ | DirNoRead _ | NoStat _ => []
  end.

(** Whether the content walk reads a reached file: it is within the size
    limit and its extension is accepted. *)
Definition isRead (rt : Runtime) (options : CollectOptions.t) (r : Reached) : bool :=
  match fileOf r with
  | File sz _ =>
      negb (sz >? CollectOptions.maxFileSize options)
      && negb (extensionRejected (CollectOptions.extensions options)
                 (toLowerCase rt (path_extname rt (itemOf r))))
  | _ => false
  end.

(* ================================================================= *)
(** ** What the statements say of a walk *)

(** The tree filter, said with names only: an entry stays unless it is
    hidden or its name is an element of [exclude]. *)
Definition keptByName (showHidden : bool) (exclude : list string) (item : string) : Prop :=
  ~ (showHidden = false /\ startsWithDot item = true) /\ ~ In item exclude.

(** A computation that ends in a value from every state. *)
Definition returns {S A} (m : M S A) : Prop :=
  forall s, exists s' a, m s = (s', Ret a).

(** [statSync] finds a directory. *)
Definition isDirectoryNode (n : node) : bool :=
  match n with
  | Dir _ | DirNoRead _ => true
  | File _ _ | NoStat _ => false
  end.

(** Every line has its level between [lo] and [hi]. *)
Definition levelsWithin (lo hi : Z) (lines : list Line) : Prop :=
  Forall (fun l => lo <= level l <= hi) lines.

(** The line of the entry [item] in a listing printed with [prefix] at depth
    [d]: the prefix, a connector, the name, and what follows the name. *)
Definition lineOf (prefix : string) (d : Z) (item : string) (l : Line) : Prop :=
  level l = d
  /\ exists connector rest, text l = prefix +++ connector +++ item +++ rest.

(** The walk of [n] only adds lines, returns, and keeps the levels of its
    lines between its own depth and the depth limit. *)
Definition walksWell (rt : Runtime) (n : node) : Prop :=
  forall p o out, exists lines r,
    printTree_at rt logger n p o out = (out ++ lines, Ret r)
    /\ ((forall a b, path_join rt a b <> "") ->
        forall k, Options.maxDepth o = Some k -> 0 <= k ->
        levelsWithin (dflt 0 (Options.currentDepth o))
          (Z.max k (dflt 0 (Options.currentDepth o))) lines).

(** Where a stable sort puts an element that came last: after every element
    that does not sort after it. *)
Fixpoint insert_last {A} (cmp : A -> A -> Z) (x : A) (l : list A) : list A :=
  match l with
  | [] => [x]
  | y :: l' => if cmp x y <? 0 then x :: l else y :: insert_last cmp x l'
  end.

(** The file [a] is at least as large as [b]. *)
Definition noSmaller (a b : LargeFile.t) : Prop := LargeFile.size b <= LargeFile.size a.

(** The statistics walk of [n] returns, and has pushed the files that it met,
    in order, through [trackLargest]. *)
Definition aggregatesWell (rt : Runtime) (n : node) : Prop :=
  forall dirPath options stats, exists stats',
    collectDirectoryStats rt n dirPath options stats = (stats', Ret tt)
    /\ DirectoryStats.largestFiles stats'
       = fold_left trackLargest (visitedFiles rt n dirPath options)
           (DirectoryStats.largestFiles stats).

(** The disk after one more piece was appended to the output file. *)
Definition appended (d : Disk) (piece : string) : Disk :=
  {| artifact := artifact d ++ [piece]; attempts := S (attempts d);
     reads := reads d; console := console d |}.

(** The disk after [readFileSync] was called on [path]. *)
Definition afterRead (d : Disk) (path : string) : Disk :=
  {| artifact := artifact d; attempts := attempts d;
     reads := reads d ++ [path]; console := console d |}.

(** What the content walk appends for a file that it reaches: the
    placeholder of a file that is too large, nothing for a rejected
    extension, else the record of the content or the placeholder of the
    failed read. *)
Definition pieceOf (rt : Runtime) (outputPath : string) (options : CollectOptions.t)
  (r : Reached) : option string :=
  let relativePath := path_relative rt (path_dirname rt outputPath) (fullPathOf r) in
  match fileOf r with
  | File sz content =>
      if sz >? CollectOptions.maxFileSize options
      then Some ("File: " +++ relativePath +++ nl
                 +++ "[FILE TOO LARGE: " +++ formatFileSize rt sz +++ "]" +++ nl
                 +++ CollectOptions.separator options)
      else if extensionRejected (CollectOptions.extensions options)
                (toLowerCase rt (path_extname rt (itemOf r)))
      then None
      else
        match content with
        | Ret txt =>
            Some ("File: " +++ relativePath +++ nl +++ nl +++ txt +++ nl
                  +++ CollectOptions.separator options)
        | Throw readErr =>
            Some ("File: " +++ relativePath +++ nl
                  +++ "[UNABLE TO READ: " +++ message readErr +++ "]" +++ nl
                  +++ CollectOptions.separator options)
        end
  | _ => None
  end.

(** The content walk of [n], on a disk that takes every write and with
    patterns that the engine accepts: it returns, it only appends to the
    output file, it reads the reached files that are within the size limit
    and of an accepted extension, in order, and nothing else, and the piece of
    every reached file is in what it appended. *)
Definition collectsWell (rt : Runtime) (w : World) (n : node) : Prop :=
  forall dirPath outputPath options d,
    (forall item, exists b, excluded rt (CollectOptions.exclude options) item = Ret b) ->
    exists d' counts pieces,
      collectFileContents rt w n dirPath outputPath options d = (d', Ret counts)
      /\ artifact d' = artifact d ++ pieces
      /\ reads d'
         = reads d ++ map fullPathOf
                        (filter (isRead rt options) (reachedFiles rt n dirPath options))
      /\ (forall r piece,
            In r (reachedFiles rt n dirPath options) ->
            pieceOf rt outputPath options r = Some piece ->
            In piece pieces).

(** The options object that exportFileContentsToFile builds for
    collectFileContents. *)
Definition collectOptionsOf (options : Options.t) : CollectOptions.t :=
  {| CollectOptions.exclude := dflt [] (Options.exclude options);
     CollectOptions.showHidden := dflt false (Options.showHidden options);
     CollectOptions.maxDepth := dflt (-1) (Options.maxDepth options);
     CollectOptions.extensions := Options.extensions options;
     CollectOptions.maxFileSize := dflt (1024 * 1024) (Options.maxFileSize options);
     CollectOptions.separator := dflt defaultSeparator (Options.separator options);
     CollectOptions.currentDepth := 0 |}.

(* ================================================================= *)
(** ** What the further statements say *)

(** The lines that a call at depth [d] logged itself, among the lines of its
    walk. *)
Definition ownLines (d : Z) (lines : list Line) : list Line :=
  filter (fun l => level l =? d) lines.

(** The items of a directory as the loop of printTree meets them: the
    listing, filtered, then sorted. *)
Definition itemsOf (rt : Runtime) (o : Options.t) (entries : list (string * node))
  : list (Entry Walk) :=
  js_sort (compareItems rt)
    (filter
       (fun it => shown (dflt false (Options.showHidden o))
                    (dflt [] (Options.exclude o)) (name it))
       (map (fun e => {| name := fst e; target := snd e;
                         visit := printTree_at rt logger (snd e) |}) entries)).

(** The line that printTree logs for the item [it] of a listing printed
    with [prefix] at depth [d]: the prefix, the connector of a last item or
    of one with items after it, the name, and then a slash for a directory,
    the size in brackets for a file when sizes are shown, or the message of
    the error when [statSync] throws. *)
Definition itemLine {R} (rt : Runtime) (prefix : string) (showSize : bool) (d : Z)
  (it : Entry R) (isLast : bool) : Line :=
  let connector := if isLast then "└── " else "├── " in
  match target it with
  | File sz _ =>
      {| level := d; style := info;
         text := prefix +++ connector +++ name it
                 +++ (if showSize then " (" +++ formatFileSize rt sz +++ ")" else "") |}
  | Dir _ | DirNoRead _ =>
      {| level := d; style := info; text := prefix +++ connector +++ name it +++ "/" |}
  | NoStat e =>
      {| level := d; style := error;
         text := prefix +++ connector +++ name it
                 +++ " [Error: " +++ message e +++ "]" |}
  end.

(** The lines of the items of a listing, in their order; the last item has
    the connector of a last item. *)
Fixpoint itemLines {R} (rt : Runtime) (prefix : string) (showSize : bool) (d : Z)
  (items : list (Entry R)) : list Line :=
  match items with
  | [] => []
  | it :: rest =>
      itemLine rt prefix showSize d it (match rest with [] => true | _ :: _ => false end)
      :: itemLines rt prefix showSize d rest
  end.

(** The line that names the root of a walk, and the marker of a directory
    with nothing to show. *)
Definition rootLine (rt : Runtime) (prefix directoryPath : string) : Line :=
  {| level := 0; style := info;
     text := prefix +++ path_basename rt (path_resolve rt directoryPath) +++ "/" |}.

Definition emptyLine (prefix : string) (d : Z) : Line :=
  {| level := d; style := info; text := prefix +++ "└── [empty]" |}.

(** The picture of a directory: a list of lines from a path, a prefix and a
    depth. *)
Definition Draw : Type := string -> string -> Z -> list Line.

Section Drawing.
Variables (rt : Runtime) (showHidden : bool) (exclude : list string)
          (showSize : bool) (maxDepth : Z).

(** Each item has its line; under the line of a directory comes the picture
    of the directory, one level deeper, with four more columns of prefix:
    blanks under a last item, a bar and blanks under an item with items after
    it. *)
Fixpoint drawItems (resolvedPath prefix : string) (d : Z) (items : list (Entry Draw))
  : list Line :=
  match items with
  | [] => []
  | it :: rest =>
      let isLast := match rest with [] => true | _ :: _ => false end in
      (itemLine rt prefix showSize d it isLast
       :: (if isDirectoryNode (target it)
           then visit it (path_join rt resolvedPath (name it))
                  (prefix +++ (if isLast then "    " else "│   ")) (d + 1)
           else []))
      ++ drawItems resolvedPath prefix d rest
  end.

(** The picture of [here], a directory: nothing below the depth limit; else
    the line of the root if the depth is 0, then the items that pass the
    filter, sorted, or the marker if there is none; for a directory that
    cannot be listed, the line of the error. *)
Definition drawing_body (drawing : node -> Draw) (here : node)
  (directoryPath prefix : string) (d : Z) : list Line :=
  if (maxDepth >=? 0) && (d >? maxDepth) then [] else
  (if d =? 0 then [rootLine rt prefix directoryPath] else [])
  ++ match here with
     | Dir entries =>
         let items :=
           js_sort (compareItems rt)
             (filter (fun it => shown showHidden exclude (name it))
                (map (fun e => {| name := fst e; target := snd e;
                                  visit := drawing (snd e) |}) entries)) in
         drawItems (path_resolve rt directoryPath) prefix d items
         ++ match items with
            | [] => [emptyLine prefix d]
            | _ :: _ => []
            end
     | DirNoRead e =>
         [{| level := d; style := error;
             text := prefix +++ "├── [Error reading directory: " +++ message e +++ "]" |}]
     | File _ _ | NoStat _ => []
     end.

Fixpoint drawing (here : node) {struct here} : Draw :=
  drawing_body drawing here.
End Drawing.

(** [statSync] returns for every entry of the tree: no entry has vanished
    and no link leads nowhere. *)
Fixpoint classified (here : node) : bool :=
  match here with
  | Dir entries => forallb (fun e => classified (snd e)) entries
  | File _ _ | DirNoRead _ => true
  | NoStat _ => false
  end.

(** The walk of a directory [n] from a path with characters logs the picture
    of [n]. *)
Definition draws (rt : Runtime) (n : node) : Prop :=
  isDirectoryNode n = true ->
  forall s o out, s <> "" ->
  exists r,
    printTree_at rt logger n (JString s) o out
    = (out ++ drawing rt (dflt false (Options.showHidden o)) (dflt [] (Options.exclude o))
                (dflt false (Options.showSize o)) (dflt (-1) (Options.maxDepth o))
                n s (dflt "" (Options.prefix o)) (dflt 0 (Options.currentDepth o)),
       Ret r).

(** Two listings of the same names and nodes, item by item. *)
Definition sameItems {R R'} (P : Entry R -> Entry R' -> Prop)
  (l : list (Entry R)) (l' : list (Entry R')) : Prop :=
  Forall2 (fun a b => name a = name b /\ target a = target b /\ P a b) l l'.

(** The walk of [n] only adds lines, returns, and logs no line above its own
    depth. *)
Definition walksBelow (rt : Runtime) (n : node) : Prop :=
  forall p o out, exists lines r,
    printTree_at rt logger n p o out = (out ++ lines, Ret r)
    /\ Forall (fun l => dflt 0 (Options.currentDepth o) <= level l) lines.

(** The directories that the statistics walk counts for one entry of a
    listing: none if the entry is hidden or named in [exclude], else, if
    [statSync] finds a directory, that directory and those counted below
    it. *)
Definition countedEntry (rt : Runtime)
  (countedDirectories : node -> string -> StatsOptions.t -> list string)
  (dirPath : string) (options : StatsOptions.t) (e : string * node) : list string :=
  let item := fst e in
  let fullPath := path_join rt dirPath item in
  if negb (StatsOptions.showHidden options) && startsWithDot item then []
  else if includes (StatsOptions.exclude options) item then []
  else
    match snd e with
    | Dir _ | DirNoRead _ =>
        fullPath :: countedDirectories (snd e) fullPath (StatsOptions.descend options)
    | File _ _ | NoStat _ => []
    end.

(** The paths of the directories that the statistics walk of [here] counts,
    in order, within the depth limit. *)
Fixpoint countedDirectories (rt : Runtime) (here : node) (dirPath : string)
  (options : StatsOptions.t) {struct here} : list string :=
  if (StatsOptions.maxDepth options >=? 0)
     && (StatsOptions.currentDepth options >? StatsOptions.maxDepth options)
  then [] else
  match here with
  | Dir entries =>
      flat_map (countedEntry rt (countedDirectories rt) dirPath options) entries
  | File _ _ | DirNoRead _ | NoStat _ => []
  end.

(** The sizes of a list of files, added up. *)
Definition sizeOf (files : list LargeFile.t) : Z :=
  fold_right (fun f acc => LargeFile.size f + acc) 0 files.

(** The counts, and the sizes, of the buckets of [fileTypes], added up. *)
Definition countOfTypes (fileTypes : list (string * TypeStats.t)) : Z :=
  fold_right (fun bucket acc => TypeStats.count (snd bucket) + acc) 0 fileTypes.

Definition sizeOfTypes (fileTypes : list (string * TypeStats.t)) : Z :=
  fold_right (fun bucket acc => TypeStats.size (snd bucket) + acc) 0 fileTypes.

(** The statistics walk of [n] returns, and has added to each counter what
    it met: the files, their sizes, the directories, and in the buckets of the
    file types as many files and bytes as in the totals; it keeps the keys of
    the buckets distinct and not empty. *)
Definition talliesWell (rt : Runtime) (n : node) : Prop :=
  forall dirPath options stats, exists stats',
    collectDirectoryStats rt n dirPath options stats = (stats', Ret tt)
    /\ DirectoryStats.totalFiles stats'
       = DirectoryStats.totalFiles stats
         + Z.of_nat (List.length (visitedFiles rt n dirPath options))
    /\ DirectoryStats.totalSize stats'
       = DirectoryStats.totalSize stats + sizeOf (visitedFiles rt n dirPath options)
    /\ DirectoryStats.totalDirectories stats'
       = DirectoryStats.totalDirectories stats
         + Z.of_nat (List.length (countedDirectories rt n dirPath options))
    /\ countOfTypes (DirectoryStats.fileTypes stats')
       = countOfTypes (DirectoryStats.fileTypes stats)
         + Z.of_nat (List.length (visitedFiles rt n dirPath options))
    /\ sizeOfTypes (DirectoryStats.fileTypes stats')
       = sizeOfTypes (DirectoryStats.fileTypes stats)
         + sizeOf (visitedFiles rt n dirPath options)
    /\ (NoDup (map fst (DirectoryStats.fileTypes stats)) ->
        NoDup (map fst (DirectoryStats.fileTypes stats')))
    /\ (Forall (fun bucket => fst bucket <> "") (DirectoryStats.fileTypes stats) ->
        Forall (fun bucket => fst bucket <> "") (DirectoryStats.fileTypes stats')).

(** The entries that the content walk counts for one entry of a listing: a
    hidden entry, an entry that a pattern matches, a file and an entry whose
    [statSync] throws are one each; a directory is the entries counted below
    it. *)
Definition metEntry (rt : Runtime)
  (metEntries : node -> CollectOptions.t -> Z)
  (options : CollectOptions.t) (e : string * node) : Z :=
  let item := fst e in
  if negb (CollectOptions.showHidden options) && startsWithDot item then 1
  else
    match excluded rt (CollectOptions.exclude options) item with
    | Ret false =>
        match snd e with
        | File _ _ | NoStat _ => 1
        | Dir _ | DirNoRead _ => metEntries (snd e) (CollectOptions.descend options)
        end
    | Ret true => 1
    | Throw _ => 0
    end.

(** The number of entries that the content walk of [here] counts, within the
    depth limit. *)
Fixpoint metEntries (rt : Runtime) (here : node) (options : CollectOptions.t)
  {struct here} : Z :=
  if (CollectOptions.maxDepth options >=? 0)
     && (CollectOptions.currentDepth options >? CollectOptions.maxDepth options)
  then 0 else
  match here with
  | Dir entries =>
      fold_right (fun e acc => metEntry rt (metEntries rt) options e + acc) 0 entries
  | File _ _ | DirNoRead _ | NoStat _ => 0
  end.

(** Whether the content of a reached file goes into the artifact: the file is
    read and the read succeeds. *)
Definition isRecorded (rt : Runtime) (options : CollectOptions.t) (r : Reached) : bool :=
  isRead rt options r
  && match fileOf r with File _ (Ret _) => true | _ => false end.

(** The content walk of [n], on a disk that takes every write and with
    patterns that the engine accepts, returns counts in which [processed] is
    the number of recorded files and each counted entry is once, in
    [processed] or in [skipped]. *)
Definition countsWell (rt : Runtime) (w : World) (n : node) : Prop :=
  forall dirPath outputPath options d,
    (forall item, exists b, excluded rt (CollectOptions.exclude options) item = Ret b) ->
    exists d' counts,
      collectFileContents rt w n dirPath outputPath options d = (d', Ret counts)
      /\ Counts.processed counts
         = Z.of_nat (List.length (filter (isRecorded rt options)
                                    (reachedFiles rt n dirPath options)))
      /\ Counts.processed counts + Counts.skipped counts = metEntries rt n options.

(** A later state of the disk that only adds to an earlier one: the console
    is the same, the output file holds what it held and then more, and so do
    the reads and the count of attempted writes. *)
Definition extends (d d' : Disk) : Prop :=
  console d' = console d
  /\ (exists pieces, artifact d' = artifact d ++ pieces)
  /\ (exists more, reads d' = reads d ++ more)
  /\ (attempts d <= attempts d')%nat.

(** A computation that only adds to the disk, whatever its outcome. *)
Definition framed {A} (m : M Disk A) : Prop :=
  forall d, extends d (fst (m d)).

(** The same for the body of a function with a local variable. *)
Definition framedL {L A} (m : M (Disk * L) A) : Prop :=
  forall s, extends (fst s) (fst (fst (m s))).

(* ================================================================= *)
(** ** The menu: choice 4, the export of file contents *)

(** [s.split(c)] for a separator of one character. *)
Fixpoint split (c : ascii) (s : string) : list string :=
  match s with
  | EmptyString => [EmptyString]
  | String a s' =>
      if Ascii.eqb a c then EmptyString :: split c s'
      else
        match split c s' with
        | piece :: pieces => String a piece :: pieces
        | [] => [String a EmptyString]
        end
  end.

(** [a || b] on strings. *)
Definition orElse (a b : string) : string :=
  if String.eqb a "" then b else a.

Section Menu.
(** [String.prototype.trim] *)
Variable trim : string -> string.

(** [e => e.trim().startsWith('.') ? e.trim() : `.${e.trim()}`] *)
Definition dotted (e : string) : string :=
  if startsWithDot (trim e) then trim e else "." +++ trim e.

(** [extensions ? extensions.split(',').map(...) : null] *)
Definition extArray (extensions : string) : option (list string) :=
  if String.eqb extensions "" then None
  else Some (map dotted (split "," extensions)).

(** The options object of the call in [case '4']. *)
Definition contentsOptions (extensions : string) : Options.t :=
  {| Options.prefix := None; Options.maxDepth := None;
     Options.exclude := Some ["node_modules"; ".git"; "dist"; "build"];
     Options.showHidden := None; Options.showSize := None;
     Options.currentDepth := None; Options.extensions := extArray extensions;
     Options.maxFileSize := None; Options.separator := None;
     Options.includeStats := None; Options.includeFileCount := None |}.

(** [case '4'] of [handleMenuChoice], with the two answers of the user. *)
Definition exportContentsChoice (rt : Runtime) (w : World)
  (repoPath outputPath extensions : string) : M Disk ExportResult.t :=
  exportFileContentsToFile rt w (JString repoPath)
    (orElse outputPath "./repo-contents.txt") (contentsOptions extensions).
End Menu.

(** The number of times [c] occurs in [s]. *)
Fixpoint occurrences (c : ascii) (s : string) : nat :=
  match s with
  | EmptyString => O
  | String a s' => if Ascii.eqb a c then S (occurrences c s') else occurrences c s'
  end.

(** A [trim] for the examples: blanks are taken off both ends. *)
Fixpoint trimStart (s : string) : string :=
  match s with
  | String " " s' => trimStart s'
  | _ => s
  end.

Fixpoint trimEnd (s : string) : string :=
  match s with
  | EmptyString => EmptyString
  | String c s' =>
      match trimEnd s' with
      | EmptyString => if Ascii.eqb c " " then EmptyString else String c EmptyString
      | rest => String c rest
      end
  end.

Definition trimBlanks (s : string) : string := trimEnd (trimStart s).

(* ================================================================= *)
(** ** cloneRepository.js *)

(** [s.includes(sub)] on strings. *)
Fixpoint includesString (sub s : string) : bool :=
  String.prefix sub s
  || match s with
     | EmptyString => false
     | String _ s' => includesString sub s'
     end.

Fixpoint dropChars (n : nat) (s : string) : string :=
  match n, s with
  | S n', String _ s' => dropChars n' s'
  | _, _ => s
  end.

(** [s.replace(pattern, by)] for a pattern that is a string: the first
    occurrence only. *)
Fixpoint replaceFirst (pattern by_ s : string) : string :=
  if String.prefix pattern s then by_ +++ dropChars (String.length pattern) s
  else
    match s with
    | EmptyString => EmptyString
    | String c s' => String c (replaceFirst pattern by_ s')
    end.

(** [Boolean] on a string. *)
Definition nonEmpty (s : string) : bool := negb (String.eqb s "").

Module Clone.

(** What a call does to the system and says on the console, oldest first. *)
Inductive Action :=
| Warn (text : string)
| Log (text : string)
| ErrorLog (text : string) (e : Error)
| Mkdir (path : string)
| Rm (path : string)
| Exec (command : string).

(** An action that changes no file and starts no process. *)
Definition isTalk (a : Action) : bool :=
  match a with
  | Warn _ | Log _ | ErrorLog _ _ => true
  | Mkdir _ | Rm _ | Exec _ => false
  end.

Record ExecResult := { code : Z; stderr : string }.

(** The system that the module runs on.  What [fs] and [shell] answer may
    depend on what was done before. *)
Record System := {
  trim : string -> string;
  (** [/^(https:\/\/|git@)[\w.-]+(:|\/)[\w./-]+(\.git)?$/.test(s)] *)
  gitUrlPattern_test : string -> bool;
  (** [new URL(s).pathname]; a string that is no URL throws a TypeError. *)
  URL_pathname : string -> outcome string;
  (** the group 1 of [s.match(/git@.*:(.+?)(?:\.git)?$/)], if it matches *)
  sshPath : string -> option string;
  path_resolve : string -> string;
  path_join : string -> string -> string;
  (** [shell.which(command)] finds the command *)
  shell_which : string -> bool;
  fs_existsSync : list Action -> string -> bool;
  (** the error, if any, that [fs.mkdirSync] raises *)
  fs_mkdirSync : list Action -> string -> option Error;
  (** the error, if any, that [shell.rm("-rf", path)] raises *)
  shell_rm : list Action -> string -> option Error;
  shell_exec : list Action -> string -> outcome ExecResult
}.

(** The [error] of a failed result: the text of [stderr], or what was
    caught. *)
Inductive Failure :=
| Stderr (text : string)
| Caught (e : Error).

Module Result.
Record t := {
  success : bool;
  message : string;
  targetPath : option string;
  error : option Failure
}.

Definition rejected (msg : string) : t :=
  {| success := false; message := msg; targetPath := None; error := None |}.
End Result.

Definition act (a : Action) : M (list Action) unit :=
  modify (fun done => done ++ [a]).

Definition knownGitHosts : list string := ["github.com"; "gitlab.com"; "bitbucket.org"].

Section Functions.
Variable sys : System.

Definition isLikelyValidGitRepoURL (repoURL : jsvalue) : M (list Action) bool :=
  if negb (truthy repoURL) || negb (is_string repoURL) then
    act (Warn "Invalid input: repoURL must be a non-empty string.") ;;
    ret false
  else
    let repoURL := trim sys (string_of repoURL) in
    let matchesPattern := gitUrlPattern_test sys repoURL in
    let includesKnownHost :=
      existsb (fun host => includesString host repoURL) knownGitHosts in
    if negb matchesPattern && negb includesKnownHost then
      act (Warn "Warning: URL might not be a valid Git repository URL.") ;;
      ret false
    else ret true.

(** [parts[parts.length - 1].replace(".git", "")]: on an empty array the
    element is [undefined] and the call throws a TypeError. *)
Definition lastWithoutGit (parts : list string) : outcome string :=
  match rev parts with
  | [] => Throw (MkError "Cannot read properties of undefined (reading 'replace')")
  | part :: _ => Ret (replaceFirst ".git" "" part)
  end.

(** The result is the repository name, or [None] for [null]. *)
Definition extractRepoName (repoURL : string) : M (list Action) (option string) :=
  try_catch
    (if String.prefix "https://" repoURL then
       pathname <- lift (URL_pathname sys repoURL) ;;
       let pathParts := filter nonEmpty (split "/" pathname) in
       repoName <- lift (lastWithoutGit pathParts) ;;
       ret (Some repoName)
     else
       match (if String.prefix "git@" repoURL then sshPath sys repoURL else None) with
       | Some group =>
           if nonEmpty group then
             repoName <- lift (lastWithoutGit (split "/" group)) ;;
             ret (Some repoName)
           else
             repoName <- lift (lastWithoutGit (split "/" repoURL)) ;;
             ret (Some repoName)
       | None =>
           repoName <- lift (lastWithoutGit (split "/" repoURL)) ;;
           ret (Some repoName)
       end)
    (fun error =>
       act (ErrorLog "Failed to extract repository name:" error) ;;
       ret None).

Definition existsSync (path : string) : M (list Action) bool :=
  fun done => (done, Ret (fs_existsSync sys done path)).

Definition mkdirSync (path : string) : M (list Action) unit :=
  fun done =>
    (done ++ [Mkdir path],
     match fs_mkdirSync sys done path with
     | Some e => Throw e
     | None => Ret tt
     end).

Definition rm (path : string) : M (list Action) unit :=
  fun done =>
    (done ++ [Rm path],
     match shell_rm sys done path with
     | Some e => Throw e
     | None => Ret tt
     end).

Definition exec (command : string) : M (list Action) ExecResult :=
  fun done => (done ++ [Exec command], shell_exec sys done command).

Definition CloneRepository (repoURL : jsvalue) : M (list Action) Result.t :=
  try_catch
    (if negb (truthy repoURL) || negb (is_string repoURL)
     then ret (Result.rejected "Invalid repository URL") else
     isValidLink <- isLikelyValidGitRepoURL repoURL ;;
     if negb isValidLink
     then ret (Result.rejected "URL might not be a valid Git repository URL.") else
     if negb (shell_which sys "git")
     then ret (Result.rejected "Git is not installed on this system") else
     let repoURL := string_of repoURL in
     repoName <- extractRepoName repoURL ;;
     if negb (nonEmpty (dflt "" repoName))
     then ret (Result.rejected "Could not extract repository name from URL") else
     let repoName := dflt "" repoName in
     let repositoryFolder := path_resolve sys "Repository" in
     folderExists <- existsSync repositoryFolder ;;
     (if negb folderExists then
        mkdirSync repositoryFolder ;;
        act (Log ("Created main Repository folder at " +++ repositoryFolder))
      else ret tt) ;;
     let targetPath := path_join sys repositoryFolder repoName in
     targetExists <- existsSync targetPath ;;
     (if (targetExists : bool) then
        act (Log ("Repository folder " +++ targetPath +++ " already exists. Deleting...")) ;;
        rm targetPath
      else ret tt) ;;
     let cloneCommand := "git clone " +++ repoURL +++ " " +++ targetPath in
     act (Log ("Cloning repository from " +++ repoURL +++ "...")) ;;
     result <- exec cloneCommand ;;
     if negb (code result =? 0) then
       ret {| Result.success := false;
              Result.message := "Failed to clone repository: " +++ stderr result;
              Result.targetPath := None;
              Result.error := Some (Stderr (stderr result)) |}
     else
       ret {| Result.success := true;
              Result.message := "Repository cloned successfully to " +++ targetPath;
              Result.targetPath := Some targetPath;
              Result.error := None |})
    (fun error =>
       ret {| Result.success := false;
              Result.message := "An error occurred: " +++ message error;
              Result.targetPath := None;
              Result.error := Some (Caught error) |}).
End Functions.
End Clone.

(** The test of [isLikelyValidGitRepoURL] on a string: the pattern matches
    the trimmed URL, or the trimmed URL includes a known host. *)
Definition looksValid (sys : Clone.System) (repoURL : string) : bool :=
  Clone.gitUrlPattern_test sys (Clone.trim sys repoURL)
  || existsb (fun host => includesString host (Clone.trim sys repoURL))
       Clone.knownGitHosts.

(** What CloneRepository does when it clones [repoURL] under the name
    [repoName]: it talks, creates the [Repository] folder, removes the target,
    and runs [git clone] into the target, where the target is
    [path.join] of the folder and the name. *)
Definition actsOn (sys : Clone.System) (repoURL repoName : string) (a : Clone.Action)
  : Prop :=
  let targetPath :=
    Clone.path_join sys (Clone.path_resolve sys "Repository") repoName in
  Clone.isTalk a = true
  \/ a = Clone.Mkdir (Clone.path_resolve sys "Repository")
  \/ a = Clone.Rm targetPath
  \/ a = Clone.Exec ("git clone " +++ repoURL +++ " " +++ targetPath).

Definition isExec (a : Clone.Action) : bool :=
  match a with Clone.Exec _ => true | _ => false end.

(** No action follows an [Exec]. *)
Fixpoint execIsLast (did : list Clone.Action) : bool :=
  match did with
  | [] => true
  | a :: rest =>
      (negb (isExec a) || match rest with [] => true | _ :: _ => false end)
      && execIsLast rest
  end.

(** A system to run the examples on. *)
Module CloneExample.

(** [\w] *)
Definition isWord (c : ascii) : bool :=
  let n := nat_of_ascii c in
  ((48 <=? n) && (n <=? 57) || (65 <=? n) && (n <=? 90)
   || (97 <=? n) && (n <=? 122) || (n =? 95))%nat.

(** [[\w.-]] and [[\w./-]] *)
Definition inHost (c : ascii) : bool := isWord c || Ascii.eqb c "." || Ascii.eqb c "-".

Definition inPath (c : ascii) : bool := inHost c || Ascii.eqb c "/".

Fixpoint allInPath (s : string) : bool :=
  match s with
  | EmptyString => true
  | String c s' => inPath c && allInPath s'
  end.

(** [[\w.-]+(:|\/)[\w./-]+(\.git)?$]: the first character that is not of the
    host is the separator, and the optional [.git] is of the path already. *)
Fixpoint hostThenPath (seen : bool) (s : string) : bool :=
  match s with
  | EmptyString => false
  | String c s' =>
      if inHost c then hostThenPath true s'
      else seen && (Ascii.eqb c ":" || Ascii.eqb c "/") && nonEmpty s' && allInPath s'
  end.

Definition gitUrlPattern_test (s : string) : bool :=
  if String.prefix "https://" s then hostThenPath false (dropChars 8 s)
  else if String.prefix "git@" s then hostThenPath false (dropChars 4 s)
  else false.

(** From the first occurrence of [c] on. *)
Fixpoint fromFirst (c : ascii) (s : string) : string :=
  match s with
  | EmptyString => EmptyString
  | String a s' => if Ascii.eqb a c then s else fromFirst c s'
  end.

(** The path of an [https] URL that has no query, no fragment and no dot
    segment; any other string is no URL. *)
Definition pathname (s : string) : outcome string :=
  if String.prefix "https://" s then
    match fromFirst "/" (dropChars 8 s) with
    | EmptyString => Ret "/"
    | path => Ret path
    end
  else Throw (MkError "Invalid URL").

(** What follows the one colon of [git@host:path], without a [.git] at its
    end. *)
Fixpoint withoutGitSuffix (s : string) : string :=
  match s with
  | EmptyString => EmptyString
  | String c s' =>
      if String.eqb s' ".git" then String c EmptyString
      else String c (withoutGitSuffix s')
  end.

Definition sshPath (s : string) : option string :=
  match fromFirst ":" s with
  | String _ (String c rest) => Some (withoutGitSuffix (String c rest))
  | _ => None
  end.

(** Git is installed or not, [present] paths exist, folders that were
    created exist, and every command ends with [exitCode]. *)
Definition system (installed : bool) (present : string -> bool) (exitCode : Z)
  : Clone.System :=
  {| Clone.trim := trimBlanks;
     Clone.gitUrlPattern_test := gitUrlPattern_test;
     Clone.URL_pathname := pathname;
     Clone.sshPath := sshPath;
     Clone.path_resolve := fun p => "/work/" +++ p;
     Clone.path_join := fun a b => a +++ "/" +++ b;
     Clone.shell_which := fun _ => installed;
     Clone.fs_existsSync := fun done p =>
       present p
       || existsb (fun a => match a with
                            | Clone.Mkdir q => String.eqb p q
                            | _ => false
                            end) done;
     Clone.fs_mkdirSync := fun _ _ => None;
     Clone.shell_rm := fun _ _ => None;
     Clone.shell_exec := fun _ _ => Ret {| Clone.code := exitCode; Clone.stderr := "" |} |}.
End CloneExample.

(* ================================================================= *)
(** * Properties *)

(** ** The recursive functions, unfolded once *)

Lemma printTree_at_eq (rt : Runtime) (log : Logger) (here : node) :
  printTree_at rt log here = printTree_body rt log (printTree_at rt log) here.
Proof. destruct here; reflexivity. Qed.

Lemma collectFileContents_eq (rt : Runtime) (w : World) (here : node) :
  collectFileContents rt w here
  = collectFileContents_body rt w (collectFileContents rt w) here.
Proof. destruct here; reflexivity. Qed.

Lemma collectDirectoryStats_eq (rt : Runtime) (here : node) :
  collectDirectoryStats rt here
  = collectDirectoryStats_body rt (collectDirectoryStats rt) here.
Proof. destruct here; reflexivity. Qed.

(** ** Exceptions never leave a [try] whose handler returns *)

Lemma try_catch_returns {S A} (m : M S A) (h : Error -> M S A) :
  (forall e, returns (h e)) -> returns (try_catch m h).
Proof.
  intros Hh s. unfold try_catch.
  destruct (m s) as [s' [a | e]]; [eauto | apply Hh].
Qed.

Lemma bind_returns {S A B} (m : M S A) (k : A -> M S B) :
  returns m -> (forall a, returns (k a)) -> returns (bind m k).
Proof.
  intros Hm Hk s. unfold bind.
  destruct (Hm s) as (s' & a & ->). apply Hk.
Qed.

Lemma ret_returns {S A} (a : A) : returns (@ret S A a).
Proof. intros s. unfold ret. eauto. Qed.

Lemma modify_returns {S} (f : S -> S) : returns (modify f).
Proof. intros s. unfold modify. eauto. Qed.

Lemma logger_returns (d : Z) (st : Style) (txt : string) : returns (logger d st txt).
Proof. apply modify_returns. Qed.

Lemma console_log_returns (st : Style) (txt : string) : returns (console_log st txt).
Proof. apply modify_returns. Qed.

(** printTree returns whenever its logger does: what the [try] throws
    reaches the [catch], which calls the logger and returns the result. *)
Lemma printTree_at_returns_with (rt : Runtime) (log : Logger) (here : node)
  (p : jsvalue) (o : Options.t) :
  (forall d st txt, returns (log d st txt)) ->
  returns (printTree_at rt log here p o).
Proof.
  intros Hlog. rewrite printTree_at_eq. unfold printTree_body.
  apply try_catch_returns. intros e.
  apply bind_returns; [apply Hlog | intros _; apply ret_returns].
Qed.

Lemma printTree_at_returns (rt : Runtime) (here : node) (p : jsvalue) (o : Options.t) :
  returns (printTree_at rt logger here p o).
Proof. apply printTree_at_returns_with, logger_returns. Qed.

Lemma printTree_returns (rt : Runtime) (w : World) (p : jsvalue) (o : Options.t) :
  returns (printTree rt logger w p o).
Proof. apply printTree_at_returns. Qed.

Lemma exportTreeToFile_returns rt w p out o : returns (exportTreeToFile rt w p out o).
Proof.
  apply try_catch_returns. intros e.
  apply bind_returns; [apply console_log_returns | intros _; apply ret_returns].
Qed.

Lemma exportFileContentsToFile_returns rt w p out o :
  returns (exportFileContentsToFile rt w p out o).
Proof.
  apply try_catch_returns. intros e.
  apply bind_returns; [apply console_log_returns | intros _; apply ret_returns].
Qed.

Lemma generateDirectorySummary_returns rt w p out o :
  returns (generateDirectorySummary rt w p out o).
Proof.
  apply try_catch_returns. intros e.
  apply bind_returns; [apply console_log_returns | intros _; apply ret_returns].
Qed.

(** C4, counterexample.  printTree calls the logger of its caller inside
    its [catch] block.  With a logger that throws, the call on a path that is
    not a string ends in the exception of the logger, and so does the call on
    a directory with the default options, whose first line is logged inside
    the [try]. *)
Lemma printTree_throws_what_its_logger_throws :
  (forall (rt : Runtime) (w : World) (options : Options.t) (e : Error) (out : list Line),
      printTree rt (fun _ _ _ => throw e) w JUndefined options out = (out, Throw e))
  /\ (forall e : Error,
        printTree Example.runtime (fun _ _ _ => throw e)
          (Example.holding Example.scenario) (JString "/root") Options.empty []
        = ([], Throw e)).
Proof.
  split; [intros rt w options e out | intros e; reflexivity].
  unfold printTree. rewrite printTree_at_eq. reflexivity.
Qed.

(** C4, as amended.  Whatever the path value, the options object and the
    file system: printTree ends by returning its result object (a record with
    a [success] flag) whenever the logger of the options returns from every
    call, as the default [console.log] does; exportTreeToFile,
    exportFileContentsToFile and generateDirectorySummary, which put a logger
    of their own in the place of the caller's, always end by returning their
    result object.  None of these calls ends in an exception. *)
Theorem public_operations_always_return (rt : Runtime) (w : World) (log : Logger)
  (directoryPath : jsvalue) (outputPath : string) (options : Options.t) :
  ((forall d st txt, returns (log d st txt)) ->
   forall out, exists out' (r : WalkResult.t),
      printTree rt log w directoryPath options out = (out', Ret r))
  /\ (forall d, exists d' (r : ExportResult.t),
      exportTreeToFile rt w directoryPath outputPath options d = (d', Ret r))
  /\ (forall d, exists d' (r : ExportResult.t),
      exportFileContentsToFile rt w directoryPath outputPath options d = (d', Ret r))
  /\ (forall d, exists d' (r : SummaryResult.t),
      generateDirectorySummary rt w directoryPath outputPath options d = (d', Ret r)).
Proof.
  repeat split.
  - intros Hlog. now apply printTree_at_returns_with.
  - apply exportTreeToFile_returns.
  - apply exportFileContentsToFile_returns.
  - apply generateDirectorySummary_returns.
Qed.

(** C4, witness: the default logger, on the scenario tree. *)
Lemma public_operations_always_return_witness :
  (forall d st txt, returns (logger d st txt))
  /\ exists out' (r : WalkResult.t),
       printTree Example.runtime logger (Example.holding Example.scenario)
         (JString "/root") Options.empty [] = (out', Ret r).
Proof.
  split; [exact logger_returns |].
  exact (proj1 (public_operations_always_return Example.runtime
                  (Example.holding Example.scenario) logger (JString "/root")
                  "/out.txt" Options.empty)
           logger_returns []).
Defined.

(** ** Running a computation step by step *)

Lemma bind_ret {S A B} (m : M S A) (k : A -> M S B) s s' a :
  m s = (s', Ret a) -> bind m k s = k a s'.
Proof. intros E. unfold bind. now rewrite E. Qed.

Lemma bind_throw {S A B} (m : M S A) (k : A -> M S B) s s' e :
  m s = (s', Throw e) -> bind m k s = (s', Throw e).
Proof. intros E. unfold bind. now rewrite E. Qed.

Lemma try_catch_ret {S A} (m : M S A) (h : Error -> M S A) s s' a :
  m s = (s', Ret a) -> try_catch m h s = (s', Ret a).
Proof. intros E. unfold try_catch. now rewrite E. Qed.

Lemma try_catch_throw {S A} (m : M S A) (h : Error -> M S A) s s' e :
  m s = (s', Throw e) -> try_catch m h s = h e s'.
Proof. intros E. unfold try_catch. now rewrite E. Qed.

Lemma collecting_returns {S A} (m : M (list Line) A) :
  returns m ->
  forall s : S, exists output a, collecting m s = (s, Ret (output, a)).
Proof.
  intros Hm s. unfold collecting. destruct (Hm []) as (out & a & ->). eauto.
Qed.

Lemma on_object_returns {S T A} (obj : T) (m : M T A) :
  returns m ->
  forall s : S, exists obj', on_object obj m s = (s, Ret obj').
Proof.
  intros Hm s. unfold on_object. destruct (Hm obj) as (obj' & a & ->). eauto.
Qed.

Lemma collectDirectoryStats_returns rt here dirPath options :
  returns (collectDirectoryStats rt here dirPath options).
Proof.
  rewrite collectDirectoryStats_eq. unfold collectDirectoryStats_body.
  destruct (_ && _); [apply ret_returns |].
  apply try_catch_returns. intros _. apply ret_returns.
Qed.

(** ** generateDirectorySummary: when it fails *)

(** C3, counterexample.  Nothing exists at [/missing], the output can be
    written, and generateDirectorySummary returns [success = true]: the result
    of TreeRenderer's root check is dropped. *)
Lemma summary_of_missing_root_succeeds :
  existsSync (at_path (Example.holding Example.scenario)
                (path_resolve Example.runtime "/missing")) = false
  /\ exists d r,
       generateDirectorySummary Example.runtime (Example.holding Example.scenario)
         (JString "/missing") "/summary.txt" Options.empty blank = (d, Ret r)
       /\ SummaryResult.success r = true.
Proof.
  split; [reflexivity |].
  eexists; eexists; split; [vm_compute; reflexivity | reflexivity].
Qed.

(** C3, as amended.  generateDirectorySummary returns [success = false]
    exactly when the path argument is not a string ([path.resolve] raises) or
    the write of the output artifact fails.  For a path string that is empty,
    missing or not a directory it writes the report and returns
    [success = true]. *)
Theorem generateDirectorySummary_fails_iff (rt : Runtime) (w : World)
  (directoryPath : jsvalue) (outputPath : string) (options : Options.t) (d : Disk) :
  exists d' r,
    generateDirectorySummary rt w directoryPath outputPath options d = (d', Ret r)
    /\ (SummaryResult.success r = false
        <-> is_string directoryPath = false \/ write_error w (attempts d) <> None).
Proof.
  unfold generateDirectorySummary.
  match goal with |- context [try_catch ?m ?h] => set (body := m); set (handler := h) end.
  assert (Hh : forall e s, exists s',
             handler e s = (s', Ret {| SummaryResult.success := false;
               SummaryResult.filePath := None; SummaryResult.stats := None;
               SummaryResult.error := Some e;
               SummaryResult.message :=
                 Some ("Failed to generate directory summary: " +++ message e) |})).
  { intros e s. unfold handler, bind, console_log, modify, ret. eauto. }
  destruct (is_string directoryPath) eqn:Hs.
  - destruct directoryPath; try discriminate.
    destruct (write_error w (attempts d)) as [e |] eqn:Hw.
    + (* the write fails *)
      assert (Hb : body d = ({| artifact := artifact d; attempts := S (attempts d);
                                reads := reads d; console := console d |}, Throw e)).
      { unfold body.
        erewrite bind_ret by reflexivity.
        match goal with |- context [collecting ?m] =>
          destruct (collecting_returns (S := Disk) m (printTree_returns _ _ _ _) d)
            as (output & a & Hc) end.
        erewrite bind_ret by exact Hc.
        destruct (_ || _).
        * match goal with |- context [on_object ?o ?m] =>
            destruct (on_object_returns (S := Disk) o m
                        (collectDirectoryStats_returns _ _ _ _) d) as (st & Ho) end.
          erewrite bind_ret.
          2:{ erewrite bind_ret by exact Ho. reflexivity. }
          erewrite bind_throw; [reflexivity |].
          unfold writeFileSync, write. now rewrite Hw.
        * erewrite bind_ret by reflexivity.
          erewrite bind_throw; [reflexivity |].
          unfold writeFileSync, write. now rewrite Hw. }
      destruct (Hh e {| artifact := artifact d; attempts := S (attempts d);
                        reads := reads d; console := console d |}) as (s' & Hs').
      eexists; eexists; split.
      * erewrite try_catch_throw by exact Hb. exact Hs'.
      * simpl. split; [right; discriminate | reflexivity].
    + (* the write succeeds *)
      assert (Hb : exists d' r, body d = (d', Ret r) /\ SummaryResult.success r = true).
      { unfold body.
        erewrite bind_ret by reflexivity.
        match goal with |- context [collecting ?m] =>
          destruct (collecting_returns (S := Disk) m (printTree_returns _ _ _ _) d)
            as (output & a & Hc) end.
        erewrite bind_ret by exact Hc.
        destruct (_ || _).
        * match goal with |- context [on_object ?o ?m] =>
            destruct (on_object_returns (S := Disk) o m
                        (collectDirectoryStats_returns _ _ _ _) d) as (st & Ho) end.
          erewrite bind_ret.
          2:{ erewrite bind_ret by exact Ho. reflexivity. }
          erewrite bind_ret.
          2:{ unfold writeFileSync, write. rewrite Hw. reflexivity. }
          erewrite bind_ret by reflexivity.
          eexists; eexists; split; reflexivity.
        * erewrite bind_ret by reflexivity.
          erewrite bind_ret.
          2:{ unfold writeFileSync, write. rewrite Hw. reflexivity. }
          erewrite bind_ret by reflexivity.
          eexists; eexists; split; reflexivity. }
      destruct Hb as (d' & r & Hb & Hr).
      exists d', r. split.
      * erewrite try_catch_ret by exact Hb. reflexivity.
      * rewrite Hr. split; [discriminate | intros [H | H]; [discriminate | congruence]].
  - assert (Hb : exists e, body d = (d, Throw e)).
    { unfold body. destruct directoryPath; try discriminate;
        (eexists; erewrite bind_throw by reflexivity; reflexivity). }
    destruct Hb as (e & Hb). destruct (Hh e d) as (s' & Hs').
    eexists; eexists; split.
    + erewrite try_catch_throw by exact Hb. exact Hs'.
    + simpl. split; [left; reflexivity | reflexivity].
Qed.

(** ** The order of the entries *)

(** C6, the code on the failing input.  [readdirSync] lists [a], whose
    [statSync] throws, then the directory [d].  The comparator answers 0 for
    the pair, whichever of the two it is asked about first, so the sort
    leaves [a] before [d], and the tree shows them in that order: the entry
    whose classification failed is not put after the directory.  The same
    holds for any two names in the place of [a] and [d]. *)
Theorem unclassified_entry_stays_before_directory :
  (forall (rt : Runtime) (R : Type) (a d : string) (va vd : R) (e : Error)
          (entries : list (string * node)),
      let unclassified := {| name := a; target := NoStat e; visit := va |} in
      let directory := {| name := d; target := Dir entries; visit := vd |} in
      compareItems rt unclassified directory = 0
      /\ compareItems rt directory unclassified = 0
      /\ map name (js_sort (compareItems rt) [unclassified; directory]) = [a; d])
  /\ map text
       (fst (printTree Example.runtime logger (Example.holding Example.raced)
               (JString "/root") Options.empty []))
     = ["root/"; "├── a [Error: ENOENT: no such file or directory]";
        "└── d/"; "    └── [empty]"].
Proof.
  split; [intros; repeat split | vm_compute; reflexivity].
Qed.

(** ** minimatch *)

(** C7, the code on the failing input.  Only [.] is escaped, so the pattern
    [*(] reaches the engine as [^.*($]; whatever the engine answers is the
    answer of minimatch, and an engine that rejects the open group makes
    minimatch raise.  In collectFileContents the exception ends the listing of
    the directory: nothing of it is exported. *)
Theorem minimatch_hands_metacharacters_to_the_engine :
  (forall (rt : Runtime) (str : string),
      minimatch rt str "*(" = RegExp_test rt "^.*($" str)
  /\ minimatch Example.runtime "a.txt" "*("
     = Throw (MkError "Invalid regular expression: /^.*($/")
  /\ regexSource "a+*" = "^a+.*$"
  /\ option_map Counts.processed
       (match
          snd (exportFileContentsToFile Example.runtime
                 (Example.holding Example.scenario) (JString "/root") "/out.txt"
                 (Example.excluding ["*("]) blank)
        with
        | Ret r => ExportResult.fileCount r
        | Throw _ => None
        end)
     = Some 0.
Proof.
  split; [intros; reflexivity | repeat split; vm_compute; reflexivity].
Qed.

(** ** The filter of the tree *)

Lemma includes_In (l : list string) (x : string) : includes l x = true <-> In x l.
Proof.
  unfold includes. rewrite existsb_exists. split.
  - intros (y & Hy & E). apply String.eqb_eq in E. now subst.
  - intros H. exists x. split; [exact H | apply String.eqb_refl].
Qed.

Lemma shown_iff (showHidden : bool) (exclude : list string) (item : string) :
  shown showHidden exclude item = true <-> keptByName showHidden exclude item.
Proof.
  unfold shown, keptByName. rewrite <- includes_In.
  destruct showHidden, (startsWithDot item), (includes exclude item); simpl;
    intuition congruence.
Qed.

Lemma filter_map_filter {A B} (f : B -> bool) (g : A -> B) (l : list A) :
  filter f (map g (filter (fun a => f (g a)) l)) = filter f (map g l).
Proof.
  induction l as [| a l IH]; simpl; [reflexivity |].
  destruct (f (g a)) eqn:E; simpl; rewrite ?E, IH; reflexivity.
Qed.

(** ** Induction on the file system tree *)

Lemma node_induction (P : node -> Prop) :
  (forall sz c, P (File sz c)) ->
  (forall entries, Forall (fun e => P (snd e)) entries -> P (Dir entries)) ->
  (forall e, P (DirNoRead e)) ->
  (forall e, P (NoStat e)) ->
  forall n, P n.
Proof.
  intros HF HD HR HN. fix IH 1. intros [sz c | entries | e | e].
  - apply HF.
  - apply HD. induction entries as [| [nm child] rest IHrest]; constructor.
    + apply IH.
    + exact IHrest.
  - apply HR.
  - apply HN.
Qed.

(** ** The sort keeps the elements *)

Lemma insert_In {A} (cmp : A -> A -> Z) (x y : A) (l : list A) :
  In y (insert cmp x l) <-> y = x \/ In y l.
Proof.
  induction l as [| z l IH]; simpl.
  - intuition.
  - destruct (cmp x z <=? 0); simpl; [intuition | rewrite IH; intuition].
Qed.

Lemma js_sort_In {A} (cmp : A -> A -> Z) (y : A) (l : list A) :
  In y (js_sort cmp l) <-> In y l.
Proof.
  induction l as [| x l IH]; simpl; [reflexivity |].
  rewrite insert_In, IH. intuition.
Qed.

Lemma insert_length {A} (cmp : A -> A -> Z) (x : A) (l : list A) :
  List.length (insert cmp x l) = S (List.length l).
Proof.
  induction l as [| z l IH]; simpl; [reflexivity |].
  destruct (cmp x z <=? 0); simpl; [reflexivity | now rewrite IH].
Qed.

Lemma js_sort_length {A} (cmp : A -> A -> Z) (l : list A) :
  List.length (js_sort cmp l) = List.length l.
Proof.
  induction l as [| x l IH]; simpl; [reflexivity |].
  now rewrite insert_length, IH.
Qed.

(** ** The order when every entry can be classified *)

Section SortTotal.
Context {A : Type} (cmp : A -> A -> Z) (P : A -> Prop).
Hypothesis cmp_total : forall a b, P a -> P b -> cmp a b <= 0 \/ cmp b a <= 0.

Let ordered (a b : A) : Prop := cmp a b <= 0.

Lemma insert_sorted_total (x : A) (s : list A) :
  P x -> Forall P s -> Sorted ordered s -> Sorted ordered (insert cmp x s).
Proof.
  intros Hx Hs Hsorted. induction Hsorted as [| y s Hsorted IH Hhd]; cbn [insert].
  - repeat constructor.
  - inversion Hs as [| ? ? Hy Hs']; subst.
    destruct (cmp x y <=? 0) eqn:E.
    + constructor; [now constructor |]. constructor. apply Z.leb_le, E.
    + assert (Hyx : ordered y x).
      { destruct (cmp_total x y Hx Hy) as [H | H]; [| exact H].
        apply Z.leb_le in H. congruence. }
      constructor; [now apply IH |].
      destruct s as [| z s]; cbn [insert]; [now constructor |].
      destruct (cmp x z <=? 0); constructor; [exact Hyx | now inversion Hhd].
Qed.

Lemma js_sort_sorted_total (l : list A) :
  Forall P l -> Sorted ordered (js_sort cmp l).
Proof.
  induction 1 as [| x l Hx Hl IH]; [constructor |].
  cbn [js_sort fold_right]. fold (js_sort cmp l).
  apply insert_sorted_total; [exact Hx | | exact IH].
  apply Forall_forall. intros y Hy. apply js_sort_In in Hy.
  rewrite Forall_forall in Hl. now apply Hl.
Qed.
End SortTotal.

(** When [statSync] succeeds on every entry and [localeCompare] compares any
    two names one way or the other, the sorted listing is in the order of the
    comparator, and it is a run of directories followed by a run of files. *)
Lemma directories_first_when_classified (rt : Runtime) {R : Type}
  (items : list (Entry R)) :
  (forall a b, localeCompare rt a b <= 0 \/ localeCompare rt b a <= 0) ->
  Forall (fun it => existsSync (target it) = true) items ->
  let sorted := js_sort (compareItems rt) items in
  Sorted (fun a b => compareItems rt a b <= 0) sorted
  /\ exists dirs files,
       sorted = dirs ++ files
       /\ Forall (fun it => isDirectoryNode (target it) = true) dirs
       /\ Forall (fun it => isDirectoryNode (target it) = false) files.
Proof.
  intros Htotal Hstat sorted.
  assert (Hsorted : Sorted (fun a b => compareItems rt a b <= 0) sorted).
  { apply js_sort_sorted_total with (P := fun it => existsSync (target it) = true);
      [| exact Hstat].
    intros a b. unfold compareItems.
    destruct (target a), (target b); intros Ha Hb; try discriminate;
      cbn [statSync isDirectory andb negb]; try lia; apply Htotal. }
  split; [exact Hsorted |].
  assert (Hall : Forall (fun it => existsSync (target it) = true) sorted).
  { apply Forall_forall. intros it Hit. apply js_sort_In in Hit.
    rewrite Forall_forall in Hstat. now apply Hstat. }
  clearbody sorted. clear Hstat.
  induction Hsorted as [| a l Hl IH Hhd].
  - exists [], []. repeat split; constructor.
  - inversion Hall as [| ? ? Hexa Hall']; subst.
    destruct (IH Hall') as (dirs & files & -> & Hd & Hf).
    destruct (isDirectoryNode (target a)) eqn:Ha.
    + exists (a :: dirs), files. repeat split; [now constructor | exact Hf].
    + exists [], (a :: dirs ++ files). repeat split; [constructor |].
      constructor; [exact Ha |].
      destruct dirs as [| b dirs]; [exact Hf |]. exfalso.
      inversion Hhd as [| ? ? Hab]; subst. inversion Hd as [| ? ? Hb _]; subst.
      unfold compareItems in Hab. revert Ha Hexa Hb Hab.
      destruct (target a), (target b); intros Ha Hexa Hb; try discriminate;
        cbn [statSync isDirectory andb negb]; lia.
Qed.

(** ** The lines of a tree *)

(** Closes the three facts about a turn that logged one line, the line of
    its entry. *)
Ltac single_line :=
  split; [reflexivity |]; split;
  [ eexists; split; [left; reflexivity |]; split; [reflexivity |];
    cbn [text]; eauto
  | intros _ ? _ _; constructor; [cbn [level]; lia | constructor] ].

(** Closes the bound on the levels of lines that were logged at the depth of
    the call itself. *)
Ltac own_level := intros _ ? _ _; repeat constructor; cbn [level]; lia.

Section TreeLines.
Variable rt : Runtime.

Lemma truthy_string (s : string) : s <> "" -> truthy (JString s) = true.
Proof.
  intros H. simpl. destruct (String.eqb s "") eqn:E; [| reflexivity].
  apply String.eqb_eq in E. contradiction.
Qed.

Lemma statSync_isDirectory (n : node) (stats : Stats) :
  statSync n = Ret stats -> isDirectory stats = true -> isDirectoryNode n = true.
Proof.
  destruct n; cbn [statSync]; intros [= <-]; cbn [isDirectory]; intros H;
    try discriminate; reflexivity.
Qed.

(** A call below the depth limit on a directory returns at once: it logs
    nothing and does not list the directory. *)
Lemma printTree_at_beyond_depth (here : node) (s : string) (o : Options.t)
  (out : list Line) (k : Z) :
  isDirectoryNode here = true -> s <> "" ->
  Options.maxDepth o = Some k -> 0 <= k -> k < dflt 0 (Options.currentDepth o) ->
  printTree_at rt logger here (JString s) o out
  = (out, Ret {| WalkResult.success := true; WalkResult.error := None |}).
Proof.
  intros Hd Hs Hk Hk0 Hlt.
  rewrite printTree_at_eq. unfold printTree_body.
  rewrite Hk. cbn [dflt].
  unfold try_catch, bind, lift, ret, throw.
  rewrite (truthy_string s Hs). cbn [negb is_string orb].
  assert (E : (k >=? 0) && (dflt 0 (Options.currentDepth o) >? k) = true).
  { apply andb_true_iff. split; [apply Z.geb_le | apply Z.gtb_lt]; lia. }
  destruct here; try discriminate; cbn [existsSync negb statSync isDirectory];
    rewrite E; reflexivity.
Qed.

Section Items.
Variables (options : Options.t) (resolvedPath prefix : string)
          (showSize : bool) (d : Z).

(** One turn of the loop logs the line of its entry, then what the call on
    the entry logs. *)
Lemma printItem_lines (it : Entry Walk) (isLast : bool) (resultError : option Error)
  (out : list Line) :
  visit it = printTree_at rt logger (target it) -> walksWell rt (target it) ->
  exists lines resultError',
    printItem rt logger options resolvedPath prefix showSize d it isLast resultError out
    = (out ++ lines, Ret resultError')
    /\ (exists l, In l lines /\ lineOf prefix d (name it) l)
    /\ ((forall a b, path_join rt a b <> "") ->
        forall k, Options.maxDepth options = Some k -> 0 <= k ->
        levelsWithin d (Z.max k d) lines).
Proof.
  intros Hv Hw. unfold printItem. rewrite Hv.
  cbn [logger]; unfold try_catch, bind, lift, modify, ret.
  destruct (statSync (target it)) as [stats | err] eqn:Hstat.
  2:{ (* statSync throws: the entry gets its error line *)
      eexists [_], resultError. single_line. }
  destruct (isDirectory stats) eqn:Hisdir.
  2:{ (* a file *)
      eexists [_], resultError. single_line. }
  (* a directory: its line, then the lines of the call on it *)
  pose proof (statSync_isDirectory _ _ Hstat Hisdir) as Hdir.
  match goal with |- context [printTree_at rt logger ?n ?p ?o ?s] =>
    destruct (Hw p o s) as (lines & r & Hrun & Hlev) end.
  rewrite Hrun.
  eexists (_ :: lines).
  exists (if negb (WalkResult.success r) then WalkResult.error r else resultError).
  split.
  { rewrite <- app_assoc. destruct (negb (WalkResult.success r)); reflexivity. }
  split.
  { eexists. split; [left; reflexivity |]. split; [reflexivity |].
    cbn [text]. eauto. }
  intros Hj k Hk Hk0. constructor; [cbn [level]; lia |].
  destruct (Z_lt_le_dec k (d + 1)) as [Hcut | Hin].
  - (* below the limit: the call logged nothing *)
    rewrite printTree_at_beyond_depth with (k := k) in Hrun;
      try (cbn [Options.descend Options.maxDepth Options.currentDepth dflt];
           auto; lia).
    assert (lines = []) as ->.
    { injection Hrun as Hrun _.
      rewrite <- (app_nil_r (out ++ _)) in Hrun at 1.
      apply app_inv_head in Hrun. now subst. }
    constructor.
  - specialize (Hlev Hj k Hk Hk0).
    cbn [Options.descend Options.currentDepth dflt] in Hlev.
    unfold levelsWithin in *. eapply Forall_impl; [| exact Hlev].
    cbn beta. intros l Hl. lia.
Qed.

Lemma printItems_lines (items : list (Entry Walk)) :
  Forall (fun it => visit it = printTree_at rt logger (target it) /\ walksWell rt (target it))
         items ->
  forall resultError out, exists lines resultError',
    printItems rt logger options resolvedPath prefix showSize d items resultError out
    = (out ++ lines, Ret resultError')
    /\ (forall it, In it items -> exists l, In l lines /\ lineOf prefix d (name it) l)
    /\ ((forall a b, path_join rt a b <> "") ->
        forall k, Options.maxDepth options = Some k -> 0 <= k ->
        levelsWithin d (Z.max k d) lines).
Proof.
  induction 1 as [| it rest [Hv Hw] _ IH]; intros resultError out.
  - exists [], resultError. simpl. unfold ret. rewrite app_nil_r.
    repeat split; [intros it [] | intros; constructor].
  - cbn [printItems].
    destruct (printItem_lines it (match rest with [] => true | _ => false end)
                resultError out Hv Hw)
      as (lines1 & e1 & Hrun1 & Hline1 & Hlev1).
    destruct (IH e1 (out ++ lines1)) as (lines2 & e2 & Hrun2 & Hline2 & Hlev2).
    exists (lines1 ++ lines2), e2. split.
    { erewrite bind_ret by exact Hrun1. rewrite Hrun2. now rewrite app_assoc. }
    split.
    + intros it' [<- | Hin].
      * destruct Hline1 as (l & Hl & Hlo). exists l. split; [| exact Hlo].
        apply in_or_app. now left.
      * destruct (Hline2 it' Hin) as (l & Hl & Hlo). exists l. split; [| exact Hlo].
        apply in_or_app. now right.
    + intros Hj k Hk Hk0. apply Forall_app. split; [now apply Hlev1 | now apply Hlev2].
Qed.
End Items.

Lemma items_of_listing (entries : list (string * node)) (keep : Entry Walk -> bool)
  (cmp : Entry Walk -> Entry Walk -> Z) :
  Forall (fun e => walksWell rt (snd e)) entries ->
  Forall (fun it => visit it = printTree_at rt logger (target it) /\ walksWell rt (target it))
    (js_sort cmp
       (filter keep
          (map (fun e => {| name := fst e; target := snd e;
                            visit := printTree_at rt logger (snd e) |}) entries))).
Proof.
  intros H. apply Forall_forall. intros it Hit.
  apply js_sort_In, filter_In in Hit. destruct Hit as [Hit _].
  apply in_map_iff in Hit. destruct Hit as (e & <- & He).
  cbn [visit target]. split; [reflexivity |].
  rewrite Forall_forall in H. now apply H.
Qed.

(** What the call on a directory that can be listed does, given that the
    walks of its entries are well behaved. *)
Lemma printTree_at_Dir (entries : list (string * node)) :
  Forall (fun e => walksWell rt (snd e)) entries ->
  forall p o out,
  let d := dflt 0 (Options.currentDepth o) in
  let maxDepth := dflt (-1) (Options.maxDepth o) in
  exists lines r,
    printTree_at rt logger (Dir entries) p o out = (out ++ lines, Ret r)
    /\ ((forall a b, path_join rt a b <> "") ->
        forall k, Options.maxDepth o = Some k -> 0 <= k ->
        levelsWithin d (Z.max k d) lines)
    /\ (forall s, p = JString s -> s <> "" ->
        WalkResult.success r = true
        /\ ((maxDepth >=? 0) && (d >? maxDepth) = false ->
            forall e, In e entries ->
              shown (dflt false (Options.showHidden o)) (dflt [] (Options.exclude o))
                (fst e) = true ->
              exists l, In l lines /\ lineOf (dflt "" (Options.prefix o)) d (fst e) l)).
Proof.
  intros Hw p o out d maxDepth.
  rewrite printTree_at_eq. unfold printTree_body. fold d maxDepth.
  cbv beta iota delta [try_catch bind lift ret throw readdirSync existsSync statSync
                       isDirectory negb].
  destruct (match truthy p with true => false | false => true end
            || match is_string p with true => false | false => true end) eqn:Hvalid.
  { (* the path is not a string with characters *)
    cbn [logger]; unfold modify. eexists [_], _. split; [reflexivity |]. split.
    - own_level.
    - intros s -> Hs. rewrite (truthy_string s Hs) in Hvalid. discriminate. }
  destruct ((maxDepth >=? 0) && (d >? maxDepth)) eqn:Hcut.
  { (* below the depth limit *)
    exists [], {| WalkResult.success := true; WalkResult.error := None |}.
    rewrite app_nil_r. split; [reflexivity |]. split.
    - intros; constructor.
    - intros s _ _. split; [reflexivity | discriminate]. }
  set (header := if d =? 0 then _ else _).
  assert (Hh : exists hl, header out = (out ++ hl, Ret tt) /\ levelsWithin d d hl).
  { unfold header. destruct (d =? 0).
    - cbn [logger]; unfold modify. eexists [_]. split; [reflexivity |].
      constructor; [cbn [level]; lia | constructor].
    - exists []. rewrite app_nil_r. split; [reflexivity | constructor]. }
  destruct Hh as (hl & -> & Hhl).
  set (items := js_sort _ _).
  destruct (printItems_lines o (path_resolve rt (string_of p))
              (dflt "" (Options.prefix o)) (dflt false (Options.showSize o)) d items
              (items_of_listing entries _ _ Hw) None (out ++ hl))
    as (lines & e' & Hrun & Hline & Hlev).
  cbn [WalkResult.error WalkResult.success]. rewrite Hrun.
  set (marker := if Z.of_nat (List.length items) =? 0 then _ else _).
  assert (Hm : exists ml, marker (out ++ hl ++ lines) = (out ++ hl ++ lines ++ ml, Ret tt)
                          /\ levelsWithin d d ml).
  { unfold marker. destruct (Z.of_nat (List.length items) =? 0).
    - cbn [logger]; unfold modify. eexists [_]. split.
      + cbn beta. rewrite <- !app_assoc. reflexivity.
      + constructor; [cbn [level]; lia | constructor].
    - exists []. rewrite !app_nil_r. split; [reflexivity | constructor]. }
  destruct Hm as (ml & Hm & Hml).
  rewrite <- app_assoc. rewrite Hm.
  exists (hl ++ lines ++ ml), {| WalkResult.success := true; WalkResult.error := e' |}.
  split; [reflexivity |]. split.
  - intros Hj k Hk Hk0. unfold levelsWithin in *.
    repeat (apply Forall_app; split); try (now apply Hlev);
      (eapply Forall_impl; [| eassumption]); cbn beta; intros; lia.
  - intros s _ _. split; [reflexivity |]. intros _ e He Hshown.
    destruct (Hline {| name := fst e; target := snd e; visit := printTree_at rt logger (snd e) |})
      as (l & Hl & Hlo).
    { apply js_sort_In, filter_In. split; [| exact Hshown].
      apply in_map_iff. exists e. split; [reflexivity | exact He]. }
    exists l. split; [| exact Hlo].
    apply in_or_app. right. apply in_or_app. now left.
Qed.

(** Every walk is well behaved. *)
Lemma printTree_at_walksWell (n : node) : walksWell rt n.
Proof.
  induction n as [sz c | entries IH | e | e] using node_induction.
  - (* a file: the root check fails *)
    intros p o out. rewrite printTree_at_eq. unfold printTree_body.
    cbv beta iota delta [try_catch bind lift ret throw existsSync statSync
                         isDirectory negb].
    destruct (_ || _); cbn [logger]; unfold modify;
      (eexists [_], _; split; [reflexivity | own_level]).
  - intros p o out.
    destruct (printTree_at_Dir entries IH p o out) as (lines & r & Hrun & Hlev & _).
    exists lines, r. split; [exact Hrun | exact Hlev].
  - (* a directory that cannot be listed *)
    intros p o out. rewrite printTree_at_eq. unfold printTree_body.
    cbv beta iota delta [try_catch bind lift ret throw readdirSync existsSync statSync
                         isDirectory negb].
    destruct (_ || _).
    { cbn [logger]; unfold modify. eexists [_], _. split; [reflexivity | own_level]. }
    destruct (_ && _).
    { exists [], {| WalkResult.success := true; WalkResult.error := None |}.
      rewrite app_nil_r. split; [reflexivity | intros; constructor]. }
    destruct (dflt 0 (Options.currentDepth o) =? 0); cbn [logger]; unfold modify;
      cbn beta iota.
    + eexists [_; _], _. rewrite <- app_assoc. split; [reflexivity | own_level].
    + eexists [_], _. split; [reflexivity | own_level].
  - (* nothing there: the root check fails *)
    intros p o out. rewrite printTree_at_eq. unfold printTree_body.
    cbv beta iota delta [try_catch bind lift ret throw existsSync statSync
                         isDirectory negb].
    destruct (_ || _); cbn [logger]; unfold modify;
      (eexists [_], _; split; [reflexivity | own_level]).
Qed.
End TreeLines.

(** ** A directory that cannot be listed *)

(** The call on a directory whose listing fails, within the depth limit:
    it returns [success = false] with the error. *)
Lemma printTree_at_DirNoRead (rt : Runtime) (e : Error) (s : string) (o : Options.t)
  (out : list Line) :
  s <> "" ->
  (dflt (-1) (Options.maxDepth o) >=? 0)
  && (dflt 0 (Options.currentDepth o) >? dflt (-1) (Options.maxDepth o)) = false ->
  exists lines,
    printTree_at rt logger (DirNoRead e) (JString s) o out
    = (out ++ lines,
       Ret {| WalkResult.success := false; WalkResult.error := Some e |})
    /\ In {| level := dflt 0 (Options.currentDepth o); style := error;
             text := dflt "" (Options.prefix o) +++ "├── [Error reading directory: "
                     +++ message e +++ "]" |} lines.
Proof.
  intros Hs Hcut. rewrite printTree_at_eq. unfold printTree_body.
  cbv beta iota delta [try_catch bind lift ret throw readdirSync existsSync statSync
                       isDirectory].
  rewrite (truthy_string s Hs), Hcut. cbn [negb is_string orb].
  destruct (dflt 0 (Options.currentDepth o) =? 0); cbn [logger]; unfold modify; cbn beta iota.
  - eexists [_; _]. rewrite <- app_assoc. split; [reflexivity | right; left; reflexivity].
  - eexists [_]. split; [reflexivity | left; reflexivity].
Qed.

(** C1, counterexample.  The subdirectory [a] of the root cannot be listed:
    the walk logs the read error under [a/], goes on to [b.txt], and the
    top-level call returns [success = true]. *)
Lemma unlistable_subdirectory_leaves_success_true :
  exists out r,
    printTree Example.runtime logger (Example.holding Example.locked) (JString "/root")
      Options.empty [] = (out, Ret r)
    /\ map text out
       = ["root/"; "├── a/";
          "│   ├── [Error reading directory: EACCES: permission denied, scandir]";
          "└── b.txt"]
    /\ WalkResult.success r = true.
Proof.
  eexists; eexists. split; [vm_compute; reflexivity | split; reflexivity].
Qed.

(** C1, as amended.  When the root is a directory that can be listed, the
    top-level call returns [success = true] whatever fails below it, and
    within the depth limit every entry of the root that passes the filter has
    its line: the siblings of a failing directory are processed.  Only the
    call on the directory whose listing fails returns [success = false], with
    the error, after logging the read error. *)
Theorem subtree_failure_keeps_success (rt : Runtime) (w : World) (s : string)
  (entries : list (string * node)) (o : Options.t) (out : list Line) :
  s <> "" ->
  at_path w (path_resolve rt s) = Dir entries ->
  (exists lines r,
      printTree rt logger w (JString s) o out = (out ++ lines, Ret r)
      /\ WalkResult.success r = true
      /\ ((dflt (-1) (Options.maxDepth o) >=? 0)
          && (dflt 0 (Options.currentDepth o) >? dflt (-1) (Options.maxDepth o)) = false ->
          forall e, In e entries ->
            shown (dflt false (Options.showHidden o)) (dflt [] (Options.exclude o))
              (fst e) = true ->
            exists l, In l lines
              /\ lineOf (dflt "" (Options.prefix o)) (dflt 0 (Options.currentDepth o))
                   (fst e) l))
  /\ (forall err p o' out',
        p <> "" ->
        (dflt (-1) (Options.maxDepth o') >=? 0)
        && (dflt 0 (Options.currentDepth o') >? dflt (-1) (Options.maxDepth o')) = false ->
        exists lines,
          printTree_at rt logger (DirNoRead err) (JString p) o' out'
          = (out' ++ lines,
             Ret {| WalkResult.success := false; WalkResult.error := Some err |})
          /\ In {| level := dflt 0 (Options.currentDepth o'); style := error;
                   text := dflt "" (Options.prefix o')
                           +++ "├── [Error reading directory: " +++ message err +++ "]" |}
                lines).
Proof.
  intros Hs Hroot. split.
  - unfold printTree. cbn [string_of]. rewrite Hroot.
    destruct (printTree_at_Dir rt entries) with (p := JString s) (o := o) (out := out)
      as (lines & r & Hrun & _ & Hvalid).
    { apply Forall_forall. intros e _. apply printTree_at_walksWell. }
    destruct (Hvalid s eq_refl Hs) as [Hsucc Hlines].
    exists lines, r. repeat split; [exact Hrun | exact Hsucc | exact Hlines].
  - intros err p o' out' Hp Hcut. now apply printTree_at_DirNoRead.
Qed.

(** C1, witness: the root [/root] holding [a] (not listable) and [b.txt]. *)
Lemma subtree_failure_keeps_success_witness :
  "/root" <> ""
  /\ at_path (Example.holding Example.locked) (path_resolve Example.runtime "/root")
     = Example.locked
  /\ exists lines r,
       printTree Example.runtime logger (Example.holding Example.locked) (JString "/root")
         Options.empty [] = ([] ++ lines, Ret r)
       /\ WalkResult.success r = true.
Proof.
  assert (Hs : "/root" <> "") by discriminate.
  split; [exact Hs |]. split; [reflexivity |].
  destruct (subtree_failure_keeps_success Example.runtime
              (Example.holding Example.locked) "/root"
              [("a", DirNoRead Example.EACCES); ("b.txt", File 1 (Ret "b"))]
              Options.empty [] Hs eq_refl)
    as [(lines & r & Hrun & Hsucc & _) _].
  exists lines, r. split; [exact Hrun | exact Hsucc].
Defined.

(** ** The depth limit *)



(** ** Sorting by a key, largest first *)

Section SortByKey.
Context {A : Type} (key : A -> Z) (cmp : A -> A -> Z).
Hypothesis cmp_key : forall a b, cmp a b = key b - key a.

Let before (a b : A) : Prop := key b <= key a.

Lemma insert_insert_last (a x : A) (s : list A) :
  insert cmp a (insert_last cmp x s) = insert_last cmp x (insert cmp a s).
Proof.
  induction s as [| y s IH]; cbn [insert insert_last].
  - rewrite !cmp_key.
    destruct (key x - key a <=? 0) eqn:E1, (key a - key x <? 0) eqn:E2;
      try reflexivity; lia.
  - destruct (cmp x y <? 0) eqn:Exy, (cmp a y <=? 0) eqn:Eay;
      cbn [insert insert_last]; rewrite ?Exy, ?Eay;
      try destruct (cmp a x <=? 0) eqn:Eax;
      try destruct (cmp x a <? 0) eqn:Exa;
      cbn [insert insert_last]; rewrite ?Exy, ?Eay, ?IH;
      try reflexivity; rewrite !cmp_key in *; lia.
Qed.

Lemma js_sort_snoc (l : list A) (x : A) :
  js_sort cmp (l ++ [x]) = insert_last cmp x (js_sort cmp l).
Proof.
  induction l as [| a l IH]; cbn [js_sort app fold_right insert insert_last].
  - reflexivity.
  - fold (js_sort cmp (l ++ [x])). fold (js_sort cmp l).
    now rewrite IH, insert_insert_last.
Qed.

Lemma firstn_cons_firstn (n : nat) (y : A) (s : list A) :
  firstn n (y :: firstn n s) = firstn n (y :: s).
Proof.
  destruct n as [| m]; [reflexivity |].
  change (y :: firstn m (firstn (S m) s) = y :: firstn m s). f_equal.
  rewrite firstn_firstn. f_equal. lia.
Qed.

Lemma firstn_insert_last (n : nat) (x : A) (s : list A) :
  firstn n (insert_last cmp x s) = firstn n (insert_last cmp x (firstn n s)).
Proof.
  revert n. induction s as [| y s IH]; intros [| n]; try reflexivity.
  cbn [firstn insert_last]. destruct (cmp x y <? 0); cbn [firstn].
  - f_equal. now rewrite firstn_cons_firstn.
  - f_equal. apply IH.
Qed.

Lemma insert_sorted (x : A) (s : list A) :
  Sorted before s -> Sorted before (insert cmp x s).
Proof.
  induction 1 as [| y s Hs IH Hhd]; cbn [insert].
  - repeat constructor.
  - destruct (cmp x y <=? 0) eqn:E.
    + constructor; [now constructor |]. constructor. unfold before.
      rewrite cmp_key in E. lia.
    + constructor; [exact IH |].
      destruct s as [| z s]; cbn [insert].
      * constructor. unfold before. rewrite cmp_key in E. lia.
      * destruct (cmp x z <=? 0); constructor.
        -- unfold before. rewrite cmp_key in E. lia.
        -- now inversion Hhd.
Qed.

Lemma js_sort_sorted (l : list A) : Sorted before (js_sort cmp l).
Proof.
  induction l as [| x l IH]; [constructor | now apply insert_sorted].
Qed.

Lemma js_sort_of_sorted (s : list A) : Sorted before s -> js_sort cmp s = s.
Proof.
  induction 1 as [| y s Hs IH Hhd]; [reflexivity |].
  cbn [js_sort fold_right]. fold (js_sort cmp s). rewrite IH.
  destruct Hhd as [| z s' Hz]; cbn [insert]; [reflexivity |].
  unfold before in Hz. rewrite cmp_key.
  destruct (key z - key y <=? 0) eqn:E; [reflexivity | lia].
Qed.

Lemma firstn_sorted (n : nat) (s : list A) :
  Sorted before s -> Sorted before (firstn n s).
Proof.
  intros Hs. revert n. induction Hs as [| y s Hs IH Hhd]; intros [| n];
    cbn [firstn]; try constructor.
  - apply IH.
  - destruct Hhd as [| z s' Hz]; [destruct n; constructor |].
    destruct n; cbn [firstn]; constructor. exact Hz.
Qed.

Lemma insert_permutation (x : A) (l : list A) : Permutation (insert cmp x l) (x :: l).
Proof.
  induction l as [| y l IH]; cbn [insert]; [reflexivity |].
  destruct (cmp x y <=? 0); [reflexivity |].
  rewrite IH. apply perm_swap.
Qed.

Lemma js_sort_permutation (l : list A) : Permutation (js_sort cmp l) l.
Proof.
  induction l as [| x l IH]; [constructor |].
  cbn [js_sort fold_right]. fold (js_sort cmp l).
  rewrite insert_permutation. now constructor.
Qed.
End SortByKey.

(** ** The largest files *)

Lemma bySizeDesc_key (a b : LargeFile.t) :
  bySizeDesc a b = LargeFile.size b - LargeFile.size a.
Proof. reflexivity. Qed.

Lemma trackLargest_length (l : list LargeFile.t) (f : LargeFile.t) :
  (List.length (trackLargest l f) <= 20)%nat.
Proof.
  unfold trackLargest.
  destruct (Z.of_nat (List.length (l ++ [f])) >? 20) eqn:E.
  - rewrite length_firstn. lia.
  - lia.
Qed.

Lemma trackLargest_top (l : list LargeFile.t) (f : LargeFile.t) :
  firstn 20 (js_sort bySizeDesc (trackLargest l f))
  = firstn 20 (js_sort bySizeDesc (l ++ [f])).
Proof.
  unfold trackLargest. destruct (_ >? 20); [| reflexivity].
  rewrite (js_sort_of_sorted LargeFile.size bySizeDesc bySizeDesc_key).
  - rewrite firstn_firstn. reflexivity.
  - apply firstn_sorted, js_sort_sorted, bySizeDesc_key.
Qed.

Lemma fold_trackLargest_top (fs l l0 : list LargeFile.t) :
  firstn 20 (js_sort bySizeDesc l) = firstn 20 (js_sort bySizeDesc l0) ->
  firstn 20 (js_sort bySizeDesc (fold_left trackLargest fs l))
  = firstn 20 (js_sort bySizeDesc (l0 ++ fs)).
Proof.
  revert l l0. induction fs as [| f fs IH]; intros l l0 H; cbn [fold_left].
  - now rewrite app_nil_r.
  - replace (l0 ++ f :: fs) with ((l0 ++ [f]) ++ fs) by now rewrite <- app_assoc.
    apply IH. rewrite trackLargest_top.
    rewrite !(js_sort_snoc LargeFile.size bySizeDesc bySizeDesc_key).
    rewrite firstn_insert_last, H, <- firstn_insert_last. reflexivity.
Qed.

Lemma fold_trackLargest_length (fs l : list LargeFile.t) :
  (List.length l <= 20)%nat ->
  (List.length (fold_left trackLargest fs l) <= 20)%nat.
Proof.
  revert l. induction fs as [| f fs IH]; intros l H; cbn [fold_left]; [exact H |].
  apply IH, trackLargest_length.
Qed.

(** The report lists the 10 largest of the files that were pushed. *)
Lemma displayed_is_top10 (fs : list LargeFile.t) :
  displayedLargest (js_sort bySizeDesc (fold_left trackLargest fs []))
  = firstn 10 (js_sort bySizeDesc fs).
Proof.
  unfold displayedLargest.
  pose proof (fold_trackLargest_top fs [] [] eq_refl) as H. cbn [app] in H.
  replace 10%nat with (Nat.min 10 20) by reflexivity.
  rewrite <- !firstn_firstn. now rewrite H.
Qed.

(** ** The statistics walk *)

Section StatsWalk.
Variable rt : Runtime.

Lemma statsItems_largest (dirPath : string) (options : StatsOptions.t)
  (entries : list (string * node)) :
  Forall (fun e => aggregatesWell rt (snd e)) entries ->
  forall stats, exists stats',
    statsItems rt dirPath options
      (map (fun e => {| name := fst e; target := snd e;
                        visit := collectDirectoryStats rt (snd e) |}) entries) stats
    = (stats', Ret tt)
    /\ DirectoryStats.largestFiles stats'
       = fold_left trackLargest
           (flat_map (visitedEntry rt (visitedFiles rt) dirPath options) entries)
           (DirectoryStats.largestFiles stats).
Proof.
  induction 1 as [| [item child] rest Hchild _ IH]; intros stats.
  - exists stats. split; reflexivity.
  - cbn [map statsItems flat_map fst snd].
    rewrite fold_left_app.
    assert (Hturn : exists stats1,
      statsItem rt dirPath options
        {| name := item; target := child; visit := collectDirectoryStats rt child |} stats
      = (stats1, Ret tt)
      /\ DirectoryStats.largestFiles stats1
         = fold_left trackLargest
             (visitedEntry rt (visitedFiles rt) dirPath options (item, child))
             (DirectoryStats.largestFiles stats)).
    { unfold statsItem, visitedEntry. cbn [name target visit fst snd].
      destruct (negb (StatsOptions.showHidden options) && startsWithDot item).
      { exists stats. split; reflexivity. }
      change (existsb (fun pattern => String.eqb item pattern)
                (StatsOptions.exclude options))
        with (includes (StatsOptions.exclude options) item).
      destruct (includes (StatsOptions.exclude options) item).
      { exists stats. split; reflexivity. }
      unfold try_catch, bind, lift, modify, ret.
      destruct child as [sz c | entries | e | e]; cbn [statSync isDirectory size].
      - eexists. split; reflexivity.
      - destruct (Hchild (path_join rt dirPath item) (StatsOptions.descend options)
                    (countDirectory stats)) as (stats1 & Hrun & Hl).
        cbn [snd] in Hrun. rewrite Hrun. exists stats1. split; [reflexivity | exact Hl].
      - destruct (Hchild (path_join rt dirPath item) (StatsOptions.descend options)
                    (countDirectory stats)) as (stats1 & Hrun & Hl).
        cbn [snd] in Hrun. rewrite Hrun. exists stats1. split; [reflexivity | exact Hl].
      - exists stats. split; reflexivity. }
    destruct Hturn as (stats1 & Hrun1 & Hl1).
    destruct (IH stats1) as (stats2 & Hrun2 & Hl2).
    exists stats2. split.
    + erewrite bind_ret by exact Hrun1. exact Hrun2.
    + rewrite Hl2, Hl1. reflexivity.
Qed.

Lemma collectDirectoryStats_aggregatesWell (n : node) : aggregatesWell rt n.
Proof.
  induction n as [sz c | entries IH | e | e] using node_induction;
    intros dirPath options stats;
    rewrite collectDirectoryStats_eq; unfold collectDirectoryStats_body;
    cbn [visitedFiles];
    destruct ((StatsOptions.maxDepth options >=? 0)
              && (StatsOptions.currentDepth options >? StatsOptions.maxDepth options));
    try (exists stats; split; reflexivity).
  destruct (statsItems_largest dirPath options entries IH stats) as (stats' & Hrun & Hl).
  exists stats'. split; [| exact Hl].
  unfold try_catch. erewrite bind_ret by reflexivity. now rewrite Hrun.
Qed.
End StatsWalk.

(** ** The report of generateDirectorySummary *)

(** For a path that is a string, a first write that succeeds and unless
    both [includeStats] and [includeFileCount] are false: the summary walks
    the tree with a collecting logger, aggregates the statistics from the
    zero counters, sorts the largest files in place, and writes one text. *)
Lemma generateDirectorySummary_report (rt : Runtime) (w : World) (s outputPath : string)
  (options : Options.t) (d : Disk) :
  let exclude := dflt ["node_modules"; ".git"] (Options.exclude options) in
  let showHidden := dflt false (Options.showHidden options) in
  let maxDepth := dflt (-1) (Options.maxDepth options) in
  write_error w (attempts d) = None ->
  dflt true (Options.includeStats options)
  || dflt true (Options.includeFileCount options) = true ->
  exists d' r tree walk raw,
    printTree rt logger w (JString s)
      {| Options.prefix := Some ""; Options.maxDepth := Some maxDepth;
         Options.exclude := Some exclude; Options.showHidden := Some showHidden;
         Options.showSize := Some false; Options.currentDepth := None;
         Options.extensions := None; Options.maxFileSize := None;
         Options.separator := None; Options.includeStats := None;
         Options.includeFileCount := None |} []
    = (tree, Ret walk)
    /\ collectDirectoryStats rt (at_path w s) s
         {| StatsOptions.exclude := exclude; StatsOptions.showHidden := showHidden;
            StatsOptions.maxDepth := maxDepth; StatsOptions.currentDepth := 0 |}
         DirectoryStats.zero
       = (raw, Ret tt)
    /\ generateDirectorySummary rt w (JString s) outputPath options d = (d', Ret r)
    /\ SummaryResult.success r = true
    /\ SummaryResult.filePath r = Some (path_resolve rt outputPath)
    /\ SummaryResult.stats r
       = Some {| DirectoryStats.totalFiles := DirectoryStats.totalFiles raw;
                 DirectoryStats.totalDirectories := DirectoryStats.totalDirectories raw;
                 DirectoryStats.totalSize := DirectoryStats.totalSize raw;
                 DirectoryStats.fileTypes := DirectoryStats.fileTypes raw;
                 DirectoryStats.largestFiles :=
                   js_sort bySizeDesc (DirectoryStats.largestFiles raw) |}
    /\ artifact d'
       = [String.concat nl
            (["Directory Summary: " +++ path_resolve rt s;
              "Generated on: " +++ dateNow rt; repeat_string "=" 80; "";
              "Directory Structure:"]
             ++ map (fun l => stripColors rt (colorize rt (style l) (text l))) tree
             ++ [""; repeat_string "=" 80; ""; "Directory Statistics:";
                 "- Total Files: " +++ show_Z (DirectoryStats.totalFiles raw);
                 "- Total Directories: "
                 +++ show_Z (DirectoryStats.totalDirectories raw);
                 "- Total Size: " +++ formatFileSize rt (DirectoryStats.totalSize raw);
                 ""; "File Types:"]
             ++ map (fun bucket =>
                       "- " +++ (if String.eqb (fst bucket) "" then "(no extension)"
                                 else fst bucket)
                       +++ ": " +++ show_Z (TypeStats.count (snd bucket)) +++ " files ("
                       +++ formatFileSize rt (TypeStats.size (snd bucket)) +++ ")")
                 (js_sort byCountDesc (DirectoryStats.fileTypes raw))
             ++ [""; "Largest Files:"]
             ++ map (fun file =>
                       "- " +++ LargeFile.path file +++ " ("
                       +++ formatFileSize rt (LargeFile.size file) +++ ")")
                 (firstn 10 (js_sort bySizeDesc (DirectoryStats.largestFiles raw))))].
Proof.
  intros exclude showHidden maxDepth Hw Hflags.
  match goal with |- context [printTree rt logger w (JString s) ?o []] =>
    destruct (printTree_returns rt w (JString s) o []) as (tree & walk & Htree) end.
  match goal with |- context [collectDirectoryStats rt ?n s ?so DirectoryStats.zero] =>
    destruct (collectDirectoryStats_returns rt n s so DirectoryStats.zero)
      as (raw & [] & Hraw) end.
  unfold generateDirectorySummary.
  match goal with |- context [try_catch ?m ?h] => set (body := m); set (handler := h) end.
  enough (Hbody : exists d' r,
    body d = (d', Ret r)
    /\ SummaryResult.success r = true
    /\ SummaryResult.filePath r = Some (path_resolve rt outputPath)
    /\ SummaryResult.stats r
       = Some {| DirectoryStats.totalFiles := DirectoryStats.totalFiles raw;
                 DirectoryStats.totalDirectories := DirectoryStats.totalDirectories raw;
                 DirectoryStats.totalSize := DirectoryStats.totalSize raw;
                 DirectoryStats.fileTypes := DirectoryStats.fileTypes raw;
                 DirectoryStats.largestFiles :=
                   js_sort bySizeDesc (DirectoryStats.largestFiles raw) |}
    /\ artifact d'
       = [String.concat nl
            (["Directory Summary: " +++ path_resolve rt s;
              "Generated on: " +++ dateNow rt; repeat_string "=" 80; "";
              "Directory Structure:"]
             ++ map (fun l => stripColors rt (colorize rt (style l) (text l))) tree
             ++ [""; repeat_string "=" 80; ""; "Directory Statistics:";
                 "- Total Files: " +++ show_Z (DirectoryStats.totalFiles raw);
                 "- Total Directories: "
                 +++ show_Z (DirectoryStats.totalDirectories raw);
                 "- Total Size: " +++ formatFileSize rt (DirectoryStats.totalSize raw);
                 ""; "File Types:"]
             ++ map (fun bucket =>
                       "- " +++ (if String.eqb (fst bucket) "" then "(no extension)"
                                 else fst bucket)
                       +++ ": " +++ show_Z (TypeStats.count (snd bucket)) +++ " files ("
                       +++ formatFileSize rt (TypeStats.size (snd bucket)) +++ ")")
                 (js_sort byCountDesc (DirectoryStats.fileTypes raw))
             ++ [""; "Largest Files:"]
             ++ map (fun file =>
                       "- " +++ LargeFile.path file +++ " ("
                       +++ formatFileSize rt (LargeFile.size file) +++ ")")
                 (firstn 10 (js_sort bySizeDesc (DirectoryStats.largestFiles raw))))]).
  { destruct Hbody as (d' & r & Hrun & Hrest).
    exists d', r, tree, walk, raw. split; [exact Htree |]. split; [exact Hraw |].
    split; [| exact Hrest]. now apply try_catch_ret. }
  unfold body. cbv zeta. fold exclude showHidden maxDepth.
  erewrite bind_ret by reflexivity.
  erewrite bind_ret by (unfold collecting; rewrite Htree; reflexivity).
  rewrite Hflags. cbn [string_of fst snd].
  erewrite bind_ret.
  2:{ erewrite bind_ret by (unfold on_object; rewrite Hraw; reflexivity). reflexivity. }
  cbn [fst snd].
  erewrite bind_ret.
  2:{ unfold writeFileSync, write. rewrite Hw. reflexivity. }
  unfold bind, console_log, modify, ret.
  eexists; eexists. split; [reflexivity |].
  cbn [SummaryResult.success SummaryResult.filePath SummaryResult.stats artifact].
  repeat split.
Qed.

(** C8.  Every push onto the largest-files list leaves at most 20 entries:
    when the list exceeds 20 it is sorted by size, largest first, and cut to
    20.  So the list that an aggregation ends with has at most 20 entries, and
    sorted again and cut to 10 it is the 10 largest of all the files that the
    walk met: the first 10 of those files sorted by size, largest first, files
    of equal size in the order in which they were met.  The report that
    generateDirectorySummary writes ends with the heading [Largest Files:]
    and one line, path and formatted size, for each of these 10, in this
    order, and the [stats] that it returns hold at most 20 files.  This holds
    for every tree, of fewer than 10,000 files or more. *)
Theorem largest_files_bounded_and_exact (rt : Runtime) (here : node) (dirPath : string)
  (options : StatsOptions.t) :
  let visited := visitedFiles rt here dirPath options in
  (forall largestFiles f, (List.length (trackLargest largestFiles f) <= 20)%nat)
  /\ (exists stats,
        collectDirectoryStats rt here dirPath options DirectoryStats.zero
        = (stats, Ret tt)
        /\ (List.length (DirectoryStats.largestFiles stats) <= 20)%nat
        /\ firstn 10 (js_sort bySizeDesc (DirectoryStats.largestFiles stats))
           = firstn 10 (js_sort bySizeDesc visited))
  /\ Permutation (js_sort bySizeDesc visited) visited
  /\ Sorted noSmaller (js_sort bySizeDesc visited)
  /\ (forall (w : World) (s outputPath : string) (o : Options.t) (d : Disk),
        let met :=
          visitedFiles rt (at_path w s) s
            {| StatsOptions.exclude := dflt ["node_modules"; ".git"] (Options.exclude o);
               StatsOptions.showHidden := dflt false (Options.showHidden o);
               StatsOptions.maxDepth := dflt (-1) (Options.maxDepth o);
               StatsOptions.currentDepth := 0 |} in
        write_error w (attempts d) = None ->
        dflt true (Options.includeStats o) || dflt true (Options.includeFileCount o) = true ->
        exists d' r stats before,
          generateDirectorySummary rt w (JString s) outputPath o d = (d', Ret r)
          /\ SummaryResult.stats r = Some stats
          /\ (List.length (DirectoryStats.largestFiles stats) <= 20)%nat
          /\ firstn 10 (DirectoryStats.largestFiles stats)
             = firstn 10 (js_sort bySizeDesc met)
          /\ artifact d'
             = [String.concat nl
                  (before
                   ++ ["Largest Files:"]
                   ++ map (fun file =>
                             "- " +++ LargeFile.path file +++ " ("
                             +++ formatFileSize rt (LargeFile.size file) +++ ")")
                        (firstn 10 (js_sort bySizeDesc met)))]).
Proof.
  intros visited. split; [apply trackLargest_length |]. split; [| split; [| split]].
  - destruct (collectDirectoryStats_aggregatesWell rt here dirPath options
                DirectoryStats.zero) as (stats & Hrun & Hl).
    cbn [DirectoryStats.zero DirectoryStats.largestFiles] in Hl.
    exists stats. split; [exact Hrun |]. rewrite Hl. split.
    + apply fold_trackLargest_length. cbn. lia.
    + apply displayed_is_top10.
  - apply js_sort_permutation.
  - apply (js_sort_sorted LargeFile.size bySizeDesc bySizeDesc_key).
  - intros w s outputPath o d met Hw Hflags.
    destruct (generateDirectorySummary_report rt w s outputPath o d Hw Hflags)
      as (d' & r & tree & walk & raw & _ & Hraw & Hrun & _ & _ & Hstats & Hart).
    match type of Hraw with collectDirectoryStats rt ?n s ?so _ = _ =>
      destruct (collectDirectoryStats_aggregatesWell rt n s so DirectoryStats.zero)
        as (raw' & Hraw' & Hl) end.
    rewrite Hraw in Hraw'. injection Hraw' as <-.
    cbn [DirectoryStats.zero DirectoryStats.largestFiles] in Hl. fold met in Hl.
    pose proof (displayed_is_top10 met) as Htop. unfold displayedLargest in Htop.
    rewrite Hl, Htop in Hart.
    match type of Hart with
    | _ = [String.concat nl (?header ++ ?lines ++ ?totals ++ ?types ++ _ ++ _)] =>
        eexists d', r, _, (header ++ lines ++ totals ++ types ++ [""])
    end.
    split; [exact Hrun |]. split; [exact Hstats |].
    cbn [DirectoryStats.largestFiles]. split; [| split].
    + rewrite js_sort_length, Hl. apply fold_trackLargest_length. cbn. lia.
    + rewrite Hl. apply displayed_is_top10.
    + rewrite Hart. do 2 f_equal. rewrite <- !app_assoc. reflexivity.
Qed.

(** C8, witness: the summary of the scenario tree: two files, the larger
    one first. *)
Lemma largest_files_bounded_and_exact_witness :
  write_error (Example.holding Example.scenario) (attempts blank) = None
  /\ exists d' r stats,
       generateDirectorySummary Example.runtime (Example.holding Example.scenario)
         (JString "/root") "/summary.txt" Options.empty blank = (d', Ret r)
       /\ SummaryResult.stats r = Some stats
       /\ map LargeFile.path (firstn 10 (DirectoryStats.largestFiles stats))
          = ["/root/b/c.js"; "/root/a.txt"].
Proof.
  split; [reflexivity |].
  destruct (proj2 (proj2 (proj2 (proj2
              (largest_files_bounded_and_exact Example.runtime Example.scenario "/root"
                 {| StatsOptions.exclude := []; StatsOptions.showHidden := false;
                    StatsOptions.maxDepth := -1; StatsOptions.currentDepth := 0 |}))))
              (Example.holding Example.scenario) "/root" "/summary.txt" Options.empty blank
              eq_refl eq_refl)
    as (d' & r & stats & before & Hrun & Hstats & _ & Htop & _).
  exists d', r, stats. split; [exact Hrun |]. split; [exact Hstats |].
  rewrite Htop. reflexivity.
Defined.

(** ** The content walk, one entry at a time *)

Section ContentItem.
Variables (rt : Runtime) (w : World).
Variables (dirPath outputPath : string) (options : CollectOptions.t).

Let relativePathOf (item : string) : string :=
  path_relative rt (path_dirname rt outputPath) (path_join rt dirPath item).

(** An entry that the filters let through. *)
Let passes (item : string) : Prop :=
  negb (CollectOptions.showHidden options) && startsWithDot item = false
  /\ excluded rt (CollectOptions.exclude options) item = Ret false.

(** A file above the size limit: the placeholder is appended, the file is
    counted as skipped, and [readFileSync] is not called, whatever the
    extension of the file. *)
Lemma collectItem_too_large (it : Entry Collect) (sz : Z) (content : outcome string)
  (d : Disk) (counts : Counts.t) :
  target it = File sz content -> passes (name it) ->
  sz > CollectOptions.maxFileSize options ->
  write_error w (attempts d) = None ->
  collectItem rt w dirPath outputPath options it (d, counts)
  = ((appended d (tooLarge rt options (relativePathOf (name it)) sz), Counts.skip counts),
     Ret tt).
Proof.
  intros Ht [Hh He] Hsz Hw. unfold collectItem. rewrite Hh, Ht.
  unfold try_catch, bind, lift, outer, set_local, modify, appendFileSync, write.
  rewrite He. cbn [statSync isDirectory size fst snd].
  assert (E : (sz >? CollectOptions.maxFileSize options) = true)
    by (apply Z.gtb_lt; lia).
  rewrite E. cbn [fst snd]. rewrite Hw. reflexivity.
Qed.

(** A file within the size limit whose extension the allow-list rejects:
    nothing is written or read, and the file is counted as skipped. *)
Lemma collectItem_rejected (it : Entry Collect) (sz : Z) (content : outcome string)
  (d : Disk) (counts : Counts.t) :
  target it = File sz content -> passes (name it) ->
  sz <= CollectOptions.maxFileSize options ->
  extensionRejected (CollectOptions.extensions options)
    (toLowerCase rt (path_extname rt (name it))) = true ->
  collectItem rt w dirPath outputPath options it (d, counts)
  = ((d, Counts.skip counts), Ret tt).
Proof.
  intros Ht [Hh He] Hsz Hx. unfold collectItem. rewrite Hh, Ht.
  unfold try_catch, bind, lift, outer, set_local, modify.
  rewrite He. cbn [statSync isDirectory size fst snd].
  assert (E : (sz >? CollectOptions.maxFileSize options) = false)
    by (rewrite Z.gtb_ltb; apply Z.ltb_ge; lia).
  rewrite E, Hx. reflexivity.
Qed.

(** A readable file within the size limit and of an accepted extension: it is
    read, its record is appended, and it is counted as processed. *)
Lemma collectItem_included (it : Entry Collect) (sz : Z) (txt : string)
  (d : Disk) (counts : Counts.t) :
  target it = File sz (Ret txt) -> passes (name it) ->
  sz <= CollectOptions.maxFileSize options ->
  extensionRejected (CollectOptions.extensions options)
    (toLowerCase rt (path_extname rt (name it))) = false ->
  write_error w (attempts d) = None ->
  collectItem rt w dirPath outputPath options it (d, counts)
  = ((appended (afterRead d (path_join rt dirPath (name it)))
        (fileRecord options (relativePathOf (name it)) txt),
      Counts.process counts),
     Ret tt).
Proof.
  intros Ht [Hh He] Hsz Hx Hw. unfold collectItem. rewrite Hh, Ht.
  unfold try_catch, bind, lift, outer, set_local, modify, appendFileSync, write,
    readFile.
  rewrite He. cbn [statSync isDirectory size fst snd readFileSync].
  assert (E : (sz >? CollectOptions.maxFileSize options) = false)
    by (rewrite Z.gtb_ltb; apply Z.ltb_ge; lia).
  rewrite E, Hx. cbn [fst snd attempts]. rewrite Hw. reflexivity.
Qed.
End ContentItem.

(** ** The content walk, as a whole *)

Section ContentWalk.
Variables (rt : Runtime) (w : World).
Hypothesis writes_succeed : forall n, write_error w n = None.

Lemma collectItem_well (dirPath outputPath : string) (options : CollectOptions.t)
  (item : string) (child : node) :
  (forall item, exists b, excluded rt (CollectOptions.exclude options) item = Ret b) ->
  collectsWell rt w child ->
  forall d counts, exists d' counts' pieces,
    collectItem rt w dirPath outputPath options
      {| name := item; target := child; visit := collectFileContents rt w child |}
      (d, counts)
    = ((d', counts'), Ret tt)
    /\ artifact d' = artifact d ++ pieces
    /\ reads d'
       = reads d ++ map fullPathOf
                      (filter (isRead rt options)
                         (reachedEntry rt (reachedFiles rt) dirPath options (item, child)))
    /\ (forall r piece,
          In r (reachedEntry rt (reachedFiles rt) dirPath options (item, child)) ->
          pieceOf rt outputPath options r = Some piece ->
          In piece pieces).
Proof.
  intros Hex Hchild d counts.
  unfold collectItem, reachedEntry. cbn [name target visit fst snd].
  destruct (negb (CollectOptions.showHidden options) && startsWithDot item).
  { exists d, (Counts.skip counts), []. rewrite !app_nil_r.
    repeat split; intros r piece []. }
  destruct (Hex item) as [b Hb].
  unfold try_catch, bind, lift, outer, set_local, modify, appendFileSync, write, readFile.
  rewrite Hb. destruct b.
  { exists d, (Counts.skip counts), []. rewrite !app_nil_r.
    repeat split; intros r piece []. }
  destruct child as [sz content | entries | e | e];
    cbn [statSync isDirectory size fst snd readFileSync attempts].
  - (* a file *)
    destruct (sz >? CollectOptions.maxFileSize options) eqn:Esz.
    { rewrite writes_succeed. cbn [fst snd].
      eexists; eexists; eexists [_]. split; [reflexivity |].
      split; [reflexivity |]. split.
      - cbn [filter isRead fileOf map]. rewrite Esz. cbn. now rewrite app_nil_r.
      - intros r piece [<- | []]. unfold pieceOf. cbn [fileOf fullPathOf itemOf].
        rewrite Esz. intros [= <-]. now left. }
    destruct (extensionRejected (CollectOptions.extensions options)
                (toLowerCase rt (path_extname rt item))) eqn:Ex.
    { exists d, (Counts.skip counts), []. rewrite !app_nil_r.
      split; [reflexivity |]. split; [reflexivity |]. split.
      - cbn [filter isRead fileOf itemOf map]. rewrite Esz, Ex. cbn.
        now rewrite app_nil_r.
      - intros r piece [<- | []]. unfold pieceOf. cbn [fileOf fullPathOf itemOf].
        rewrite Esz, Ex. discriminate. }
    destruct content as [txt | readErr]; rewrite writes_succeed; cbn [fst snd].
    + eexists; eexists; eexists [_]. split; [reflexivity |].
      split; [reflexivity |]. split.
      * cbn [filter isRead fileOf itemOf map]. rewrite Esz, Ex. reflexivity.
      * intros r piece [<- | []]. unfold pieceOf. cbn [fileOf fullPathOf itemOf].
        rewrite Esz, Ex. intros [= <-]. now left.
    + eexists; eexists; eexists [_]. split; [reflexivity |].
      split; [reflexivity |]. split.
      * cbn [filter isRead fileOf itemOf map]. rewrite Esz, Ex. reflexivity.
      * intros r piece [<- | []]. unfold pieceOf. cbn [fileOf fullPathOf itemOf].
        rewrite Esz, Ex. intros [= <-]. now left.
  - (* a directory *)
    destruct (Hchild (path_join rt dirPath item) outputPath
                (CollectOptions.descend options) d Hex)
      as (d' & sub & pieces & Hrun & Hart & Hreads & Hpieces).
    rewrite Hrun. cbn [fst snd].
    exists d', (Counts.add sub counts), pieces.
    repeat split; [exact Hart | exact Hreads | exact Hpieces].
  - (* a directory that cannot be listed *)
    destruct (Hchild (path_join rt dirPath item) outputPath
                (CollectOptions.descend options) d Hex)
      as (d' & sub & pieces & Hrun & Hart & Hreads & Hpieces).
    rewrite Hrun. cbn [fst snd].
    exists d', (Counts.add sub counts), pieces.
    repeat split; [exact Hart | exact Hreads | exact Hpieces].
  - (* statSync throws *)
    rewrite writes_succeed. cbn [fst snd].
    eexists; eexists; eexists [_]. split; [reflexivity |].
    split; [reflexivity |]. split.
    + cbn. now rewrite app_nil_r.
    + intros r piece [].
Qed.

Lemma collectItems_well (dirPath outputPath : string) (options : CollectOptions.t)
  (entries : list (string * node)) :
  (forall item, exists b, excluded rt (CollectOptions.exclude options) item = Ret b) ->
  Forall (fun e => collectsWell rt w (snd e)) entries ->
  forall d counts, exists d' counts' pieces,
    collectItems rt w dirPath outputPath options
      (map (fun e => {| name := fst e; target := snd e;
                        visit := collectFileContents rt w (snd e) |}) entries)
      (d, counts)
    = ((d', counts'), Ret tt)
    /\ artifact d' = artifact d ++ pieces
    /\ reads d'
       = reads d ++ map fullPathOf
                      (filter (isRead rt options)
                         (flat_map (reachedEntry rt (reachedFiles rt) dirPath options)
                            entries))
    /\ (forall r piece,
          In r (flat_map (reachedEntry rt (reachedFiles rt) dirPath options) entries) ->
          pieceOf rt outputPath options r = Some piece ->
          In piece pieces).
Proof.
  intros Hex. induction 1 as [| [item child] rest Hchild _ IH]; intros d counts.
  - exists d, counts, []. rewrite !app_nil_r.
    repeat split; intros r piece [].
  - cbn [map collectItems flat_map fst snd].
    destruct (collectItem_well dirPath outputPath options item child Hex Hchild d counts)
      as (d1 & c1 & pieces1 & Hrun1 & Hart1 & Hreads1 & Hpieces1).
    destruct (IH d1 c1) as (d2 & c2 & pieces2 & Hrun2 & Hart2 & Hreads2 & Hpieces2).
    exists d2, c2, (pieces1 ++ pieces2). split.
    { erewrite bind_ret by exact Hrun1. exact Hrun2. }
    split; [now rewrite Hart2, Hart1, app_assoc |]. split.
    + rewrite Hreads2, Hreads1, filter_app, map_app, app_assoc. reflexivity.
    + intros r piece Hr Hp. apply in_or_app. apply in_app_or in Hr.
      destruct Hr as [Hr | Hr]; [left; now apply (Hpieces1 r) | right; now apply (Hpieces2 r)].
Qed.

Lemma collectFileContents_collectsWell (n : node) : collectsWell rt w n.
Proof.
  induction n as [sz c | entries IH | e | e] using node_induction;
    intros dirPath outputPath options d Hex;
    rewrite collectFileContents_eq; unfold collectFileContents_body;
    cbn [reachedFiles];
    destruct ((CollectOptions.maxDepth options >=? 0)
              && (CollectOptions.currentDepth options >? CollectOptions.maxDepth options));
    try (exists d, Counts.zero, []; rewrite !app_nil_r;
         repeat split; intros r piece []).
  - (* a file where a directory is expected *)
    unfold with_local, try_catch, bind, lift, outer, local, appendFileSync, write.
    cbn [readdirSync fst snd]. rewrite writes_succeed.
    eexists; eexists; eexists [_]. split; [reflexivity |].
    repeat split; [cbn; now rewrite app_nil_r | intros r piece []].
  - destruct (collectItems_well dirPath outputPath options entries Hex IH d Counts.zero)
      as (d' & c' & pieces & Hrun & Hart & Hreads & Hpieces).
    exists d', c', pieces. split; [| repeat split; assumption].
    unfold with_local.
    erewrite bind_ret.
    2:{ apply try_catch_ret. erewrite bind_ret by reflexivity. exact Hrun. }
    reflexivity.
  - unfold with_local, try_catch, bind, lift, outer, local, appendFileSync, write.
    cbn [readdirSync fst snd]. rewrite writes_succeed.
    eexists; eexists; eexists [_]. split; [reflexivity |].
    repeat split; [cbn; now rewrite app_nil_r | intros r piece []].
  - unfold with_local, try_catch, bind, lift, outer, local, appendFileSync, write.
    cbn [readdirSync fst snd]. rewrite writes_succeed.
    eexists; eexists; eexists [_]. split; [reflexivity |].
    repeat split; [cbn; now rewrite app_nil_r | intros r piece []].
Qed.
End ContentWalk.

(** ** The size limit of the content export *)

Lemma NoDup_map_injective {A B} (f : A -> B) (l : list A) (x y : A) :
  NoDup (map f l) -> In x l -> In y l -> f x = f y -> x = y.
Proof.
  induction l as [| a l IH]; cbn [map]; intros Hnd Hx Hy Hf; [destruct Hx |].
  inversion Hnd as [| ? ? Hnotin Hnd']; subst.
  destruct Hx as [-> | Hx], Hy as [-> | Hy]; auto.
  - exfalso. apply Hnotin. rewrite Hf. now apply in_map.
  - exfalso. apply Hnotin. rewrite <- Hf. now apply in_map.
Qed.

(** C9.  In a content export on a disk that takes every write, with exclusion
    patterns that the engine accepts: the walk returns and only appends to the
    artifact; a reached file whose size is exactly [maxFileSize], whose
    extension is accepted and whose read succeeds has the record of its
    content in the artifact; a reached file of [maxFileSize + 1] bytes or more
    has the too-large placeholder, with its formatted size, in the artifact,
    and is not among the files that are read.  The turn of the loop on such a
    file appends the placeholder, counts the file as skipped and leaves the
    list of reads as it was; when no two reached files have the same path, the
    path of such a file is not read in the whole walk. *)
Theorem size_limit_boundary (rt : Runtime) (w : World) (here : node)
  (dirPath outputPath : string) (options : CollectOptions.t) (d : Disk) :
  (forall n, write_error w n = None) ->
  (forall item, exists b, excluded rt (CollectOptions.exclude options) item = Ret b) ->
  let reached := reachedFiles rt here dirPath options in
  let relativePath path := path_relative rt (path_dirname rt outputPath) path in
  let maxFileSize := CollectOptions.maxFileSize options in
  (exists d' counts pieces,
      collectFileContents rt w here dirPath outputPath options d = (d', Ret counts)
      /\ artifact d' = artifact d ++ pieces
      /\ reads d' = reads d ++ map fullPathOf (filter (isRead rt options) reached)
      /\ (forall r txt,
            In r reached -> fileOf r = File maxFileSize (Ret txt) ->
            extensionRejected (CollectOptions.extensions options)
              (toLowerCase rt (path_extname rt (itemOf r))) = false ->
            In ("File: " +++ relativePath (fullPathOf r) +++ nl +++ nl +++ txt +++ nl
                +++ CollectOptions.separator options) pieces
            /\ isRead rt options r = true)
      /\ (forall r sz content,
            In r reached -> fileOf r = File sz content -> sz >= maxFileSize + 1 ->
            In ("File: " +++ relativePath (fullPathOf r) +++ nl
                +++ "[FILE TOO LARGE: " +++ formatFileSize rt sz +++ "]" +++ nl
                +++ CollectOptions.separator options) pieces
            /\ isRead rt options r = false))
  /\ (forall (it : Entry Collect) sz content d0 counts0,
        target it = File sz content ->
        negb (CollectOptions.showHidden options) && startsWithDot (name it) = false ->
        excluded rt (CollectOptions.exclude options) (name it) = Ret false ->
        sz >= maxFileSize + 1 ->
        collectItem rt w dirPath outputPath options it (d0, counts0)
        = (({| artifact :=
                 artifact d0
                 ++ ["File: " +++ relativePath (path_join rt dirPath (name it)) +++ nl
                     +++ "[FILE TOO LARGE: " +++ formatFileSize rt sz +++ "]" +++ nl
                     +++ CollectOptions.separator options];
               attempts := S (attempts d0); reads := reads d0;
               console := console d0 |},
            {| Counts.processed := Counts.processed counts0;
               Counts.skipped := Counts.skipped counts0 + 1 |}),
           Ret tt))
  /\ (NoDup (map fullPathOf reached) ->
      forall r sz content,
        In r reached -> fileOf r = File sz content -> sz >= maxFileSize + 1 ->
        ~ In (fullPathOf r) (map fullPathOf (filter (isRead rt options) reached))).
Proof.
  intros Hw Hex reached relativePath maxFileSize. split; [| split].
  - destruct (collectFileContents_collectsWell rt w Hw here dirPath outputPath options d Hex)
      as (d' & counts & pieces & Hrun & Hart & Hreads & Hpieces).
    exists d', counts, pieces.
    split; [exact Hrun |]. split; [exact Hart |]. split; [exact Hreads |]. split.
    + intros r txt Hr Hf Hx.
      assert (E : (maxFileSize >? maxFileSize) = false)
        by (rewrite Z.gtb_ltb; apply Z.ltb_irrefl).
      split.
      * apply (Hpieces r); [exact Hr |]. unfold pieceOf. rewrite Hf.
        fold maxFileSize. now rewrite E, Hx.
      * unfold isRead. rewrite Hf. fold maxFileSize. now rewrite E, Hx.
    + intros r sz content Hr Hf Hsz.
      assert (E : (sz >? maxFileSize) = true) by (apply Z.gtb_lt; lia).
      split.
      * apply (Hpieces r); [exact Hr |]. unfold pieceOf. rewrite Hf.
        fold maxFileSize. now rewrite E.
      * unfold isRead. rewrite Hf. fold maxFileSize. now rewrite E.
  - intros it sz content d0 counts0 Ht Hh He Hsz.
    apply collectItem_too_large with (content := content); auto.
    fold maxFileSize. lia.
  - intros Hnd r sz content Hr Hf Hsz Hin.
    apply in_map_iff in Hin. destruct Hin as (r' & Heq & Hr').
    apply filter_In in Hr'. destruct Hr' as [Hr' Hread].
    assert (r' = r) by (eapply NoDup_map_injective; eauto). subst r'.
    unfold isRead in Hread. rewrite Hf in Hread. fold maxFileSize in Hread.
    assert (E : (sz >? maxFileSize) = true) by (apply Z.gtb_lt; lia).
    rewrite E in Hread. discriminate.
Qed.

(** C9, witness: files of 10 and 11 bytes exported with a limit of 10. *)
Lemma size_limit_boundary_witness :
  (forall n, write_error (Example.holding Example.sizes) n = None)
  /\ (forall item, exists b,
        excluded Example.runtime (CollectOptions.exclude Example.upTo10) item = Ret b)
  /\ exists d' counts pieces,
       collectFileContents Example.runtime (Example.holding Example.sizes)
         Example.sizes "/root" "/out.txt" Example.upTo10 blank = (d', Ret counts)
       /\ artifact d' = artifact blank ++ pieces.
Proof.
  assert (Hw : forall n, write_error (Example.holding Example.sizes) n = None)
    by reflexivity.
  assert (Hex : forall item, exists b,
             excluded Example.runtime (CollectOptions.exclude Example.upTo10) item = Ret b)
    by (intros item; exists false; reflexivity).
  split; [exact Hw |]. split; [exact Hex |].
  destruct (size_limit_boundary Example.runtime (Example.holding Example.sizes)
              Example.sizes "/root" "/out.txt" Example.upTo10 blank Hw Hex)
    as [(d' & counts & pieces & Hrun & Hart & _) _].
  exists d', counts, pieces. split; [exact Hrun | exact Hart].
Defined.

(** C10.  In the content export the size check comes before the extension
    check.  The turn of the loop on a file larger than [maxFileSize] whose
    extension the allow-list rejects appends the [FILE TOO LARGE] placeholder
    and counts the file as skipped; on a file within the limit whose extension
    is rejected it writes nothing and counts the file as skipped.  In a whole
    walk, on a disk that takes every write and with patterns that the engine
    accepts, every reached file that is too large and of a rejected extension
    has its placeholder in the artifact. *)
Theorem size_check_precedes_extension_check (rt : Runtime) (w : World) (here : node)
  (dirPath outputPath : string) (options : CollectOptions.t) (d : Disk) :
  (forall n, write_error w n = None) ->
  (forall item, exists b, excluded rt (CollectOptions.exclude options) item = Ret b) ->
  let relativePath path := path_relative rt (path_dirname rt outputPath) path in
  let maxFileSize := CollectOptions.maxFileSize options in
  let rejected item :=
    extensionRejected (CollectOptions.extensions options)
      (toLowerCase rt (path_extname rt item)) in
  (forall (it : Entry Collect) sz content d0 counts0,
      target it = File sz content ->
      negb (CollectOptions.showHidden options) && startsWithDot (name it) = false ->
      excluded rt (CollectOptions.exclude options) (name it) = Ret false ->
      rejected (name it) = true ->
      collectItem rt w dirPath outputPath options it (d0, counts0)
      = if sz >? maxFileSize
        then (({| artifact :=
                     artifact d0
                     ++ ["File: " +++ relativePath (path_join rt dirPath (name it)) +++ nl
                         +++ "[FILE TOO LARGE: " +++ formatFileSize rt sz +++ "]" +++ nl
                         +++ CollectOptions.separator options];
                   attempts := S (attempts d0); reads := reads d0;
                   console := console d0 |},
                {| Counts.processed := Counts.processed counts0;
                   Counts.skipped := Counts.skipped counts0 + 1 |}),
              Ret tt)
        else ((d0, {| Counts.processed := Counts.processed counts0;
                      Counts.skipped := Counts.skipped counts0 + 1 |}),
              Ret tt))
  /\ (exists d' counts pieces,
        collectFileContents rt w here dirPath outputPath options d = (d', Ret counts)
        /\ artifact d' = artifact d ++ pieces
        /\ (forall r sz content,
              In r (reachedFiles rt here dirPath options) ->
              fileOf r = File sz content -> sz > maxFileSize ->
              rejected (itemOf r) = true ->
              In ("File: " +++ relativePath (fullPathOf r) +++ nl
                  +++ "[FILE TOO LARGE: " +++ formatFileSize rt sz +++ "]" +++ nl
                  +++ CollectOptions.separator options) pieces)).
Proof.
  intros Hw Hex relativePath maxFileSize rejected. split.
  - intros it sz content d0 counts0 Ht Hh He Hx.
    destruct (sz >? maxFileSize) eqn:Esz.
    + apply collectItem_too_large with (content := content); auto.
      apply Z.gtb_lt in Esz. fold maxFileSize. lia.
    + apply collectItem_rejected with (sz := sz) (content := content); auto.
      rewrite Z.gtb_ltb in Esz. apply Z.ltb_ge in Esz. exact Esz.
  - destruct (collectFileContents_collectsWell rt w Hw here dirPath outputPath options d Hex)
      as (d' & counts & pieces & Hrun & Hart & _ & Hpieces).
    exists d', counts, pieces. split; [exact Hrun |]. split; [exact Hart |].
    intros r sz content Hr Hf Hsz _.
    assert (E : (sz >? maxFileSize) = true) by (apply Z.gtb_lt; lia).
    apply (Hpieces r); [exact Hr |]. unfold pieceOf. rewrite Hf.
    fold maxFileSize. now rewrite E.
Qed.

(** C10, witness: [big.bin], 11 bytes, exported with a limit of 10 bytes and
    the allow-list [.txt]. *)
Lemma size_check_precedes_extension_check_witness :
  (forall n, write_error (Example.holding Example.sizes) n = None)
  /\ (forall item, exists b,
        excluded Example.runtime (CollectOptions.exclude Example.upTo10) item = Ret b)
  /\ exists d' counts pieces,
       collectFileContents Example.runtime (Example.holding Example.sizes)
         Example.sizes "/root" "/out.txt" Example.upTo10 blank = (d', Ret counts)
       /\ artifact d' = artifact blank ++ pieces
       /\ (forall r sz content,
             In r (reachedFiles Example.runtime Example.sizes "/root" Example.upTo10) ->
             fileOf r = File sz content -> sz > 10 ->
             extensionRejected (Some [".txt"])
               (toLowerCase Example.runtime (path_extname Example.runtime (itemOf r)))
             = true ->
             In ("File: "
                 +++ path_relative Example.runtime
                       (path_dirname Example.runtime "/out.txt") (fullPathOf r)
                 +++ nl +++ "[FILE TOO LARGE: " +++ formatFileSize Example.runtime sz
                 +++ "]" +++ nl +++ CollectOptions.separator Example.upTo10)
                pieces).
Proof.
  assert (Hw : forall n, write_error (Example.holding Example.sizes) n = None)
    by reflexivity.
  assert (Hex : forall item, exists b,
             excluded Example.runtime (CollectOptions.exclude Example.upTo10) item = Ret b)
    by (intros item; exists false; reflexivity).
  split; [exact Hw |]. split; [exact Hex |].
  exact (proj2 (size_check_precedes_extension_check Example.runtime
                  (Example.holding Example.sizes) Example.sizes "/root" "/out.txt"
                  Example.upTo10 blank Hw Hex)).
Defined.

(** ** The whole export *)


(** On a root that is a directory, with writes that succeed and patterns that
    the engine accepts, exportFileContentsToFile succeeds, and its artifact
    is the header, then what the walk of the root appended, then the
    summary. *)
Lemma exportFileContentsToFile_artifact (rt : Runtime) (w : World) (s outputPath : string)
  (options : Options.t) (d : Disk) :
  let co := collectOptionsOf options in
  let root := at_path w (path_resolve rt s) in
  (forall n, write_error w n = None) ->
  (forall item, exists b, excluded rt (CollectOptions.exclude co) item = Ret b) ->
  s <> "" -> isDirectoryNode root = true ->
  exists d' r counts header pieces summary,
    exportFileContentsToFile rt w (JString s) outputPath options d = (d', Ret r)
    /\ ExportResult.success r = true
    /\ ExportResult.fileCount r = Some counts
    /\ artifact d' = header :: pieces ++ [summary]
    /\ (forall x piece,
          In x (reachedFiles rt root (path_resolve rt s) co) ->
          pieceOf rt (path_resolve rt outputPath) co x = Some piece ->
          In piece pieces).
Proof.
  intros co root Hw Hex Hs Hroot. subst root.
  assert (Hexists : existsSync (at_path w (path_resolve rt s)) = true)
    by (destruct (at_path w (path_resolve rt s)); try discriminate; reflexivity).
  assert (Hstat : statSync (at_path w (path_resolve rt s))
                  = Ret {| isDirectory := true; size := 0 |})
    by (destruct (at_path w (path_resolve rt s)); try discriminate; reflexivity).
  unfold exportFileContentsToFile.
  match goal with |- context [try_catch ?m ?h] => set (body := m); set (handler := h) end.
  assert (Hbody : exists d' r counts header pieces summary,
    body d = (d', Ret r)
    /\ ExportResult.success r = true
    /\ ExportResult.fileCount r = Some counts
    /\ artifact d' = header :: pieces ++ [summary]
    /\ (forall x piece,
          In x (reachedFiles rt (at_path w (path_resolve rt s)) (path_resolve rt s) co) ->
          pieceOf rt (path_resolve rt outputPath) co x = Some piece ->
          In piece pieces)).
  { unfold body. cbv zeta. cbn [string_of].
    rewrite (truthy_string s Hs), Hexists. cbn [negb is_string orb].
    erewrite bind_ret by (rewrite Hstat; reflexivity). cbn [isDirectory negb].
    erewrite bind_ret.
    2:{ unfold writeFileSync, write. rewrite Hw. reflexivity. }
    match goal with |- context [bind (collectFileContents rt w ?n ?p ?q ?o) _ ?d0] =>
      destruct (collectFileContents_collectsWell rt w Hw n p q o d0 Hex)
        as (d1 & counts & pieces & Hrun & Hart & _ & Hpieces) end.
    erewrite bind_ret by exact Hrun.
    erewrite bind_ret.
    2:{ unfold appendFileSync, write. rewrite Hw. reflexivity. }
    unfold bind, console_log, modify, ret. cbn [artifact] in *.
    eexists; eexists; exists counts; eexists; exists pieces; eexists.
    split; [reflexivity |]. cbn [ExportResult.success ExportResult.fileCount artifact].
    repeat split; [| exact Hpieces].
    rewrite Hart. cbn [app]. reflexivity. }
  destruct Hbody as (d' & r & counts & header & pieces & summary & Hrun & Hrest).
  exists d', r, counts, header, pieces, summary. split; [| exact Hrest].
  now apply try_catch_ret.
Qed.

(* ================================================================= *)
(** * Further properties of the code *)

(** ** printTree: the checks of the root *)

(** X1.  The checks of the root come in a fixed order and each failure logs
    one line, [Error: ] and the message, and returns [success = false] with
    the error: a path that is not a string with characters, then a path at
    which nothing exists, then a path that is not a directory.  Nothing is
    listed. *)
Theorem printTree_root_checks (rt : Runtime) (here : node) (directoryPath : jsvalue)
  (o : Options.t) (out : list Line) :
  let resolved := path_resolve rt (string_of directoryPath) in
  let rejected msg :=
    printTree_at rt logger here directoryPath o out
    = (out ++ [{| level := dflt 0 (Options.currentDepth o); style := error;
                  text := "Error: " +++ msg |}],
       Ret {| WalkResult.success := false; WalkResult.error := Some (MkError msg) |}) in
  (truthy directoryPath && is_string directoryPath = false ->
     rejected "Invalid directory path provided")
  /\ (truthy directoryPath && is_string directoryPath = true ->
      existsSync here = false ->
      rejected ("Directory does not exist: " +++ resolved))
  /\ (truthy directoryPath && is_string directoryPath = true ->
      existsSync here = true -> isDirectoryNode here = false ->
      rejected ("Path is not a directory: " +++ resolved)).
Proof.
  intros resolved rejected. unfold rejected.
  rewrite printTree_at_eq. unfold printTree_body.
  cbn [logger]; cbv beta iota delta [try_catch bind lift ret throw modify].
  repeat split.
  - intros H. apply andb_false_iff in H.
    destruct H as [-> | ->]; cbn [negb orb]; [| rewrite orb_true_r]; reflexivity.
  - intros H He. apply andb_true_iff in H. destruct H as [-> ->].
    cbn [negb orb]. rewrite He. reflexivity.
  - intros H He Hd. apply andb_true_iff in H. destruct H as [-> ->].
    cbn [negb orb]. rewrite He. cbn [negb].
    destruct here; try discriminate. reflexivity.
Qed.

(** X1, witness: [undefined] as the path. *)
Lemma printTree_root_checks_witness :
  truthy JUndefined && is_string JUndefined = false
  /\ printTree_at Example.runtime logger Example.scenario JUndefined Options.empty []
     = ([{| level := 0; style := error;
            text := "Error: Invalid directory path provided" |}],
        Ret {| WalkResult.success := false;
               WalkResult.error := Some (MkError "Invalid directory path provided") |}).
Proof.
  split; [reflexivity |].
  exact (proj1 (printTree_root_checks Example.runtime Example.scenario JUndefined
                  Options.empty []) eq_refl).
Defined.

(** ** printTree: a directory with nothing to show *)

Lemma filter_none {A} (f : A -> bool) (l : list A) :
  (forall x, In x l -> f x = false) -> filter f l = [].
Proof.
  induction l as [| a l IH]; intros H; cbn [filter]; [reflexivity |].
  rewrite (H a (or_introl eq_refl)). apply IH. intros x Hx. apply H. now right.
Qed.

(** X2.  A directory, within the depth limit, none of whose entries passes the
    filter (an empty directory among them) gets the single marker line
    [[empty]], after the line of its name if it is the root of the walk; the
    call returns [success = true] and no error. *)
Theorem printTree_nothing_to_show (rt : Runtime) (entries : list (string * node))
  (s : string) (o : Options.t) (out : list Line) :
  let d := dflt 0 (Options.currentDepth o) in
  let prefix := dflt "" (Options.prefix o) in
  s <> "" ->
  (dflt (-1) (Options.maxDepth o) >=? 0) && (d >? dflt (-1) (Options.maxDepth o)) = false ->
  (forall e, In e entries ->
     shown (dflt false (Options.showHidden o)) (dflt [] (Options.exclude o)) (fst e)
     = false) ->
  printTree_at rt logger (Dir entries) (JString s) o out
  = (out
     ++ (if d =? 0
         then [{| level := d; style := info;
                  text := prefix +++ path_basename rt (path_resolve rt s) +++ "/" |}]
         else [])
     ++ [{| level := d; style := info; text := prefix +++ "└── [empty]" |}],
     Ret {| WalkResult.success := true; WalkResult.error := None |}).
Proof.
  intros d prefix Hs Hcut Hnone.
  rewrite printTree_at_eq. unfold printTree_body. fold d prefix.
  cbv beta iota delta [try_catch bind lift ret throw readdirSync existsSync statSync
                       isDirectory].
  rewrite (truthy_string s Hs), Hcut. cbn [negb is_string orb string_of].
  rewrite filter_none.
  2:{ intros it Hit. apply in_map_iff in Hit. destruct Hit as (e & <- & He).
      cbn [name]. now apply Hnone. }
  cbn [js_sort fold_right printItems List.length Z.of_nat Z.eqb].
  cbn [logger]; unfold ret, modify.
  destruct (d =? 0); cbn beta iota; rewrite <- ?app_assoc; reflexivity.
Qed.

(** X2, witness: the root [/root], empty. *)
Lemma printTree_nothing_to_show_witness :
  "/root" <> ""
  /\ printTree_at Example.runtime logger (Dir []) (JString "/root") Options.empty []
     = ([{| level := 0; style := info; text := "root/" |};
         {| level := 0; style := info; text := "└── [empty]" |}],
        Ret {| WalkResult.success := true; WalkResult.error := None |}).
Proof.
  assert (Hs : "/root" <> "") by discriminate.
  split; [exact Hs |].
  exact (printTree_nothing_to_show Example.runtime [] "/root" Options.empty []
           Hs eq_refl (fun e H => match H with end)).
Defined.

(** ** exportTreeToFile *)

(** X3.  exportTreeToFile fails only if the write of the output file fails.
    Whatever the root is (also a missing one, or a value that is not a path),
    it writes the lines of the walk, joined by line feeds, as the whole
    content of the file and returns [success = true], with the error of the
    walk, if any, in [error]. *)
Theorem exportTreeToFile_outcome (rt : Runtime) (w : World) (directoryPath : jsvalue)
  (outputPath : string) (options : Options.t) (d : Disk) :
  exists lines walk d' r,
    printTree rt logger w directoryPath options [] = (lines, Ret walk)
    /\ exportTreeToFile rt w directoryPath outputPath options d = (d', Ret r)
    /\ attempts d' = S (attempts d)
    /\ match write_error w (attempts d) with
       | None =>
           ExportResult.success r = true
           /\ artifact d' = [join_lines (map (plain rt) lines)]
           /\ ExportResult.error r = WalkResult.error walk
           /\ ExportResult.filePath r = Some (path_resolve rt outputPath)
       | Some e =>
           ExportResult.success r = false
           /\ artifact d' = artifact d
           /\ ExportResult.error r = Some e
           /\ ExportResult.filePath r = None
       end.
Proof.
  destruct (printTree_returns rt w directoryPath options []) as (lines & walk & Hwalk).
  exists lines, walk. unfold exportTreeToFile.
  unfold try_catch, bind, collecting, writeFileSync, write, console_log, modify, ret.
  rewrite Hwalk. cbn [fst snd].
  destruct (write_error w (attempts d)) as [e |];
    (eexists; eexists; split; [exact eq_refl |]; split; [reflexivity |];
     repeat split; reflexivity).
Qed.

(** ** exportFileContentsToFile: the checks of the root *)

(** X4.  exportFileContentsToFile checks the root before it touches the
    output file: for a path that is not a string with characters, or at which
    [statSync] finds no directory, it returns [success = false] and has
    written and read nothing. *)
Theorem exportFileContentsToFile_rejects_bad_root (rt : Runtime) (w : World)
  (directoryPath : jsvalue) (outputPath : string) (options : Options.t) (d : Disk) :
  truthy directoryPath && is_string directoryPath = false
  \/ isDirectoryNode (at_path w (path_resolve rt (string_of directoryPath))) = false ->
  exists d' r,
    exportFileContentsToFile rt w directoryPath outputPath options d = (d', Ret r)
    /\ ExportResult.success r = false
    /\ ExportResult.filePath r = None
    /\ artifact d' = artifact d /\ attempts d' = attempts d /\ reads d' = reads d.
Proof.
  intros H. unfold exportFileContentsToFile.
  cbv beta iota zeta delta [try_catch bind lift ret throw console_log modify].
  destruct (negb (truthy directoryPath) || negb (is_string directoryPath)) eqn:Hv.
  { eexists; eexists; split; [reflexivity |]. repeat split. }
  destruct H as [H | H].
  { apply andb_false_iff in H. destruct H as [H | H]; rewrite H in Hv;
      cbn [negb orb] in Hv; [| rewrite orb_true_r in Hv]; discriminate. }
  destruct (at_path w (path_resolve rt (string_of directoryPath)));
    try discriminate; cbn [existsSync statSync isDirectory negb];
    (eexists; eexists; split; [reflexivity |]; repeat split).
Qed.

(** X4, witness: nothing exists at [/missing]. *)
Lemma exportFileContentsToFile_rejects_bad_root_witness :
  exists d' r,
    exportFileContentsToFile Example.runtime (Example.holding Example.scenario)
      (JString "/missing") "/out.txt" Options.empty blank = (d', Ret r)
    /\ ExportResult.success r = false
    /\ ExportResult.filePath r = None
    /\ artifact d' = artifact blank /\ attempts d' = attempts blank
    /\ reads d' = reads blank.
Proof.
  exact (exportFileContentsToFile_rejects_bad_root Example.runtime
           (Example.holding Example.scenario) (JString "/missing") "/out.txt"
           Options.empty blank (or_intror eq_refl)).
Defined.

(** ** Exclusion lists without wildcards *)

(** X5.  With an exclusion list none of whose patterns has a [*], the test of
    the content export never reaches the regular-expression engine: it never
    raises, and it is the test of the tree and of the statistics, equality
    with an element of the list. *)
Theorem excluded_without_wildcards (rt : Runtime) (exclude : list string)
  (item : string) :
  Forall (fun pattern => includesStar pattern = false) exclude ->
  excluded rt exclude item = Ret (includes exclude item).
Proof.
  unfold excluded, includes. induction 1 as [| pattern rest Hp _ IH]; cbn [some existsb].
  - reflexivity.
  - rewrite Hp. destruct (String.eqb item pattern); [reflexivity | exact IH].
Qed.

(** X5, witness: the list with which the menu calls the content export. *)
Lemma excluded_without_wildcards_witness :
  Forall (fun pattern => includesStar pattern = false)
    ["node_modules"; ".git"; "dist"; "build"]
  /\ excluded Example.runtime ["node_modules"; ".git"; "dist"; "build"] "dist"
     = Ret true.
Proof.
  assert (H : Forall (fun pattern => includesStar pattern = false)
                ["node_modules"; ".git"; "dist"; "build"])
    by (repeat constructor).
  split; [exact H |].
  exact (excluded_without_wildcards Example.runtime _ "dist" H).
Defined.

(** ** printTree: one line for each item, in the order of the sort *)

Lemma ownLines_app (d : Z) (l1 l2 : list Line) :
  ownLines d (l1 ++ l2) = ownLines d l1 ++ ownLines d l2.
Proof. apply filter_app. Qed.

Lemma ownLines_deeper (d : Z) (lines : list Line) :
  Forall (fun l => d + 1 <= level l) lines -> ownLines d lines = [].
Proof.
  intros H. apply filter_none. intros l Hl.
  rewrite Forall_forall in H. apply Z.eqb_neq. specialize (H l Hl). lia.
Qed.

Lemma ownLines_own (d : Z) (lines : list Line) :
  Forall (fun l => level l = d) lines -> ownLines d lines = lines.
Proof.
  induction 1 as [| l lines Hl _ IH]; cbn [ownLines filter]; [reflexivity |].
  rewrite Hl, Z.eqb_refl. f_equal. exact IH.
Qed.

Section TreeItems.
Variable rt : Runtime.

Section Items.
Variables (options : Options.t) (resolvedPath prefix : string)
          (showSize : bool) (d : Z).

(** One turn of the loop logs the line of its item and, after it, only
    deeper lines. *)
Lemma printItem_shape (it : Entry Walk) (isLast : bool) (resultError : option Error)
  (out : list Line) :
  visit it = printTree_at rt logger (target it) -> walksBelow rt (target it) ->
  exists deeper resultError',
    printItem rt logger options resolvedPath prefix showSize d it isLast resultError out
    = (out ++ itemLine rt prefix showSize d it isLast :: deeper, Ret resultError')
    /\ Forall (fun x => d + 1 <= level x) deeper.
Proof.
  intros Hv Hw. unfold printItem, itemLine. rewrite Hv.
  cbn [logger]; unfold try_catch, bind, lift, modify, ret.
  destruct (target it) as [sz c | entries | e | e] eqn:Ht;
    cbn [statSync isDirectory size negb].
  - exists [], resultError. split; [| constructor].
    destruct showSize, isLast; reflexivity.
  - match goal with |- context [printTree_at rt logger ?n ?p ?o ?s] =>
      destruct (Hw p o s) as (lines & r & Hrun & Hlev) end.
    rewrite Hrun. cbn [Options.descend Options.currentDepth dflt] in Hlev.
    exists lines.
    exists (if negb (WalkResult.success r) then WalkResult.error r else resultError).
    split; [| exact Hlev].
    rewrite <- app_assoc.
    destruct (negb (WalkResult.success r)), showSize, isLast; reflexivity.
  - match goal with |- context [printTree_at rt logger ?n ?p ?o ?s] =>
      destruct (Hw p o s) as (lines & r & Hrun & Hlev) end.
    rewrite Hrun. cbn [Options.descend Options.currentDepth dflt] in Hlev.
    exists lines.
    exists (if negb (WalkResult.success r) then WalkResult.error r else resultError).
    split; [| exact Hlev].
    rewrite <- app_assoc.
    destruct (negb (WalkResult.success r)), showSize, isLast; reflexivity.
  - exists [], resultError. split; [| constructor].
    destruct isLast; reflexivity.
Qed.

Lemma printItems_shape (items : list (Entry Walk)) :
  Forall (fun it => visit it = printTree_at rt logger (target it) /\ walksBelow rt (target it))
         items ->
  forall resultError out, exists lines resultError',
    printItems rt logger options resolvedPath prefix showSize d items resultError out
    = (out ++ lines, Ret resultError')
    /\ Forall (fun l => d <= level l) lines
    /\ ownLines d lines = itemLines rt prefix showSize d items.
Proof.
  induction 1 as [| it rest [Hv Hw] _ IH]; intros resultError out.
  - exists [], resultError. cbn [printItems]. unfold ret. rewrite app_nil_r.
    repeat split; constructor.
  - cbn [printItems].
    destruct (printItem_shape it (match rest with [] => true | _ => false end)
                resultError out Hv Hw)
      as (deeper & e1 & Hrun1 & Hdeeper).
    set (l := itemLine rt prefix showSize d it _) in *.
    assert (Hl : level l = d) by (unfold l, itemLine; destruct (target it); reflexivity).
    destruct (IH e1 (out ++ l :: deeper)) as (lines & e2 & Hrun2 & Hlev & Hown).
    exists ((l :: deeper) ++ lines), e2. split.
    { erewrite bind_ret by exact Hrun1. rewrite Hrun2. now rewrite app_assoc. }
    split.
    + apply Forall_app. split; [| exact Hlev]. constructor.
      * lia.
      * eapply Forall_impl; [| exact Hdeeper]. cbn beta. intros; lia.
    + rewrite ownLines_app. cbn [ownLines filter itemLines].
      rewrite Hl, Z.eqb_refl.
      fold (ownLines d deeper). rewrite (ownLines_deeper d deeper Hdeeper).
      cbn [app]. fold l. f_equal. exact Hown.
Qed.
End Items.

Lemma printTree_at_walksBelow (n : node) : walksBelow rt n.
Proof.
  induction n as [sz c | entries IH | e | e] using node_induction;
    intros p o out; rewrite printTree_at_eq; unfold printTree_body;
    cbv beta iota delta [try_catch bind lift ret throw readdirSync existsSync statSync
                         isDirectory negb].
  - destruct (_ || _); cbn [logger]; unfold modify;
      (eexists [_], _; split; [reflexivity |]; repeat constructor; cbn [level]; lia).
  - destruct (_ || _).
    { cbn [logger]; unfold modify. eexists [_], _. split; [reflexivity |].
      repeat constructor; cbn [level]; lia. }
    destruct (_ && _).
    { exists [], {| WalkResult.success := true; WalkResult.error := None |}.
      rewrite app_nil_r. split; [reflexivity | constructor]. }
    set (d := dflt 0 (Options.currentDepth o)).
    set (header := if d =? 0 then _ else _).
    assert (Hh : exists hl, header out = (out ++ hl, Ret tt)
                            /\ Forall (fun l => level l = d) hl).
    { unfold header. destruct (d =? 0).
      - cbn [logger]; unfold modify. eexists [_]. split; [reflexivity |].
        repeat constructor.
      - exists []. rewrite app_nil_r. split; [reflexivity | constructor]. }
    destruct Hh as (hl & -> & Hhl).
    set (items := js_sort _ _).
    assert (Hitems : Forall (fun it => visit it = printTree_at rt logger (target it)
                                       /\ walksBelow rt (target it)) items).
    { apply Forall_forall. intros it Hit.
      apply js_sort_In, filter_In in Hit. destruct Hit as [Hit _].
      apply in_map_iff in Hit. destruct Hit as (e & <- & He).
      cbn [visit target]. split; [reflexivity |].
      rewrite Forall_forall in IH. now apply IH. }
    destruct (printItems_shape o (path_resolve rt (string_of p))
                (dflt "" (Options.prefix o)) (dflt false (Options.showSize o)) d items
                Hitems None (out ++ hl)) as (lines & e' & Hrun & Hlev & _).
    cbn [WalkResult.error WalkResult.success]. rewrite Hrun.
    destruct (Z.of_nat (List.length items) =? 0); cbn [logger]; unfold modify; cbn beta iota.
    + eexists (hl ++ lines ++ [_]), _. rewrite <- !app_assoc. split; [reflexivity |].
      repeat (apply Forall_app; split); try exact Hlev.
      * eapply Forall_impl; [| exact Hhl]. cbn beta. intros; lia.
      * repeat constructor. cbn [level]. lia.
    + eexists (hl ++ lines), _. rewrite <- !app_assoc. split; [reflexivity |].
      apply Forall_app; split; [| exact Hlev].
      eapply Forall_impl; [| exact Hhl]. cbn beta. intros; lia.
  - destruct (_ || _).
    { cbn [logger]; unfold modify. eexists [_], _. split; [reflexivity |].
      repeat constructor; cbn [level]; lia. }
    destruct (_ && _).
    { exists [], {| WalkResult.success := true; WalkResult.error := None |}.
      rewrite app_nil_r. split; [reflexivity | constructor]. }
    destruct (dflt 0 (Options.currentDepth o) =? 0); cbn [logger]; unfold modify;
      cbn beta iota.
    + eexists [_; _], _. rewrite <- app_assoc. split; [reflexivity |].
      repeat constructor; cbn [level]; lia.
    + eexists [_], _. split; [reflexivity |]. repeat constructor; cbn [level]; lia.
  - destruct (_ || _); cbn [logger]; unfold modify;
      (eexists [_], _; split; [reflexivity |]; repeat constructor; cbn [level]; lia).
Qed.
End TreeItems.

(** The lines that a call on a directory logs at its own level. *)
Lemma printTree_at_own_lines (rt : Runtime) (entries : list (string * node))
  (s : string) (o : Options.t) (out : list Line) :
  let d := dflt 0 (Options.currentDepth o) in
  let prefix := dflt "" (Options.prefix o) in
  let items := itemsOf rt o entries in
  s <> "" ->
  (dflt (-1) (Options.maxDepth o) >=? 0) && (d >? dflt (-1) (Options.maxDepth o)) = false ->
  exists lines r,
    printTree_at rt logger (Dir entries) (JString s) o out = (out ++ lines, Ret r)
    /\ Forall (fun l => d <= level l) lines
    /\ ownLines d lines
       = (if d =? 0
          then [{| level := 0; style := info;
                   text := prefix +++ path_basename rt (path_resolve rt s) +++ "/" |}]
          else [])
         ++ itemLines rt prefix (dflt false (Options.showSize o)) d items
         ++ match items with
            | [] => [{| level := d; style := info; text := prefix +++ "└── [empty]" |}]
            | _ :: _ => []
            end.
Proof.
  intros d prefix items Hs Hcut.
  rewrite printTree_at_eq. unfold printTree_body. fold d prefix.
  cbv beta iota delta [try_catch bind lift ret throw readdirSync existsSync statSync
                       isDirectory].
  rewrite (truthy_string s Hs), Hcut. cbn [negb is_string orb string_of].
  fold (itemsOf rt o entries). fold items.
  assert (Hitems : Forall (fun it => visit it = printTree_at rt logger (target it)
                                     /\ walksBelow rt (target it)) items).
  { apply Forall_forall. intros it Hit.
    apply js_sort_In, filter_In in Hit. destruct Hit as [Hit _].
    apply in_map_iff in Hit. destruct Hit as (e & <- & He).
    cbn [visit target]. split; [reflexivity | apply printTree_at_walksBelow]. }
  set (hl := if d =? 0 then [{| level := 0; style := info;
                                text := prefix +++ path_basename rt (path_resolve rt s)
                                        +++ "/" |}]
             else []).
  assert (Hh : (if d =? 0
                then logger d info (prefix +++ path_basename rt (path_resolve rt s) +++ "/")
                else fun s0 => (s0, Ret tt)) out = (out ++ hl, Ret tt)
               /\ Forall (fun l => level l = d) hl).
  { unfold hl. destruct (d =? 0) eqn:Hd0.
    - apply Z.eqb_eq in Hd0. cbn [logger]; unfold modify. rewrite Hd0.
      split; [reflexivity | repeat constructor].
    - rewrite app_nil_r. split; [reflexivity | constructor]. }
  destruct Hh as (-> & Hhl).
  destruct (printItems_shape rt o (path_resolve rt s) prefix
              (dflt false (Options.showSize o)) d items Hitems None (out ++ hl))
    as (lines & e' & Hrun & Hlev & Hown).
  cbn [WalkResult.error WalkResult.success]. rewrite Hrun.
  set (ml := match items with
             | [] => [{| level := d; style := info; text := prefix +++ "└── [empty]" |}]
             | _ :: _ => []
             end).
  assert (Hm : (if Z.of_nat (List.length items) =? 0
                then logger d info (prefix +++ "└── [empty]")
                else fun s0 => (s0, Ret tt)) ((out ++ hl) ++ lines)
               = (out ++ hl ++ lines ++ ml, Ret tt)
               /\ Forall (fun l => level l = d) ml).
  { unfold ml. destruct items as [| it rest].
    - cbn [logger List.length Z.of_nat Z.eqb]; unfold modify. rewrite <- !app_assoc.
      split; [reflexivity | repeat constructor].
    - replace (Z.of_nat (List.length (it :: rest)) =? 0) with false
        by (symmetry; apply Z.eqb_neq; cbn [List.length]; lia).
      rewrite app_nil_r, <- !app_assoc. split; [reflexivity | constructor]. }
  destruct Hm as (-> & Hml).
  exists (hl ++ lines ++ ml), {| WalkResult.success := true; WalkResult.error := e' |}.
  split; [reflexivity |]. split.
  - repeat (apply Forall_app; split); try exact Hlev;
      (eapply Forall_impl; [| eassumption]); cbn beta; intros; lia.
  - rewrite !ownLines_app, (ownLines_own d hl Hhl), (ownLines_own d ml Hml), Hown.
    reflexivity.
Qed.

(** The items of a listing are the entries that pass the filter, in some
    order. *)
Lemma itemsOf_permutation (rt : Runtime) (o : Options.t) (entries : list (string * node)) :
  Permutation
    (map (fun it : Entry Walk => (name it, target it)) (itemsOf rt o entries))
    (filter (fun e => shown (dflt false (Options.showHidden o))
                        (dflt [] (Options.exclude o)) (fst e)) entries).
Proof.
  unfold itemsOf. rewrite js_sort_permutation.
  induction entries as [| [item child] rest IH]; [constructor |].
  cbn [map filter fst snd name].
  destruct (shown _ _ item); cbn [map name target]; [constructor |]; exact IH.
Qed.

Lemma Sorted_app_inv {A} (R : A -> A -> Prop) (l1 l2 : list A) :
  Sorted R (l1 ++ l2) -> Sorted R l1 /\ Sorted R l2.
Proof.
  induction l1 as [| a l1 IH]; cbn [app]; intros H; [split; [constructor | exact H] |].
  inversion H as [| ? ? Hs Hhd]; subst. destruct (IH Hs) as [H1 H2].
  split; [| exact H2]. constructor; [exact H1 |].
  destruct l1; [constructor |]. inversion Hhd; subst. now constructor.
Qed.

Lemma Sorted_among {A} (P : A -> Prop) (R R' : A -> A -> Prop) (l : list A) :
  (forall a b, P a -> P b -> R a b -> R' a b) ->
  Forall P l -> Sorted R l -> Sorted R' l.
Proof.
  intros Himp Hall Hs. induction Hs as [| a l Hs IH Hhd]; [constructor |].
  inversion Hall as [| ? ? Ha Hl]; subst. constructor; [now apply IH |].
  destruct Hhd as [| b l Hab]; constructor.
  inversion Hl; subst. now apply Himp.
Qed.

(** X6.  The call on a directory that can be listed, within the depth limit,
    where [statSync] returns for every entry and [localeCompare] compares any
    two names one way or the other.  At its own level the call logs the line
    of its name (if it is the root of the walk), then one line for each item
    that passes the filter, then the marker [[empty]] if there is no item;
    every other line of the walk is deeper.  The items are the entries that
    pass the filter, the directories first, then the files, each group in
    the order of [localeCompare]; the line of an item is the prefix, the
    connector ([└── ] for the last item, [├── ] for the others), the name,
    and a slash for a directory, or the size in brackets for a file when
    sizes are shown. *)
Theorem printTree_one_line_per_item (rt : Runtime) (entries : list (string * node))
  (s : string) (o : Options.t) (out : list Line) :
  let d := dflt 0 (Options.currentDepth o) in
  let prefix := dflt "" (Options.prefix o) in
  let items := itemsOf rt o entries in
  s <> "" ->
  (dflt (-1) (Options.maxDepth o) >=? 0) && (d >? dflt (-1) (Options.maxDepth o)) = false ->
  Forall (fun e => existsSync (snd e) = true) entries ->
  (forall a b, localeCompare rt a b <= 0 \/ localeCompare rt b a <= 0) ->
  exists lines r dirs files,
    printTree_at rt logger (Dir entries) (JString s) o out = (out ++ lines, Ret r)
    /\ Forall (fun l => d <= level l) lines
    /\ ownLines d lines
       = (if d =? 0
          then [{| level := 0; style := info;
                   text := prefix +++ path_basename rt (path_resolve rt s) +++ "/" |}]
          else [])
         ++ itemLines rt prefix (dflt false (Options.showSize o)) d items
         ++ match items with
            | [] => [{| level := d; style := info; text := prefix +++ "└── [empty]" |}]
            | _ :: _ => []
            end
    /\ Permutation
         (map (fun it : Entry Walk => (name it, target it)) items)
         (filter (fun e => shown (dflt false (Options.showHidden o))
                             (dflt [] (Options.exclude o)) (fst e)) entries)
    /\ items = dirs ++ files
    /\ Forall (fun it => isDirectoryNode (target it) = true) dirs
    /\ Forall (fun it => isDirectoryNode (target it) = false) files
    /\ Sorted (fun a b => localeCompare rt (name a) (name b) <= 0) dirs
    /\ Sorted (fun a b => localeCompare rt (name a) (name b) <= 0) files.
Proof.
  intros d prefix items Hs Hcut Hstat Htotal.
  destruct (printTree_at_own_lines rt entries s o out Hs Hcut)
    as (lines & r & Hrun & Hlev & Hown).
  assert (Hclassified : Forall (fun it : Entry Walk => existsSync (target it) = true)
                          (filter (fun it => shown (dflt false (Options.showHidden o))
                                               (dflt [] (Options.exclude o)) (name it))
                             (map (fun e => {| name := fst e; target := snd e;
                                               visit := printTree_at rt logger (snd e) |})
                                entries))).
  { apply Forall_forall. intros it Hit. apply filter_In in Hit. destruct Hit as [Hit _].
    apply in_map_iff in Hit. destruct Hit as (e & <- & He). cbn [target].
    rewrite Forall_forall in Hstat. now apply Hstat. }
  destruct (directories_first_when_classified rt _ Htotal Hclassified)
    as (Hsorted & dirs & files & Hsplit & Hdirs & Hfiles).
  fold (itemsOf rt o entries) in Hsorted, Hsplit. fold items in Hsorted, Hsplit.
  exists lines, r, dirs, files.
  split; [exact Hrun |]. split; [exact Hlev |]. split; [exact Hown |].
  split; [apply itemsOf_permutation |]. split; [exact Hsplit |].
  split; [exact Hdirs |]. split; [exact Hfiles |].
  rewrite Hsplit in Hsorted. apply Sorted_app_inv in Hsorted.
  destruct Hsorted as [Hsd Hsf]. split.
  - eapply Sorted_among; [| exact Hdirs | exact Hsd]. cbn beta.
    intros a b Ha Hb. unfold compareItems.
    destruct (target a), (target b); try discriminate; cbn; trivial.
  - assert (Hfiles' : Forall (fun it : Entry Walk =>
                                 isDirectoryNode (target it) = false
                                 /\ existsSync (target it) = true) files).
    { apply Forall_forall. intros x Hx. split.
      - rewrite Forall_forall in Hfiles. now apply Hfiles.
      - rewrite Forall_forall in Hclassified.
        apply Hclassified. apply (js_sort_In (compareItems rt)).
        fold (itemsOf rt o entries). fold items. rewrite Hsplit.
        apply in_or_app. now right. }
    eapply Sorted_among; [| exact Hfiles' | exact Hsf]. cbn beta.
    intros a b [Ha Ha'] [Hb Hb']. unfold compareItems.
    destruct (target a), (target b); try discriminate; cbn; trivial.
Qed.

Lemma compareNames_total (a b : string) :
  Example.compareNames a b <= 0 \/ Example.compareNames b a <= 0.
Proof.
  unfold Example.compareNames. rewrite (String.compare_antisym b a).
  destruct (String.compare a b); cbn; lia.
Qed.

(** X6, witness: the scenario tree, whose root lists [b/] then [a.txt]. *)
Lemma printTree_one_line_per_item_witness :
  "/root" <> ""
  /\ exists lines r,
       printTree_at Example.runtime logger Example.scenario (JString "/root")
         Options.empty []
       = ([] ++ lines, Ret r)
       /\ ownLines 0 lines
          = [{| level := 0; style := info; text := "root/" |};
             {| level := 0; style := info; text := "├── b/" |};
             {| level := 0; style := info; text := "└── a.txt" |}].
Proof.
  assert (Hs : "/root" <> "") by discriminate.
  split; [exact Hs |].
  destruct (printTree_one_line_per_item Example.runtime
              [("a.txt", File 5 (Ret "hello"));
               ("b", Dir [(".hidden", File 1 (Ret "x"));
                          ("c.js", File 10 (Ret "let a = 1;"))])]
              "/root" Options.empty [] Hs eq_refl)
    as (lines & r & dirs & files & Hrun & _ & Hown & _).
  - repeat constructor.
  - exact compareNames_total.
  - exists lines, r. split; [exact Hrun |].
    etransitivity; [exact Hown | reflexivity].
Defined.

(** ** The filter of the tree *)

(** C5, counterexample.  With [exclude = ["*.js"]] the wildcard matcher
    accepts [c.js], yet the tree lists [c.js]. *)
Lemma tree_lists_what_a_wildcard_matches :
  minimatch Example.runtime "c.js" "*.js" = Ret true
  /\ In "│   └── c.js"
       (map text
          (fst (printTree Example.runtime logger (Example.holding Example.scenario)
                  (JString "/root") (Example.excluding ["*.js"]) []))).
Proof.
  split; [reflexivity | vm_compute; auto].
Qed.

(** C5, as amended.  TreeRenderer filters the entries of each directory before
    it orders them, by the hidden-file rule and by exact string equality with
    the elements of [exclude]; a pattern with [*] is one more name.  An entry
    passes the filter exactly when it is not hidden and its name is no element
    of [exclude].  The call on a directory that can be listed, within the depth
    limit, logs at its own level the line of its name (if it is the root of
    the walk), then the lines of its items, one for each entry that passes the
    filter and for no other, then the marker [[empty]] if no entry passes.
    The tree of a directory is the tree of the same directory without the
    entries that are hidden or named in [exclude]. *)
Theorem tree_filter_is_by_exact_name (rt : Runtime) (entries : list (string * node))
  (s : string) (options : Options.t) (out : list Line) :
  let showHidden := dflt false (Options.showHidden options) in
  let exclude := dflt [] (Options.exclude options) in
  let d := dflt 0 (Options.currentDepth options) in
  let prefix := dflt "" (Options.prefix options) in
  s <> "" ->
  (dflt (-1) (Options.maxDepth options) >=? 0)
  && (d >? dflt (-1) (Options.maxDepth options)) = false ->
  (forall item, shown showHidden exclude item = true
                <-> keptByName showHidden exclude item)
  /\ (exists lines r (items : list (Entry Walk)),
        printTree_at rt logger (Dir entries) (JString s) options out
        = (out ++ lines, Ret r)
        /\ Permutation (map (fun it => (name it, target it)) items)
             (filter (fun e => shown showHidden exclude (fst e)) entries)
        /\ ownLines d lines
           = (if d =? 0
              then [{| level := 0; style := info;
                       text := prefix +++ path_basename rt (path_resolve rt s) +++ "/" |}]
              else [])
             ++ itemLines rt prefix (dflt false (Options.showSize options)) d items
             ++ match items with
                | [] => [{| level := d; style := info;
                            text := prefix +++ "└── [empty]" |}]
                | _ :: _ => []
                end
        /\ Forall (fun l => d <= level l) lines)
  /\ printTree_at rt logger (Dir entries) (JString s) options out
     = printTree_at rt logger
         (Dir (filter (fun e => shown showHidden exclude (fst e)) entries))
         (JString s) options out.
Proof.
  intros showHidden exclude d prefix Hs Hcut.
  split; [intros item; apply shown_iff |]. split.
  - destruct (printTree_at_own_lines rt entries s options out Hs Hcut)
      as (lines & r & Hrun & Hlev & Hown).
    exists lines, r, (itemsOf rt options entries).
    split; [exact Hrun |]. split; [apply itemsOf_permutation |].
    split; [exact Hown | exact Hlev].
  - rewrite !printTree_at_eq. unfold printTree_body.
    fold showHidden exclude.
    cbv beta iota delta [try_catch bind lift ret throw readdirSync existsSync statSync
                         isDirectory negb].
    destruct (_ || _); [reflexivity |].
    destruct (_ && _); [reflexivity |].
    set (g := fun e : string * node =>
                {| name := fst e; target := snd e;
                   visit := printTree_at rt logger (snd e) |}).
    rewrite (filter_map_filter
               (fun it : Entry Walk => shown showHidden exclude (name it)) g).
    reflexivity.
Qed.

(** C5, witness: the scenario tree with [exclude = ["*.js"; "a.txt"]]: the
    root shows [b/] alone, and below it [c.js] is shown. *)
Lemma tree_filter_is_by_exact_name_witness :
  "/root" <> ""
  /\ exists lines r,
       printTree_at Example.runtime logger Example.scenario (JString "/root")
         (Example.excluding ["*.js"; "a.txt"]) []
       = ([] ++ lines, Ret r)
       /\ ownLines 0 lines
          = [{| level := 0; style := info; text := "root/" |};
             {| level := 0; style := info; text := "└── b/" |}]
       /\ map text lines = ["root/"; "└── b/"; "    └── c.js"].
Proof.
  assert (Hs : "/root" <> "") by discriminate.
  split; [exact Hs |].
  destruct (tree_filter_is_by_exact_name Example.runtime
              [("a.txt", File 5 (Ret "hello"));
               ("b", Dir [(".hidden", File 1 (Ret "x"));
                          ("c.js", File 10 (Ret "let a = 1;"))])]
              "/root" (Example.excluding ["*.js"; "a.txt"]) [] Hs eq_refl)
    as (_ & (lines & r & items & Hrun & _ & _ & _) & _).
  exists lines, r. split; [exact Hrun |].
  vm_compute in Hrun. injection Hrun as <- _. split; reflexivity.
Defined.

(** ** The counters of the statistics *)

Lemma sizeOf_app (l1 l2 : list LargeFile.t) : sizeOf (l1 ++ l2) = sizeOf l1 + sizeOf l2.
Proof.
  induction l1 as [| f l1 IH]; cbn [sizeOf app fold_right]; [reflexivity |].
  fold (sizeOf (l1 ++ l2)). fold (sizeOf l1). rewrite IH. lia.
Qed.

Lemma trackType_keys (ext : string) (sz : Z) (fileTypes : list (string * TypeStats.t))
  (k : string) :
  In k (map fst (trackType ext sz fileTypes)) <-> k = ext \/ In k (map fst fileTypes).
Proof.
  induction fileTypes as [| [k0 v] rest IH]; cbn [trackType map fst In].
  - intuition.
  - destruct (String.eqb k0 ext) eqn:E; cbn [map fst In].
    + apply String.eqb_eq in E. subst. intuition.
    + rewrite IH. intuition.
Qed.

Lemma trackType_count (ext : string) (sz : Z) (fileTypes : list (string * TypeStats.t)) :
  countOfTypes (trackType ext sz fileTypes) = countOfTypes fileTypes + 1
  /\ sizeOfTypes (trackType ext sz fileTypes) = sizeOfTypes fileTypes + sz.
Proof.
  induction fileTypes as [| [k0 v] rest [IHc IHs]];
    cbn [trackType countOfTypes sizeOfTypes fold_right snd TypeStats.count TypeStats.size].
  - split; lia.
  - destruct (String.eqb k0 ext);
      cbn [countOfTypes sizeOfTypes fold_right snd TypeStats.count TypeStats.size];
      fold (countOfTypes rest) (sizeOfTypes rest).
    + split; lia.
    + fold (countOfTypes (trackType ext sz rest)) (sizeOfTypes (trackType ext sz rest)).
      rewrite IHc, IHs. split; lia.
Qed.

Lemma trackType_NoDup (ext : string) (sz : Z) (fileTypes : list (string * TypeStats.t)) :
  NoDup (map fst fileTypes) -> NoDup (map fst (trackType ext sz fileTypes)).
Proof.
  induction fileTypes as [| [k0 v] rest IH]; cbn [trackType map fst]; intros H.
  - repeat constructor. intros [].
  - inversion H as [| ? ? Hnotin Hrest]; subst.
    destruct (String.eqb k0 ext) eqn:E; cbn [map fst].
    + now constructor.
    + constructor; [| now apply IH].
      rewrite trackType_keys. intros [-> | Hin]; [| contradiction].
      rewrite String.eqb_refl in E. discriminate.
Qed.

Lemma trackType_nonempty_keys (ext : string) (sz : Z)
  (fileTypes : list (string * TypeStats.t)) :
  ext <> "" ->
  Forall (fun bucket => fst bucket <> "") fileTypes ->
  Forall (fun bucket => fst bucket <> "") (trackType ext sz fileTypes).
Proof.
  intros Hext. induction 1 as [| [k0 v] rest Hk Hrest IH]; cbn [trackType].
  - repeat constructor. exact Hext.
  - destruct (String.eqb k0 ext); constructor; assumption.
Qed.

Lemma orNoExtension_nonempty (s : string) : orNoExtension s <> "".
Proof.
  unfold orNoExtension. destruct (String.eqb s "") eqn:E; [discriminate |].
  intros ->. rewrite String.eqb_refl in E. discriminate.
Qed.

Section StatsTallies.
Variable rt : Runtime.

Lemma statsItems_tallies (dirPath : string) (options : StatsOptions.t)
  (entries : list (string * node)) :
  Forall (fun e => talliesWell rt (snd e)) entries ->
  forall stats, exists stats',
    statsItems rt dirPath options
      (map (fun e => {| name := fst e; target := snd e;
                        visit := collectDirectoryStats rt (snd e) |}) entries) stats
    = (stats', Ret tt)
    /\ let files := flat_map (visitedEntry rt (visitedFiles rt) dirPath options) entries in
       let dirs := flat_map (countedEntry rt (countedDirectories rt) dirPath options)
                     entries in
       DirectoryStats.totalFiles stats'
       = DirectoryStats.totalFiles stats + Z.of_nat (List.length files)
       /\ DirectoryStats.totalSize stats' = DirectoryStats.totalSize stats + sizeOf files
       /\ DirectoryStats.totalDirectories stats'
          = DirectoryStats.totalDirectories stats + Z.of_nat (List.length dirs)
       /\ countOfTypes (DirectoryStats.fileTypes stats')
          = countOfTypes (DirectoryStats.fileTypes stats) + Z.of_nat (List.length files)
       /\ sizeOfTypes (DirectoryStats.fileTypes stats')
          = sizeOfTypes (DirectoryStats.fileTypes stats) + sizeOf files
       /\ (NoDup (map fst (DirectoryStats.fileTypes stats)) ->
           NoDup (map fst (DirectoryStats.fileTypes stats')))
       /\ (Forall (fun bucket => fst bucket <> "") (DirectoryStats.fileTypes stats) ->
           Forall (fun bucket => fst bucket <> "") (DirectoryStats.fileTypes stats')).
Proof.
  induction 1 as [| [item child] rest Hchild _ IH]; intros stats.
  - exists stats. split; [reflexivity |]. cbn. repeat split; try lia; auto.
  - cbn [map statsItems flat_map].
    assert (Hturn : exists stats1,
      statsItem rt dirPath options
        {| name := item; target := child; visit := collectDirectoryStats rt child |} stats
      = (stats1, Ret tt)
      /\ let files := visitedEntry rt (visitedFiles rt) dirPath options (item, child) in
         let dirs := countedEntry rt (countedDirectories rt) dirPath options (item, child) in
         DirectoryStats.totalFiles stats1
         = DirectoryStats.totalFiles stats + Z.of_nat (List.length files)
         /\ DirectoryStats.totalSize stats1 = DirectoryStats.totalSize stats + sizeOf files
         /\ DirectoryStats.totalDirectories stats1
            = DirectoryStats.totalDirectories stats + Z.of_nat (List.length dirs)
         /\ countOfTypes (DirectoryStats.fileTypes stats1)
            = countOfTypes (DirectoryStats.fileTypes stats) + Z.of_nat (List.length files)
         /\ sizeOfTypes (DirectoryStats.fileTypes stats1)
            = sizeOfTypes (DirectoryStats.fileTypes stats) + sizeOf files
         /\ (NoDup (map fst (DirectoryStats.fileTypes stats)) ->
             NoDup (map fst (DirectoryStats.fileTypes stats1)))
         /\ (Forall (fun bucket => fst bucket <> "") (DirectoryStats.fileTypes stats) ->
             Forall (fun bucket => fst bucket <> "") (DirectoryStats.fileTypes stats1))).
    { unfold statsItem, visitedEntry, countedEntry. cbn [name target visit fst snd].
      destruct (negb (StatsOptions.showHidden options) && startsWithDot item).
      { exists stats. split; [reflexivity |]. cbn. repeat split; try lia; auto. }
      change (existsb (fun pattern => String.eqb item pattern)
                (StatsOptions.exclude options))
        with (includes (StatsOptions.exclude options) item).
      destruct (includes (StatsOptions.exclude options) item).
      { exists stats. split; [reflexivity |]. cbn. repeat split; try lia; auto. }
      unfold try_catch, bind, lift, modify, ret.
      destruct child as [sz c | entries | e | e]; cbn [statSync isDirectory size].
      - (* a file *)
        eexists. split; [reflexivity |].
        unfold countFile.
        cbn [DirectoryStats.totalFiles DirectoryStats.totalSize
             DirectoryStats.totalDirectories DirectoryStats.fileTypes
             List.length sizeOf fold_right LargeFile.size].
        destruct (trackType_count
                    (orNoExtension (toLowerCase rt (path_extname rt item))) sz
                    (DirectoryStats.fileTypes stats)) as [Hc Hs].
        repeat split; try lia.
        + apply trackType_NoDup.
        + apply trackType_nonempty_keys, orNoExtension_nonempty.
      - (* a directory *)
        destruct (Hchild (path_join rt dirPath item) (StatsOptions.descend options)
                    (countDirectory stats))
          as (stats1 & Hrun & Hf & Hs & Hd & Hc & Hz & Hn & He).
        cbn [snd] in Hrun. rewrite Hrun. exists stats1. split; [reflexivity |].
        cbn [countDirectory DirectoryStats.totalFiles DirectoryStats.totalSize
             DirectoryStats.totalDirectories DirectoryStats.fileTypes snd] in *.
        cbn [List.length]. repeat split; try assumption. lia.
      - (* a directory that cannot be listed *)
        destruct (Hchild (path_join rt dirPath item) (StatsOptions.descend options)
                    (countDirectory stats))
          as (stats1 & Hrun & Hf & Hs & Hd & Hc & Hz & Hn & He).
        cbn [snd] in Hrun. rewrite Hrun. exists stats1. split; [reflexivity |].
        cbn [countDirectory DirectoryStats.totalFiles DirectoryStats.totalSize
             DirectoryStats.totalDirectories DirectoryStats.fileTypes snd] in *.
        cbn [List.length]. repeat split; try assumption. lia.
      - (* statSync throws *)
        exists stats. split; [reflexivity |]. cbn. repeat split; try lia; auto. }
    destruct Hturn as (stats1 & Hrun1 & Hf1 & Hs1 & Hd1 & Hc1 & Hz1 & Hn1 & He1).
    destruct (IH stats1) as (stats2 & Hrun2 & Hf2 & Hs2 & Hd2 & Hc2 & Hz2 & Hn2 & He2).
    exists stats2. split; [erewrite bind_ret by exact Hrun1; exact Hrun2 |].
    cbn zeta. rewrite !length_app, sizeOf_app.
    repeat split; try lia; auto.
Qed.

Lemma collectDirectoryStats_talliesWell (n : node) : talliesWell rt n.
Proof.
  induction n as [sz c | entries IH | e | e] using node_induction;
    intros dirPath options stats;
    rewrite collectDirectoryStats_eq; unfold collectDirectoryStats_body;
    cbn [visitedFiles countedDirectories];
    destruct ((StatsOptions.maxDepth options >=? 0)
              && (StatsOptions.currentDepth options >? StatsOptions.maxDepth options));
    try (exists stats; split; [reflexivity |]; cbn; repeat split; try lia; auto).
  destruct (statsItems_tallies dirPath options entries IH stats) as (stats' & Hrun & H).
  exists stats'. split; [| exact H].
  unfold try_catch. erewrite bind_ret by reflexivity. now rewrite Hrun.
Qed.
End StatsTallies.

(** X7.  An aggregation that starts from the zero counters ends with
    [totalFiles] the number of the files that the walk met, [totalSize] the
    sum of their sizes, and [totalDirectories] the number of the directories
    that it met; a directory at the depth limit is counted though it is not
    entered.  Entries whose [statSync] throws and directories that cannot be
    listed change no total. *)
Theorem statistics_totals (rt : Runtime) (here : node) (dirPath : string)
  (options : StatsOptions.t) :
  exists stats,
    collectDirectoryStats rt here dirPath options DirectoryStats.zero = (stats, Ret tt)
    /\ DirectoryStats.totalFiles stats
       = Z.of_nat (List.length (visitedFiles rt here dirPath options))
    /\ DirectoryStats.totalSize stats = sizeOf (visitedFiles rt here dirPath options)
    /\ DirectoryStats.totalDirectories stats
       = Z.of_nat (List.length (countedDirectories rt here dirPath options)).
Proof.
  destruct (collectDirectoryStats_talliesWell rt here dirPath options DirectoryStats.zero)
    as (stats & Hrun & Hf & Hs & Hd & _).
  exists stats. cbn in Hf, Hs, Hd. repeat split; assumption.
Qed.

(** X8.  The buckets of the file types add up to the totals: after an
    aggregation from the zero counters the counts of the buckets sum to
    [totalFiles] and their sizes to [totalSize]; no two buckets have the same
    key and no key is the empty string (a file without extension is under
    [(no extension)]). *)
Theorem file_types_add_up (rt : Runtime) (here : node) (dirPath : string)
  (options : StatsOptions.t) :
  exists stats,
    collectDirectoryStats rt here dirPath options DirectoryStats.zero = (stats, Ret tt)
    /\ countOfTypes (DirectoryStats.fileTypes stats) = DirectoryStats.totalFiles stats
    /\ sizeOfTypes (DirectoryStats.fileTypes stats) = DirectoryStats.totalSize stats
    /\ NoDup (map fst (DirectoryStats.fileTypes stats))
    /\ Forall (fun bucket => fst bucket <> "") (DirectoryStats.fileTypes stats).
Proof.
  destruct (collectDirectoryStats_talliesWell rt here dirPath options DirectoryStats.zero)
    as (stats & Hrun & Hf & Hs & _ & Hc & Hz & Hn & He).
  exists stats. cbn in Hf, Hs, Hc, Hz. repeat split.
  - exact Hrun.
  - lia.
  - lia.
  - apply Hn. constructor.
  - apply He. constructor.
Qed.

(** ** The statistics count what the tree shows *)

Lemma statsItems_filtered (rt : Runtime) (dirPath : string) (options : StatsOptions.t)
  (entries : list (string * node)) (stats : DirectoryStats.t) :
  let keep (e : string * node) :=
    shown (StatsOptions.showHidden options) (StatsOptions.exclude options) (fst e) in
  let entry (e : string * node) :=
    {| name := fst e; target := snd e; visit := collectDirectoryStats rt (snd e) |} in
  statsItems rt dirPath options (map entry (filter keep entries)) stats
  = statsItems rt dirPath options (map entry entries) stats.
Proof.
  intros keep entry. revert stats.
  induction entries as [| e rest IH]; intros stats; [reflexivity |].
  cbn [filter map statsItems]. destruct (keep e) eqn:Hk.
  - cbn [map statsItems]. unfold bind.
    destruct (statsItem rt dirPath options (entry e) stats) as [stats1 [[] | err]];
      [apply IH | reflexivity].
  - rewrite IH. unfold bind, statsItem. cbn [entry name].
    unfold keep, shown in Hk.
    destruct (negb (StatsOptions.showHidden options) && startsWithDot (fst e));
      [reflexivity |].
    change (existsb (fun pattern => String.eqb (fst e) pattern)
              (StatsOptions.exclude options))
      with (includes (StatsOptions.exclude options) (fst e)).
    destruct (includes (StatsOptions.exclude options) (fst e));
      [reflexivity | discriminate].
Qed.

(** X9.  The statistics skip exactly what the tree hides: for every
    directory, the aggregation is the aggregation of the same directory
    without the entries that the filter of printTree drops (the hidden ones,
    unless [showHidden], and those named in [exclude]).  Such an entry, with
    all that is below it, changes no counter. *)
Theorem statistics_skip_what_the_tree_hides (rt : Runtime)
  (entries : list (string * node)) (dirPath : string) (options : StatsOptions.t)
  (stats : DirectoryStats.t) :
  collectDirectoryStats rt (Dir entries) dirPath options stats
  = collectDirectoryStats rt
      (Dir (filter
              (fun e => shown (StatsOptions.showHidden options)
                          (StatsOptions.exclude options) (fst e))
              entries))
      dirPath options stats.
Proof.
  rewrite !collectDirectoryStats_eq. unfold collectDirectoryStats_body.
  destruct (_ && _); [reflexivity |].
  cbv beta iota delta [try_catch bind lift readdirSync].
  now rewrite statsItems_filtered.
Qed.

(** ** The largest files of a small tree *)

Lemma fold_trackLargest_small (fs l : list LargeFile.t) :
  (List.length (l ++ fs) <= 20)%nat -> fold_left trackLargest fs l = l ++ fs.
Proof.
  revert l. induction fs as [| f fs IH]; intros l H; cbn [fold_left].
  - now rewrite app_nil_r.
  - replace (l ++ f :: fs) with ((l ++ [f]) ++ fs) in * by now rewrite <- app_assoc.
    assert (Hpush : trackLargest l f = l ++ [f]).
    { unfold trackLargest.
      destruct (Z.of_nat (List.length (l ++ [f])) >? 20) eqn:E; [| reflexivity].
      apply Z.gtb_lt in E. rewrite length_app in H. lia. }
    rewrite Hpush. now apply IH.
Qed.

(** X10.  When the walk meets at most 20 files the largest-files list is never
    trimmed or sorted during the aggregation: it ends as the list of all the
    files that were met, in the order in which they were met. *)
Theorem largest_files_of_a_small_tree (rt : Runtime) (here : node) (dirPath : string)
  (options : StatsOptions.t) :
  (List.length (visitedFiles rt here dirPath options) <= 20)%nat ->
  exists stats,
    collectDirectoryStats rt here dirPath options DirectoryStats.zero = (stats, Ret tt)
    /\ DirectoryStats.largestFiles stats = visitedFiles rt here dirPath options.
Proof.
  intros H.
  destruct (collectDirectoryStats_aggregatesWell rt here dirPath options
              DirectoryStats.zero) as (stats & Hrun & Hl).
  exists stats. split; [exact Hrun |]. rewrite Hl.
  cbn [DirectoryStats.zero DirectoryStats.largestFiles].
  now apply fold_trackLargest_small.
Qed.

(** X10, witness: the scenario tree, of two visible files. *)
Lemma largest_files_of_a_small_tree_witness :
  (List.length (visitedFiles Example.runtime Example.scenario "/root"
                  {| StatsOptions.exclude := []; StatsOptions.showHidden := false;
                     StatsOptions.maxDepth := -1; StatsOptions.currentDepth := 0 |})
   <= 20)%nat
  /\ exists stats,
       collectDirectoryStats Example.runtime Example.scenario "/root"
         {| StatsOptions.exclude := []; StatsOptions.showHidden := false;
            StatsOptions.maxDepth := -1; StatsOptions.currentDepth := 0 |}
         DirectoryStats.zero = (stats, Ret tt)
       /\ map LargeFile.path (DirectoryStats.largestFiles stats)
          = ["/root/a.txt"; "/root/b/c.js"].
Proof.
  assert (H : (List.length (visitedFiles Example.runtime Example.scenario "/root"
                  {| StatsOptions.exclude := []; StatsOptions.showHidden := false;
                     StatsOptions.maxDepth := -1; StatsOptions.currentDepth := 0 |})
               <= 20)%nat) by (cbn; lia).
  split; [exact H |].
  destruct (largest_files_of_a_small_tree Example.runtime Example.scenario "/root" _ H)
    as (stats & Hrun & Hl).
  exists stats. split; [exact Hrun |]. rewrite Hl. reflexivity.
Defined.

(** ** The file types of the report *)

Lemma byCountDesc_key (a b : string * TypeStats.t) :
  byCountDesc a b = TypeStats.count (snd b) - TypeStats.count (snd a).
Proof. reflexivity. Qed.

(** The sort by count: a permutation, no bucket before one with a larger
    count, and buckets of equal count in the order they had. *)
Lemma byCountDesc_order (fileTypes : list (string * TypeStats.t)) :
  let listed := js_sort byCountDesc fileTypes in
  Permutation listed fileTypes
  /\ Sorted (fun a b => TypeStats.count (snd b) <= TypeStats.count (snd a)) listed
  /\ (forall n, filter (fun bucket => TypeStats.count (snd bucket) =? n) listed
                = filter (fun bucket => TypeStats.count (snd bucket) =? n) fileTypes).
Proof.
  intros listed. split; [apply js_sort_permutation |]. split.
  - apply (js_sort_sorted (fun bucket => TypeStats.count (snd bucket)) byCountDesc
             byCountDesc_key).
  - intros n. unfold listed. induction fileTypes as [| x l IH]; [reflexivity |].
    cbn [js_sort fold_right]. fold (js_sort byCountDesc l).
    cbn [filter]. rewrite <- IH. clear IH.
    assert (Hs : Sorted (fun a b => TypeStats.count (snd b) <= TypeStats.count (snd a))
                   (js_sort byCountDesc l))
      by apply (js_sort_sorted (fun bucket => TypeStats.count (snd bucket)) byCountDesc
                  byCountDesc_key).
    apply Sorted_StronglySorted in Hs; [| intros a b c Hab Hbc; lia].
    induction Hs as [| y s Hs IHs Hall]; cbn [insert filter]; [reflexivity |].
    rewrite byCountDesc_key.
    destruct (TypeStats.count (snd y) - TypeStats.count (snd x) <=? 0) eqn:E;
      cbn [filter]; [reflexivity |].
    rewrite IHs.
    destruct (TypeStats.count (snd x) =? n) eqn:Ex,
             (TypeStats.count (snd y) =? n) eqn:Ey; try reflexivity.
    apply Z.eqb_eq in Ex, Ey. apply Z.leb_gt in E. lia.
Qed.

(** ** The counts of the content export *)

Section ContentCounts.
Variables (rt : Runtime) (w : World).
Hypothesis writes_succeed : forall n, write_error w n = None.

Lemma collectItem_counts (dirPath outputPath : string) (options : CollectOptions.t)
  (item : string) (child : node) :
  (forall item, exists b, excluded rt (CollectOptions.exclude options) item = Ret b) ->
  countsWell rt w child ->
  forall d counts, exists d' counts',
    collectItem rt w dirPath outputPath options
      {| name := item; target := child; visit := collectFileContents rt w child |}
      (d, counts)
    = ((d', counts'), Ret tt)
    /\ Counts.processed counts'
       = Counts.processed counts
         + Z.of_nat (List.length
                       (filter (isRecorded rt options)
                          (reachedEntry rt (reachedFiles rt) dirPath options (item, child))))
    /\ Counts.processed counts' + Counts.skipped counts'
       = Counts.processed counts + Counts.skipped counts
         + metEntry rt (metEntries rt) options (item, child).
Proof.
  intros Hex Hchild d counts.
  unfold collectItem, reachedEntry, metEntry. cbn [name target visit fst snd].
  destruct (negb (CollectOptions.showHidden options) && startsWithDot item).
  { exists d, (Counts.skip counts). split; [reflexivity |]. cbn. split; lia. }
  destruct (Hex item) as [b Hb].
  unfold try_catch, bind, lift, outer, set_local, modify, appendFileSync, write, readFile.
  rewrite Hb. destruct b.
  { exists d, (Counts.skip counts). split; [reflexivity |]. cbn. split; lia. }
  destruct child as [sz content | entries | e | e];
    cbn [statSync isDirectory size fst snd readFileSync attempts].
  - (* a file *)
    unfold isRecorded, isRead. cbn [filter fileOf itemOf].
    destruct (sz >? CollectOptions.maxFileSize options) eqn:Esz.
    { rewrite writes_succeed. cbn [fst snd negb andb List.length].
      eexists; eexists. split; [reflexivity |]. cbn. split; lia. }
    destruct (extensionRejected (CollectOptions.extensions options)
                (toLowerCase rt (path_extname rt item))).
    { exists d, (Counts.skip counts). split; [reflexivity |]. cbn. split; lia. }
    destruct content as [txt | readErr]; rewrite writes_succeed;
      cbn [fst snd negb andb List.length];
      (eexists; eexists; split; [reflexivity |]; cbn; split; lia).
  - (* a directory *)
    destruct (Hchild (path_join rt dirPath item) outputPath
                (CollectOptions.descend options) d Hex)
      as (d' & sub & Hrun & Hp & Hsum).
    rewrite Hrun. cbn [fst snd].
    exists d', (Counts.add sub counts). split; [reflexivity |].
    cbn [Counts.add Counts.processed Counts.skipped].
    change (isRecorded rt (CollectOptions.descend options))
      with (isRecorded rt options) in Hp.
    split; lia.
  - (* a directory that cannot be listed *)
    destruct (Hchild (path_join rt dirPath item) outputPath
                (CollectOptions.descend options) d Hex)
      as (d' & sub & Hrun & Hp & Hsum).
    rewrite Hrun. cbn [fst snd].
    exists d', (Counts.add sub counts). split; [reflexivity |].
    cbn [Counts.add Counts.processed Counts.skipped].
    change (isRecorded rt (CollectOptions.descend options))
      with (isRecorded rt options) in Hp.
    split; lia.
  - (* statSync throws *)
    rewrite writes_succeed. cbn [fst snd].
    eexists; eexists. split; [reflexivity |]. cbn. split; lia.
Qed.

Lemma collectItems_counts (dirPath outputPath : string) (options : CollectOptions.t)
  (entries : list (string * node)) :
  (forall item, exists b, excluded rt (CollectOptions.exclude options) item = Ret b) ->
  Forall (fun e => countsWell rt w (snd e)) entries ->
  forall d counts, exists d' counts',
    collectItems rt w dirPath outputPath options
      (map (fun e => {| name := fst e; target := snd e;
                        visit := collectFileContents rt w (snd e) |}) entries)
      (d, counts)
    = ((d', counts'), Ret tt)
    /\ Counts.processed counts'
       = Counts.processed counts
         + Z.of_nat (List.length
                       (filter (isRecorded rt options)
                          (flat_map (reachedEntry rt (reachedFiles rt) dirPath options)
                             entries)))
    /\ Counts.processed counts' + Counts.skipped counts'
       = Counts.processed counts + Counts.skipped counts
         + fold_right (fun e acc => metEntry rt (metEntries rt) options e + acc) 0 entries.
Proof.
  intros Hex. induction 1 as [| [item child] rest Hchild _ IH]; intros d counts.
  - exists d, counts. split; [reflexivity |]. cbn. split; lia.
  - cbn [map collectItems flat_map fold_right fst snd].
    destruct (collectItem_counts dirPath outputPath options item child Hex Hchild d counts)
      as (d1 & c1 & Hrun1 & Hp1 & Hs1).
    destruct (IH d1 c1) as (d2 & c2 & Hrun2 & Hp2 & Hs2).
    exists d2, c2. split; [erewrite bind_ret by exact Hrun1; exact Hrun2 |].
    rewrite filter_app, length_app. split; lia.
Qed.

Lemma collectFileContents_countsWell (n : node) : countsWell rt w n.
Proof.
  induction n as [sz c | entries IH | e | e] using node_induction;
    intros dirPath outputPath options d Hex;
    rewrite collectFileContents_eq; unfold collectFileContents_body;
    cbn [reachedFiles metEntries];
    destruct ((CollectOptions.maxDepth options >=? 0)
              && (CollectOptions.currentDepth options >? CollectOptions.maxDepth options));
    try (exists d, Counts.zero; split; [reflexivity |]; cbn; split; lia).
  - unfold with_local, try_catch, bind, lift, outer, local, appendFileSync, write.
    cbn [readdirSync fst snd]. rewrite writes_succeed.
    eexists; eexists. split; [reflexivity |]. cbn. split; lia.
  - destruct (collectItems_counts dirPath outputPath options entries Hex IH d Counts.zero)
      as (d' & c' & Hrun & Hp & Hs).
    exists d', c'. split; [| cbn in Hp, Hs; split; lia].
    unfold with_local.
    erewrite bind_ret.
    2:{ apply try_catch_ret. erewrite bind_ret by reflexivity. exact Hrun. }
    reflexivity.
  - unfold with_local, try_catch, bind, lift, outer, local, appendFileSync, write.
    cbn [readdirSync fst snd]. rewrite writes_succeed.
    eexists; eexists. split; [reflexivity |]. cbn. split; lia.
  - unfold with_local, try_catch, bind, lift, outer, local, appendFileSync, write.
    cbn [readdirSync fst snd]. rewrite writes_succeed.
    eexists; eexists. split; [reflexivity |]. cbn. split; lia.
Qed.
End ContentCounts.

(** X12.  In a content export on a disk that takes every write, with
    exclusion patterns that the engine accepts, [processed] is the number of
    files whose content went into the artifact, and every entry that the walk
    counts is counted once, in [processed] or in [skipped]: hidden and
    excluded entries (directories among them), files that are too large, of a
    rejected extension or unreadable, and entries whose [statSync] throws are
    one skip each; a directory that is entered is not counted itself. *)
Theorem content_counts (rt : Runtime) (w : World) (here : node)
  (dirPath outputPath : string) (options : CollectOptions.t) (d : Disk) :
  (forall n, write_error w n = None) ->
  (forall item, exists b, excluded rt (CollectOptions.exclude options) item = Ret b) ->
  exists d' counts,
    collectFileContents rt w here dirPath outputPath options d = (d', Ret counts)
    /\ Counts.processed counts
       = Z.of_nat (List.length (filter (isRecorded rt options)
                                  (reachedFiles rt here dirPath options)))
    /\ Counts.processed counts + Counts.skipped counts = metEntries rt here options.
Proof.
  intros Hw Hex. now apply collectFileContents_countsWell.
Qed.

(** X12, witness: the scenario tree exported with the default options: two
    files recorded, the hidden one skipped. *)
Lemma content_counts_witness :
  (forall n, write_error (Example.holding Example.scenario) n = None)
  /\ exists d' counts,
       collectFileContents Example.runtime (Example.holding Example.scenario)
         Example.scenario "/root" "/out.txt" (collectOptionsOf Options.empty) blank
       = (d', Ret counts)
       /\ Counts.processed counts = 2
       /\ Counts.processed counts + Counts.skipped counts = 3.
Proof.
  assert (Hw : forall n, write_error (Example.holding Example.scenario) n = None)
    by reflexivity.
  split; [exact Hw |].
  destruct (content_counts Example.runtime (Example.holding Example.scenario)
              Example.scenario "/root" "/out.txt" (collectOptionsOf Options.empty)
              blank Hw)
    as (d' & counts & Hrun & Hp & Hs).
  { intros item. exists false. reflexivity. }
  exists d', counts. split; [exact Hrun |]. split; [exact Hp | exact Hs].
Defined.

(** ** printTree: when it fails *)

(** X13.  printTree returns [success = false] exactly when a check of the
    root fails (the path is not a string with characters, or [statSync] finds
    no directory there) or the root, within the depth limit, cannot be
    listed.  A failed call has set [error] and has logged at least one
    line.  Nothing that happens below the root makes the call fail. *)
Theorem printTree_fails_iff (rt : Runtime) (here : node) (directoryPath : jsvalue)
  (o : Options.t) (out : list Line) :
  let cut := (dflt (-1) (Options.maxDepth o) >=? 0)
             && (dflt 0 (Options.currentDepth o) >? dflt (-1) (Options.maxDepth o)) in
  exists lines r,
    printTree_at rt logger here directoryPath o out = (out ++ lines, Ret r)
    /\ (WalkResult.success r = false
        <-> truthy directoryPath && is_string directoryPath = false
            \/ isDirectoryNode here = false
            \/ (cut = false /\ exists e, here = DirNoRead e))
    /\ (WalkResult.success r = false -> WalkResult.error r <> None /\ lines <> []).
Proof.
  intros cut.
  destruct (truthy directoryPath && is_string directoryPath) eqn:Hvalid.
  2:{ (* the path is rejected *)
      rewrite printTree_at_eq. unfold printTree_body.
      cbn [logger]; cbv beta iota delta [try_catch bind lift ret throw modify].
      apply andb_false_iff in Hvalid.
      assert (E : negb (truthy directoryPath) || negb (is_string directoryPath) = true)
        by (destruct Hvalid as [-> | ->]; [| rewrite orb_true_r]; reflexivity).
      rewrite E. eexists [_], _. split; [reflexivity |]. cbn [WalkResult.success
        WalkResult.error]. split; [tauto |]. intros _. split; discriminate. }
  apply andb_true_iff in Hvalid. destruct Hvalid as [Ht Hs].
  destruct directoryPath as [| | | | s |]; try discriminate.
  assert (Hne : s <> "") by (intros ->; discriminate).
  destruct here as [sz c | entries | e | e].
  - (* a file *)
    rewrite printTree_at_eq. unfold printTree_body.
    cbn [logger];
    cbv beta iota delta [try_catch bind lift ret throw modify existsSync statSync
                         isDirectory].
    rewrite Ht. cbn [negb is_string orb].
    eexists [_], _. split; [reflexivity |]. cbn [WalkResult.success WalkResult.error
      isDirectoryNode]. split; [tauto |]. intros _. split; discriminate.
  - (* a directory that can be listed *)
    destruct (printTree_at_Dir rt entries) with (p := JString s) (o := o) (out := out)
      as (lines & r & Hrun & _ & Hok).
    { apply Forall_forall. intros x _. apply printTree_at_walksWell. }
    destruct (Hok s eq_refl Hne) as [Hsucc _].
    exists lines, r. split; [exact Hrun |]. rewrite Hsucc. cbn [isDirectoryNode].
    split; [| discriminate].
    split; [discriminate |].
    intros [H | [H | [_ [e H]]]]; discriminate.
  - (* a directory that cannot be listed *)
    destruct cut eqn:Hcut.
    + rewrite printTree_at_eq. unfold printTree_body.
      cbn [logger];
      cbv beta iota delta [try_catch bind lift ret throw modify existsSync statSync
                           isDirectory].
      rewrite Ht. cbn [negb is_string orb]. fold cut. rewrite Hcut.
      exists [], {| WalkResult.success := true; WalkResult.error := None |}.
      rewrite app_nil_r. split; [reflexivity |]. cbn [WalkResult.success isDirectoryNode].
      split; [| discriminate].
      split; [discriminate |].
      intros [H | [H | [H _]]]; discriminate.
    + destruct (printTree_at_DirNoRead rt e s o out Hne Hcut) as (lines & Hrun & Hin).
      eexists lines, _. split; [exact Hrun |]. cbn [WalkResult.success WalkResult.error].
      split.
      * split; [intros _; right; right; split; [reflexivity | eauto] | reflexivity].
      * intros _. split; [discriminate | intros ->; destruct Hin].
  - (* nothing there *)
    rewrite printTree_at_eq. unfold printTree_body.
    cbn [logger];
    cbv beta iota delta [try_catch bind lift ret throw modify existsSync statSync
                         isDirectory].
    rewrite Ht. cbn [negb is_string orb].
    eexists [_], _. split; [reflexivity |]. cbn [WalkResult.success WalkResult.error
      isDirectoryNode]. split; [tauto |]. intros _. split; discriminate.
Qed.

(** ** The content walk only adds to the disk *)

Lemma extends_refl (d : Disk) : extends d d.
Proof.
  repeat split; [exists [] | exists [] | lia]; now rewrite app_nil_r.
Qed.

Lemma extends_trans (a b c : Disk) : extends a b -> extends b c -> extends a c.
Proof.
  intros (Hc1 & [p1 Ha1] & [m1 Hr1] & Hn1) (Hc2 & [p2 Ha2] & [m2 Hr2] & Hn2).
  repeat split.
  - congruence.
  - exists (p1 ++ p2). rewrite Ha2, Ha1. now rewrite app_assoc.
  - exists (m1 ++ m2). rewrite Hr2, Hr1. now rewrite app_assoc.
  - lia.
Qed.

Lemma framedL_bind {L A B} (m : M (Disk * L) A) (k : A -> M (Disk * L) B) :
  framedL m -> (forall a, framedL (k a)) -> framedL (bind m k).
Proof.
  intros Hm Hk s. unfold bind. specialize (Hm s).
  destruct (m s) as [s' [a | e]]; [| exact Hm].
  eapply extends_trans; [exact Hm | apply Hk].
Qed.

Lemma framedL_try_catch {L A} (m : M (Disk * L) A) (h : Error -> M (Disk * L) A) :
  framedL m -> (forall e, framedL (h e)) -> framedL (try_catch m h).
Proof.
  intros Hm Hh s. unfold try_catch. specialize (Hm s).
  destruct (m s) as [s' [a | e]]; [exact Hm |].
  eapply extends_trans; [exact Hm | apply Hh].
Qed.

Lemma framedL_outer {L A} (m : M Disk A) : framed m -> framedL (L := L) (outer m).
Proof.
  intros Hm s. unfold outer. specialize (Hm (fst s)).
  destruct (m (fst s)) as [d' r]. exact Hm.
Qed.

Lemma framedL_lift {L A} (o : outcome A) : framedL (L := L) (lift o).
Proof. intros s. apply extends_refl. Qed.

Lemma framedL_ret {L A} (a : A) : framedL (L := L) (ret a).
Proof. intros s. apply extends_refl. Qed.

Lemma framedL_set_local {L} (f : L -> L) : framedL (set_local f).
Proof. intros s. apply extends_refl. Qed.

Lemma framedL_local {L} : framedL (L := L) local.
Proof. intros s. apply extends_refl. Qed.

Lemma framed_with_local {L A} (init : L) (m : M (Disk * L) A) :
  framedL m -> framed (with_local init m).
Proof.
  intros Hm d. unfold with_local. specialize (Hm (d, init)).
  destruct (m (d, init)) as [[d' l] r]. exact Hm.
Qed.

Lemma framed_ret {A} (a : A) : framed (ret a).
Proof. intros d. apply extends_refl. Qed.

Lemma framed_appendFileSync (w : World) (data : string) : framed (appendFileSync w data).
Proof.
  intros d. unfold appendFileSync, write.
  destruct (write_error w (attempts d)); unfold extends; cbn.
  - repeat split; [exists [] | exists [] | lia]; now rewrite app_nil_r.
  - repeat split; [exists [data]; reflexivity | exists []; now rewrite app_nil_r | lia].
Qed.

Lemma framed_readFile (path : string) (n : node) : framed (readFile path n).
Proof.
  intros d. unfold readFile, extends. cbn.
  repeat split; [exists []; now rewrite app_nil_r | exists [path]; reflexivity | lia].
Qed.

Lemma framedL_bind_lift {L A B} (o : outcome A) (k : A -> M (Disk * L) B) :
  (forall a, o = Ret a -> framedL (k a)) -> framedL (bind (lift o) k).
Proof.
  intros Hk s. unfold bind, lift. destruct o as [a | e]; [now apply Hk |].
  apply extends_refl.
Qed.

Create HintDb frame.

#[local] Hint Resolve framedL_lift framedL_ret framedL_set_local framedL_local
  framedL_outer framed_appendFileSync framed_readFile framed_ret : frame.

Ltac frame :=
  repeat first
    [ apply framedL_bind; [| intros ?]
    | apply framedL_try_catch; [| intros ?]
    | match goal with |- framedL (if ?b then _ else _) => destruct b end
    | solve [auto with frame] ].

Lemma collectItem_framed (rt : Runtime) (w : World) (dirPath outputPath : string)
  (options : CollectOptions.t) (it : Entry Collect) :
  (forall p q o, framed (visit it p q o)) ->
  framedL (collectItem rt w dirPath outputPath options it).
Proof.
  intros Hvisit. unfold collectItem. frame.
Qed.

Lemma collectItems_framed (rt : Runtime) (w : World) (dirPath outputPath : string)
  (options : CollectOptions.t) (items : list (Entry Collect)) :
  Forall (fun it => forall p q o, framed (visit it p q o)) items ->
  framedL (collectItems rt w dirPath outputPath options items).
Proof.
  induction 1 as [| it rest Hit _ IH]; cbn [collectItems]; [apply framedL_ret |].
  apply framedL_bind; [now apply collectItem_framed | intros _; exact IH].
Qed.

Lemma collectFileContents_framed (rt : Runtime) (w : World) (n : node)
  (dirPath outputPath : string) (options : CollectOptions.t) :
  framed (collectFileContents rt w n dirPath outputPath options).
Proof.
  revert dirPath outputPath options.
  induction n as [sz c | entries IH | e | e] using node_induction;
    intros dirPath outputPath options;
    rewrite collectFileContents_eq; unfold collectFileContents_body;
    (destruct ((CollectOptions.maxDepth options >=? 0)
               && (CollectOptions.currentDepth options >? CollectOptions.maxDepth options));
     [apply framed_ret |]);
    apply framed_with_local;
    (apply framedL_bind; [| intros _; apply framedL_local]);
    (apply framedL_try_catch; [| intros err; auto with frame]);
    apply framedL_bind_lift; intros items Hitems; try discriminate.
  cbn [readdirSync] in Hitems. injection Hitems as <-.
  apply collectItems_framed. apply Forall_map.
  eapply Forall_impl; [| exact IH]. intros [nm child] H p q o. apply H.
Qed.

(** X14.  Whatever fails during a content walk (a write, a read, a listing,
    a pattern that the engine rejects), collectFileContents only adds to the
    disk: it logs nothing to the console, what the output file held before
    the call is still at its front, and no read or attempted write is
    forgotten.  This holds whether the walk returns or throws. *)
Theorem content_walk_only_appends (rt : Runtime) (w : World) (here : node)
  (dirPath outputPath : string) (options : CollectOptions.t) (d : Disk) :
  let d' := fst (collectFileContents rt w here dirPath outputPath options d) in
  console d' = console d
  /\ (exists pieces, artifact d' = artifact d ++ pieces)
  /\ (exists more, reads d' = reads d ++ more)
  /\ (attempts d <= attempts d')%nat.
Proof.
  exact (collectFileContents_framed rt w here dirPath outputPath options d).
Qed.

(** ** exportFileContentsToFile: what the summary reports *)

(** X15.  On a root that is a directory, with writes that succeed and
    patterns that the engine accepts, the [fileCount] of the result, the last
    piece of the artifact and the second console line all report the same two
    numbers, and these are the counts of the walk of the root: [processed] is
    the number of files whose content was recorded.  The artifact starts with
    the header that names the resolved root. *)
Theorem export_reports_the_counts (rt : Runtime) (w : World) (s outputPath : string)
  (options : Options.t) (d : Disk) :
  let co := collectOptionsOf options in
  let root := at_path w (path_resolve rt s) in
  (forall n, write_error w n = None) ->
  (forall item, exists b, excluded rt (CollectOptions.exclude co) item = Ret b) ->
  s <> "" -> isDirectoryNode root = true ->
  exists d' r counts pieces,
    exportFileContentsToFile rt w (JString s) outputPath options d = (d', Ret r)
    /\ ExportResult.success r = true
    /\ ExportResult.filePath r = Some (path_resolve rt outputPath)
    /\ ExportResult.fileCount r = Some counts
    /\ Counts.processed counts
       = Z.of_nat (List.length (filter (isRecorded rt co)
                                  (reachedFiles rt root (path_resolve rt s) co)))
    /\ Counts.processed counts + Counts.skipped counts = metEntries rt root co
    /\ artifact d'
       = ("File contents from: " +++ path_resolve rt s +++ nl
          +++ CollectOptions.separator co)
         :: pieces
         ++ [CollectOptions.separator co +++ "End of file contents" +++ nl
             +++ "Total files processed: " +++ show_Z (Counts.processed counts) +++ nl
             +++ "Files skipped: " +++ show_Z (Counts.skipped counts) +++ nl]
    /\ console d'
       = console d
         ++ [{| level := 0; style := success;
                text := "File contents exported successfully to: " +++ outputPath |};
             {| level := 0; style := info;
                text := "Files processed: " +++ show_Z (Counts.processed counts)
                        +++ ", Files skipped: " +++ show_Z (Counts.skipped counts) |}].
Proof.
  intros co root Hw Hex Hs Hroot. subst root.
  assert (Hexists : existsSync (at_path w (path_resolve rt s)) = true)
    by (destruct (at_path w (path_resolve rt s)); try discriminate; reflexivity).
  assert (Hstat : statSync (at_path w (path_resolve rt s))
                  = Ret {| isDirectory := true; size := 0 |})
    by (destruct (at_path w (path_resolve rt s)); try discriminate; reflexivity).
  unfold exportFileContentsToFile.
  match goal with |- context [try_catch ?m ?h] => set (body := m); set (handler := h) end.
  enough (Hbody : exists d' r counts pieces,
    body d = (d', Ret r)
    /\ ExportResult.success r = true
    /\ ExportResult.filePath r = Some (path_resolve rt outputPath)
    /\ ExportResult.fileCount r = Some counts
    /\ Counts.processed counts
       = Z.of_nat (List.length (filter (isRecorded rt co)
            (reachedFiles rt (at_path w (path_resolve rt s)) (path_resolve rt s) co)))
    /\ Counts.processed counts + Counts.skipped counts
       = metEntries rt (at_path w (path_resolve rt s)) co
    /\ artifact d'
       = ("File contents from: " +++ path_resolve rt s +++ nl
          +++ CollectOptions.separator co)
         :: pieces
         ++ [CollectOptions.separator co +++ "End of file contents" +++ nl
             +++ "Total files processed: " +++ show_Z (Counts.processed counts) +++ nl
             +++ "Files skipped: " +++ show_Z (Counts.skipped counts) +++ nl]
    /\ console d'
       = console d
         ++ [{| level := 0; style := success;
                text := "File contents exported successfully to: " +++ outputPath |};
             {| level := 0; style := info;
                text := "Files processed: " +++ show_Z (Counts.processed counts)
                        +++ ", Files skipped: " +++ show_Z (Counts.skipped counts) |}]).
  { destruct Hbody as (d' & r & counts & pieces & Hrun & Hrest).
    exists d', r, counts, pieces. split; [| exact Hrest]. now apply try_catch_ret. }
  unfold body. cbv zeta. cbn [string_of].
  rewrite (truthy_string s Hs), Hexists. cbn [negb is_string orb].
  erewrite bind_ret by (rewrite Hstat; reflexivity). cbn [isDirectory negb].
  erewrite bind_ret.
  2:{ unfold writeFileSync, write. rewrite Hw. reflexivity. }
  match goal with |- context [bind (collectFileContents rt w ?n ?p ?q ?o) _ ?d0] =>
    destruct (collectFileContents_collectsWell rt w Hw n p q o d0 Hex)
      as (d1 & counts & pieces & Hrun & Hart & _ & _);
    destruct (collectFileContents_countsWell rt w Hw n p q o d0 Hex)
      as (d2 & counts2 & Hrun2 & Hp & Hsum);
    pose proof (collectFileContents_framed rt w n p q o d0) as (Hcon & _);
    fold co in Hrun, Hrun2, Hp, Hsum, Hcon
  end.
  rewrite Hrun in Hrun2. injection Hrun2 as <- <-.
  rewrite Hrun in Hcon. cbn [fst console] in Hcon.
  fold co.
  erewrite bind_ret by exact Hrun.
  erewrite bind_ret.
  2:{ unfold appendFileSync, write. rewrite Hw. reflexivity. }
  unfold bind, console_log, modify, ret. cbn [artifact console] in *.
  eexists; eexists; exists counts, pieces.
  split; [reflexivity |].
  cbn [ExportResult.success ExportResult.filePath ExportResult.fileCount artifact console].
  repeat split; try assumption.
  - rewrite Hart. reflexivity.
  - rewrite Hcon, <- app_assoc. reflexivity.
Qed.

(** X15, witness: the scenario tree exported with the default options. *)
Lemma export_reports_the_counts_witness :
  "/root" <> ""
  /\ isDirectoryNode (at_path (Example.holding Example.scenario)
                        (path_resolve Example.runtime "/root")) = true
  /\ exists d' r counts,
       exportFileContentsToFile Example.runtime (Example.holding Example.scenario)
         (JString "/root") "/out.txt" Options.empty blank = (d', Ret r)
       /\ ExportResult.fileCount r = Some counts
       /\ Counts.processed counts = 2
       /\ Counts.processed counts + Counts.skipped counts = 3.
Proof.
  split; [discriminate |]. split; [reflexivity |].
  destruct (export_reports_the_counts Example.runtime (Example.holding Example.scenario)
              "/root" "/out.txt" Options.empty blank)
    as (d' & r & counts & pieces & Hrun & _ & _ & Hc & Hp & Hs & _).
  - reflexivity.
  - intros item. exists false. reflexivity.
  - discriminate.
  - reflexivity.
  - exists d', r, counts. split; [exact Hrun |]. split; [exact Hc |].
    split; [exact Hp | exact Hs].
Defined.

(** ** generateDirectorySummary: the statistics of the report *)

(** X16.  For a path that is a string, a first write that succeeds and
    unless both [includeStats] and [includeFileCount] are false, the summary
    succeeds and replaces the output file by one text: five header lines, the
    lines that printTree logs for the path (prefix empty, no sizes, the
    exclusions of the call) without their colours, the totals, one line for
    each file type, and one line for each of the 10 largest files.  The
    [stats] of the result are those of the walk with the exclusions of the
    call (by default [node_modules] and [.git]): the files met, their sizes
    added up, the directories counted, and the largest files sorted by size,
    largest first, at most 20 of them. *)
Theorem summary_statistics (rt : Runtime) (w : World) (s outputPath : string)
  (options : Options.t) (d : Disk) :
  let exclude := dflt ["node_modules"; ".git"] (Options.exclude options) in
  let showHidden := dflt false (Options.showHidden options) in
  let maxDepth := dflt (-1) (Options.maxDepth options) in
  let so :=
    {| StatsOptions.exclude := exclude; StatsOptions.showHidden := showHidden;
       StatsOptions.maxDepth := maxDepth; StatsOptions.currentDepth := 0 |} in
  let files := visitedFiles rt (at_path w s) s so in
  write_error w (attempts d) = None ->
  dflt true (Options.includeStats options)
  || dflt true (Options.includeFileCount options) = true ->
  exists d' r st tree walk,
    printTree rt logger w (JString s)
      {| Options.prefix := Some ""; Options.maxDepth := Some maxDepth;
         Options.exclude := Some exclude; Options.showHidden := Some showHidden;
         Options.showSize := Some false; Options.currentDepth := None;
         Options.extensions := None; Options.maxFileSize := None;
         Options.separator := None; Options.includeStats := None;
         Options.includeFileCount := None |} []
    = (tree, Ret walk)
    /\ generateDirectorySummary rt w (JString s) outputPath options d = (d', Ret r)
    /\ SummaryResult.success r = true
    /\ SummaryResult.filePath r = Some (path_resolve rt outputPath)
    /\ SummaryResult.stats r = Some st
    /\ DirectoryStats.totalFiles st = Z.of_nat (List.length files)
    /\ DirectoryStats.totalSize st = sizeOf files
    /\ DirectoryStats.totalDirectories st
       = Z.of_nat (List.length (countedDirectories rt (at_path w s) s so))
    /\ Sorted noSmaller (DirectoryStats.largestFiles st)
    /\ (List.length (DirectoryStats.largestFiles st) <= 20)%nat
    /\ firstn 10 (DirectoryStats.largestFiles st) = firstn 10 (js_sort bySizeDesc files)
    /\ artifact d'
       = [String.concat nl
            (["Directory Summary: " +++ path_resolve rt s;
              "Generated on: " +++ dateNow rt; repeat_string "=" 80; "";
              "Directory Structure:"]
             ++ map (fun l => stripColors rt (colorize rt (style l) (text l))) tree
             ++ [""; repeat_string "=" 80; ""; "Directory Statistics:";
                 "- Total Files: " +++ show_Z (DirectoryStats.totalFiles st);
                 "- Total Directories: "
                 +++ show_Z (DirectoryStats.totalDirectories st);
                 "- Total Size: " +++ formatFileSize rt (DirectoryStats.totalSize st);
                 ""; "File Types:"]
             ++ map (fun bucket =>
                       "- " +++ (if String.eqb (fst bucket) "" then "(no extension)"
                                 else fst bucket)
                       +++ ": " +++ show_Z (TypeStats.count (snd bucket)) +++ " files ("
                       +++ formatFileSize rt (TypeStats.size (snd bucket)) +++ ")")
                 (js_sort byCountDesc (DirectoryStats.fileTypes st))
             ++ [""; "Largest Files:"]
             ++ map (fun file =>
                       "- " +++ LargeFile.path file +++ " ("
                       +++ formatFileSize rt (LargeFile.size file) +++ ")")
                 (firstn 10 (DirectoryStats.largestFiles st)))].
Proof.
  intros exclude showHidden maxDepth so files Hw Hflags.
  destruct (generateDirectorySummary_report rt w s outputPath options d Hw Hflags)
    as (d' & r & tree & walk & raw & Htree & Hraw & Hrun & Hsucc & Hpath & Hstats & Hart).
  fold exclude showHidden maxDepth in Htree, Hraw. fold so in Hraw.
  destruct (collectDirectoryStats_talliesWell rt (at_path w s) s so DirectoryStats.zero)
    as (raw1 & Hraw1 & Hf & Hs & Hd & _).
  destruct (collectDirectoryStats_aggregatesWell rt (at_path w s) s so
              DirectoryStats.zero) as (raw2 & Hraw2 & Hl).
  rewrite Hraw in Hraw1, Hraw2. injection Hraw1 as <-. injection Hraw2 as <-.
  cbn [DirectoryStats.zero DirectoryStats.totalFiles DirectoryStats.totalSize
       DirectoryStats.totalDirectories DirectoryStats.largestFiles] in Hf, Hs, Hd, Hl.
  fold files in Hf, Hs, Hl.
  eexists d', r, _, tree, walk.
  split; [exact Htree |]. split; [exact Hrun |]. split; [exact Hsucc |].
  split; [exact Hpath |]. split; [exact Hstats |].
  cbn [DirectoryStats.totalFiles DirectoryStats.totalSize DirectoryStats.totalDirectories
       DirectoryStats.fileTypes DirectoryStats.largestFiles].
  split; [exact Hf |]. split; [exact Hs |]. split; [exact Hd |].
  split; [apply (js_sort_sorted LargeFile.size bySizeDesc bySizeDesc_key) |].
  split; [rewrite js_sort_length, Hl; apply fold_trackLargest_length; cbn; lia |].
  split; [rewrite Hl; apply displayed_is_top10 | exact Hart].
Qed.

(** X16, witness: the summary of the scenario tree with the default
    options. *)
Lemma summary_statistics_witness :
  write_error (Example.holding Example.scenario) (attempts blank) = None
  /\ exists d' r st,
       generateDirectorySummary Example.runtime (Example.holding Example.scenario)
         (JString "/root") "/summary.txt" Options.empty blank = (d', Ret r)
       /\ SummaryResult.stats r = Some st
       /\ DirectoryStats.totalFiles st = 2
       /\ DirectoryStats.totalSize st = 15
       /\ DirectoryStats.totalDirectories st = 1.
Proof.
  split; [reflexivity |].
  destruct (summary_statistics Example.runtime (Example.holding Example.scenario)
              "/root" "/summary.txt" Options.empty blank eq_refl eq_refl)
    as (d' & r & st & tree & walk & _ & Hrun & _ & _ & Hst & Hf & Hs & Hd & _).
  exists d', r, st. split; [exact Hrun |]. split; [exact Hst |].
  split; [exact Hf |]. split; [exact Hs | exact Hd].
Defined.

(** X11.  The file types in the report of generateDirectorySummary.  Between
    the headings [File Types:] and [Largest Files:] the report has one line
    for each bucket that the statistics walk of the path ends with, giving
    the extension, the count and the formatted size of the bucket; no bucket
    comes before one with a larger count, and buckets of equal count are in
    the order in which the walk first met their extensions. *)
Theorem report_file_types_order (rt : Runtime) (w : World) (s outputPath : string)
  (options : Options.t) (d : Disk) :
  write_error w (attempts d) = None ->
  dflt true (Options.includeStats options)
  || dflt true (Options.includeFileCount options) = true ->
  exists d' r raw listed before after,
    collectDirectoryStats rt (at_path w s) s
      {| StatsOptions.exclude := dflt ["node_modules"; ".git"] (Options.exclude options);
         StatsOptions.showHidden := dflt false (Options.showHidden options);
         StatsOptions.maxDepth := dflt (-1) (Options.maxDepth options);
         StatsOptions.currentDepth := 0 |}
      DirectoryStats.zero
    = (raw, Ret tt)
    /\ generateDirectorySummary rt w (JString s) outputPath options d = (d', Ret r)
    /\ artifact d'
       = [String.concat nl
            (before
             ++ ["File Types:"]
             ++ map (fun bucket =>
                       "- " +++ (if String.eqb (fst bucket) "" then "(no extension)"
                                 else fst bucket)
                       +++ ": " +++ show_Z (TypeStats.count (snd bucket)) +++ " files ("
                       +++ formatFileSize rt (TypeStats.size (snd bucket)) +++ ")")
                  listed
             ++ [""; "Largest Files:"]
             ++ after)]
    /\ Permutation listed (DirectoryStats.fileTypes raw)
    /\ Sorted (fun a b => TypeStats.count (snd b) <= TypeStats.count (snd a)) listed
    /\ (forall n,
          filter (fun bucket => TypeStats.count (snd bucket) =? n) listed
          = filter (fun bucket => TypeStats.count (snd bucket) =? n)
              (DirectoryStats.fileTypes raw)).
Proof.
  intros Hw Hflags.
  destruct (generateDirectorySummary_report rt w s outputPath options d Hw Hflags)
    as (d' & r & tree & walk & raw & _ & Hraw & Hrun & _ & _ & _ & Hart).
  destruct (byCountDesc_order (DirectoryStats.fileTypes raw)) as (Hperm & Hsorted & Hstable).
  match type of Hart with
  | _ = [String.concat nl (?header ++ ?lines ++ _ ++ _ ++ _ ++ ?largest)] =>
      exists d', r, raw, (js_sort byCountDesc (DirectoryStats.fileTypes raw)),
        (header ++ lines
         ++ [""; repeat_string "=" 80; ""; "Directory Statistics:";
             "- Total Files: " +++ show_Z (DirectoryStats.totalFiles raw);
             "- Total Directories: " +++ show_Z (DirectoryStats.totalDirectories raw);
             "- Total Size: " +++ formatFileSize rt (DirectoryStats.totalSize raw); ""]),
        largest
  end.
  split; [exact Hraw |]. split; [exact Hrun |].
  split; [| split; [exact Hperm | split; [exact Hsorted | exact Hstable]]].
  rewrite Hart. do 2 f_equal. rewrite <- !app_assoc. reflexivity.
Qed.

(** X11, witness: the summary of the scenario tree lists [.js] and [.txt],
    one file each, in the order in which the walk met them. *)
Lemma report_file_types_order_witness :
  write_error (Example.holding Example.scenario) (attempts blank) = None
  /\ exists d' r raw listed,
       collectDirectoryStats Example.runtime Example.scenario "/root"
         {| StatsOptions.exclude := ["node_modules"; ".git"];
            StatsOptions.showHidden := false; StatsOptions.maxDepth := -1;
            StatsOptions.currentDepth := 0 |} DirectoryStats.zero
       = (raw, Ret tt)
       /\ generateDirectorySummary Example.runtime (Example.holding Example.scenario)
            (JString "/root") "/summary.txt" Options.empty blank = (d', Ret r)
       /\ Permutation listed (DirectoryStats.fileTypes raw)
       /\ map fst (DirectoryStats.fileTypes raw) = [".txt"; ".js"].
Proof.
  split; [reflexivity |].
  destruct (report_file_types_order Example.runtime (Example.holding Example.scenario)
              "/root" "/summary.txt" Options.empty blank eq_refl eq_refl)
    as (d' & r & raw & listed & before & after & Hraw & Hrun & _ & Hperm & _).
  exists d', r, raw, listed. split; [exact Hraw |]. split; [exact Hrun |].
  split; [exact Hperm |].
  vm_compute in Hraw. injection Hraw as <-. reflexivity.
Defined.

(** ** The extension filter compares lower-case extensions with the list as given *)

Lemma extensionRejected_not_lower (rt : Runtime) (l : list string) (x : string) :
  (forall y, toLowerCase rt (toLowerCase rt y) = toLowerCase rt y) ->
  l <> [] ->
  Forall (fun e => toLowerCase rt e <> e) l ->
  extensionRejected (Some l) (toLowerCase rt x) = true.
Proof.
  intros Hidem Hne Hl. unfold extensionRejected.
  apply andb_true_iff. split.
  - destruct l; [contradiction |]. cbn [List.length]. apply Z.gtb_gt. lia.
  - apply negb_true_iff. unfold includes.
    destruct (existsb (String.eqb (toLowerCase rt x)) l) eqn:E; [| reflexivity].
    apply existsb_exists in E. destruct E as (e & Hin & He).
    apply String.eqb_eq in He. subst e.
    rewrite Forall_forall in Hl. now destruct (Hl _ Hin).
Qed.

Lemma lower_idempotent (c : ascii) : Example.lower (Example.lower c) = Example.lower c.
Proof. destruct c as [[] [] [] [] [] [] [] []]; reflexivity. Qed.

Lemma lowercase_idempotent (s : string) :
  Example.lowercase (Example.lowercase s) = Example.lowercase s.
Proof.
  induction s as [| c s IH]; [reflexivity |].
  cbn [Example.lowercase]. now rewrite lower_idempotent, IH.
Qed.

(** X17.  The content walk lower-cases the extension of a file and looks it
    up in [extensions] as the caller gave it.  So when the list is not empty
    and none of its entries is in lower case, no file is read and none is
    processed, whatever the tree holds ([toLowerCase] leaves a lower-cased
    string as it is). *)
Theorem extensions_not_in_lower_case_select_nothing (rt : Runtime) (w : World)
  (here : node) (dirPath outputPath : string) (options : CollectOptions.t)
  (l : list string) (d : Disk) :
  (forall y, toLowerCase rt (toLowerCase rt y) = toLowerCase rt y) ->
  CollectOptions.extensions options = Some l ->
  l <> [] ->
  Forall (fun e => toLowerCase rt e <> e) l ->
  (forall n, write_error w n = None) ->
  (forall item, exists b, excluded rt (CollectOptions.exclude options) item = Ret b) ->
  exists d' counts,
    collectFileContents rt w here dirPath outputPath options d = (d', Ret counts)
    /\ Counts.processed counts = 0
    /\ reads d' = reads d.
Proof.
  intros Hidem Hext Hne Hl Hw Hex.
  assert (Hread : forall r, isRead rt options r = false).
  { intros r. unfold isRead. destruct (fileOf r); try reflexivity.
    rewrite Hext, (extensionRejected_not_lower rt l _ Hidem Hne Hl).
    apply andb_false_r. }
  destruct (collectFileContents_collectsWell rt w Hw here dirPath outputPath options d Hex)
    as (d' & counts & pieces & Hrun & _ & Hreads & _).
  destruct (collectFileContents_countsWell rt w Hw here dirPath outputPath options d Hex)
    as (d2 & counts2 & Hrun2 & Hp & _).
  rewrite Hrun in Hrun2. injection Hrun2 as <- <-.
  exists d', counts. split; [exact Hrun |]. split.
  - rewrite Hp, filter_none; [reflexivity |].
    intros r _. unfold isRecorded. now rewrite Hread.
  - rewrite Hreads, filter_none by (intros r _; apply Hread). apply app_nil_r.
Qed.

(** X17, witness: the tree of two files walked for the extension [.TXT]:
    [fit.txt] is not read. *)
Lemma extensions_not_in_lower_case_select_nothing_witness :
  [".TXT"] <> []
  /\ Forall (fun e => toLowerCase Example.runtime e <> e) [".TXT"]
  /\ exists d' counts,
       collectFileContents Example.runtime (Example.holding Example.sizes) Example.sizes
         "/root" "/out.txt"
         {| CollectOptions.exclude := []; CollectOptions.showHidden := false;
            CollectOptions.maxDepth := -1; CollectOptions.extensions := Some [".TXT"];
            CollectOptions.maxFileSize := 10;
            CollectOptions.separator := defaultSeparator;
            CollectOptions.currentDepth := 0 |} blank
       = (d', Ret counts)
       /\ Counts.processed counts = 0
       /\ reads d' = reads blank.
Proof.
  assert (Hl : Forall (fun e => toLowerCase Example.runtime e <> e) [".TXT"])
    by (constructor; [discriminate | constructor]).
  split; [discriminate |]. split; [exact Hl |].
  apply (extensions_not_in_lower_case_select_nothing Example.runtime
           (Example.holding Example.sizes) Example.sizes "/root" "/out.txt" _ [".TXT"] blank).
  - exact lowercase_idempotent.
  - reflexivity.
  - discriminate.
  - exact Hl.
  - reflexivity.
  - intros item. exists false. reflexivity.
Defined.

(** ** The menu: the export of file contents *)

Lemma split_length (c : ascii) (s : string) :
  List.length (split c s) = S (occurrences c s).
Proof.
  induction s as [| a s IH]; [reflexivity |].
  cbn [split occurrences]. destruct (Ascii.eqb a c).
  - cbn [List.length]. now rewrite IH.
  - destruct (split c s) as [| piece pieces]; [discriminate |]. exact IH.
Qed.

Lemma dotted_startsWithDot (trim : string -> string) (e : string) :
  startsWithDot (dotted trim e) = true.
Proof.
  unfold dotted. destruct (startsWithDot (trim e)) eqn:E; [exact E | reflexivity].
Qed.

(** X18.  The extensions that the menu hands to the content export: none
    ([null]) exactly when the answer is empty; otherwise one for each piece
    of the answer between commas, in their order, so one more than there are
    commas: the trimmed piece itself when it starts with a dot, and the
    trimmed piece with a dot put in front when it does not.  Every extension
    handed over starts with a dot; the case of the letters is the user's. *)
Theorem extArray_shape (trim : string -> string) (extensions : string) :
  (extArray trim extensions = None <-> extensions = "")
  /\ (forall l, extArray trim extensions = Some l ->
        List.length l = S (occurrences "," extensions)
        /\ Forall (fun e => startsWithDot e = true) l
        /\ Forall2 (fun piece e =>
                      (startsWithDot (trim piece) = true -> e = trim piece)
                      /\ (startsWithDot (trim piece) = false -> e = "." +++ trim piece))
             (split "," extensions) l).
Proof.
  unfold extArray. destruct (String.eqb_spec extensions "") as [-> | Hne].
  - split; [tauto | discriminate].
  - split; [split; [discriminate | contradiction] |].
    intros l [= <-]. split; [| split].
    + now rewrite length_map, split_length.
    + apply Forall_map, Forall_forall. intros e _. apply dotted_startsWithDot.
    + induction (split "," extensions) as [| piece pieces IH]; constructor; [| exact IH].
      unfold dotted. destruct (startsWithDot (trim piece)); split; intros H;
        try discriminate; reflexivity.
Qed.

(** X18, witness: the answer [js, .txt]. *)
Lemma extArray_shape_witness :
  extArray trimBlanks "js, .txt" = Some [".js"; ".txt"]
  /\ List.length [".js"; ".txt"] = S (occurrences "," "js, .txt")
  /\ split "," "js, .txt" = ["js"; " .txt"].
Proof.
  split; [reflexivity |]. split; [| reflexivity].
  exact (proj1 (proj2 (extArray_shape trimBlanks "js, .txt") [".js"; ".txt"] eq_refl)).
Defined.

(** X19.  Choice 4 of the menu on a repository path that is a directory, with
    writes that succeed: the export succeeds whatever the two answers are.
    The exclusion list of the menu has no wildcard, so no name is ever
    handed to the regular-expression engine.  With an empty answer for the
    output path the result names the resolved [./repo-contents.txt]. *)
Theorem exportContentsChoice_succeeds (trim : string -> string) (rt : Runtime)
  (w : World) (repoPath outputPath extensions : string) (d : Disk) :
  (forall n, write_error w n = None) ->
  repoPath <> "" ->
  isDirectoryNode (at_path w (path_resolve rt repoPath)) = true ->
  exists d' r counts,
    exportContentsChoice trim rt w repoPath outputPath extensions d = (d', Ret r)
    /\ ExportResult.success r = true
    /\ ExportResult.fileCount r = Some counts
    /\ (outputPath = "" ->
        ExportResult.filePath r = Some (path_resolve rt "./repo-contents.txt"))
    /\ (outputPath <> "" ->
        ExportResult.filePath r = Some (path_resolve rt outputPath)).
Proof.
  intros Hw Hs Hroot. unfold exportContentsChoice.
  assert (Hex : forall item, exists b,
            excluded rt (CollectOptions.exclude
                           (collectOptionsOf (contentsOptions trim extensions))) item
            = Ret b).
  { intros item. unfold excluded. cbn.
    repeat (destruct (String.eqb item _); [eexists; reflexivity |]).
    eexists; reflexivity. }
  assert (Hexists : existsSync (at_path w (path_resolve rt repoPath)) = true)
    by (destruct (at_path w (path_resolve rt repoPath)); try discriminate; reflexivity).
  assert (Hstat : statSync (at_path w (path_resolve rt repoPath))
                  = Ret {| isDirectory := true; size := 0 |})
    by (destruct (at_path w (path_resolve rt repoPath)); try discriminate; reflexivity).
  unfold exportFileContentsToFile.
  match goal with |- context [try_catch ?m ?h] => set (body := m); set (handler := h) end.
  enough (Hbody : exists d' r counts,
    body d = (d', Ret r)
    /\ ExportResult.success r = true
    /\ ExportResult.fileCount r = Some counts
    /\ ExportResult.filePath r
       = Some (path_resolve rt (orElse outputPath "./repo-contents.txt"))).
  { destruct Hbody as (d' & r & counts & Hrun & Hsucc & Hc & Hp).
    exists d', r, counts. split; [now apply try_catch_ret |].
    split; [exact Hsucc |]. split; [exact Hc |]. rewrite Hp. unfold orElse. split.
    - intros ->. reflexivity.
    - intros Hne. apply String.eqb_neq in Hne. now rewrite Hne. }
  unfold body. cbv zeta. cbn [string_of].
  rewrite (truthy_string repoPath Hs), Hexists. cbn [negb is_string orb].
  erewrite bind_ret by (rewrite Hstat; reflexivity). cbn [isDirectory negb].
  erewrite bind_ret.
  2:{ unfold writeFileSync, write. rewrite Hw. reflexivity. }
  match goal with |- context [bind (collectFileContents rt w ?n ?p ?q ?o) _ ?d0] =>
    destruct (collectFileContents_countsWell rt w Hw n p q o d0 Hex)
      as (d1 & counts & Hrun & _) end.
  erewrite bind_ret by exact Hrun.
  erewrite bind_ret.
  2:{ unfold appendFileSync, write. rewrite Hw. reflexivity. }
  unfold bind, console_log, modify, ret.
  eexists; eexists; exists counts.
  split; [reflexivity |]. repeat split.
Qed.

(** X19, witness: the scenario tree, the default output path and the answer
    [js, .txt]. *)
Lemma exportContentsChoice_succeeds_witness :
  "/root" <> ""
  /\ extArray trimBlanks "js, .txt" = Some [".js"; ".txt"]
  /\ exists d' r counts,
       exportContentsChoice trimBlanks Example.runtime (Example.holding Example.scenario)
         "/root" "" "js, .txt" blank = (d', Ret r)
       /\ ExportResult.success r = true
       /\ ExportResult.fileCount r = Some counts.
Proof.
  split; [discriminate |]. split; [reflexivity |].
  destruct (exportContentsChoice_succeeds trimBlanks Example.runtime
              (Example.holding Example.scenario) "/root" "" "js, .txt" blank)
    as (d' & r & counts & Hrun & Hsucc & Hc & _).
  - reflexivity.
  - discriminate.
  - reflexivity.
  - exists d', r, counts. split; [exact Hrun |]. split; [exact Hsucc | exact Hc].
Defined.

(** ** cloneRepository.js: the name of the repository *)

Lemma split_occurrences (c : ascii) (s : string) :
  Forall (fun piece => occurrences c piece = 0%nat) (split c s).
Proof.
  induction s as [| a s IH]; [repeat constructor |].
  cbn [split]. destruct (Ascii.eqb a c) eqn:E.
  - constructor; [reflexivity | exact IH].
  - destruct (split c s) as [| piece pieces].
    + constructor; [| constructor]. cbn [occurrences]. now rewrite E.
    + inversion IH as [| ? ? Hp Hps]; subst.
      constructor; [| exact Hps]. cbn [occurrences]. now rewrite E.
Qed.

Lemma occurrences_dropChars (c : ascii) (n : nat) (s : string) :
  occurrences c s = 0%nat -> occurrences c (dropChars n s) = 0%nat.
Proof.
  revert s. induction n as [| n IH]; intros s H; [destruct s; exact H |].
  destruct s as [| a s]; [exact H |]. cbn [dropChars]. apply IH.
  cbn [occurrences] in H. destruct (Ascii.eqb a c); [discriminate | exact H].
Qed.

Lemma occurrences_replaceFirst (c : ascii) (pattern s : string) :
  occurrences c s = 0%nat -> occurrences c (replaceFirst pattern "" s) = 0%nat.
Proof.
  induction s as [| a s IH]; intros H.
  - cbn [replaceFirst]. destruct (String.prefix pattern ""); [| reflexivity].
    cbn [String.append]. now apply occurrences_dropChars.
  - cbn [replaceFirst]. destruct (String.prefix pattern (String a s)).
    + cbn [String.append]. now apply occurrences_dropChars.
    + cbn [occurrences] in *. destruct (Ascii.eqb a c); [discriminate | now apply IH].
Qed.

Lemma lastWithoutGit_occurrences (c : ascii) (parts : list string) (name : string) :
  Forall (fun piece => occurrences c piece = 0%nat) parts ->
  Clone.lastWithoutGit parts = Ret name ->
  occurrences c name = 0%nat.
Proof.
  intros H. unfold Clone.lastWithoutGit.
  assert (Hr : Forall (fun piece => occurrences c piece = 0%nat) (rev parts))
    by (apply Forall_rev; exact H).
  destruct (rev parts) as [| part rest]; [discriminate |].
  intros [= <-]. inversion Hr; subst. now apply occurrences_replaceFirst.
Qed.

Lemma lastWithoutGit_split (c : ascii) (s : string) :
  exists name, Clone.lastWithoutGit (split c s) = Ret name.
Proof.
  unfold Clone.lastWithoutGit.
  destruct (rev (split c s)) as [| part rest] eqn:E; [| eauto].
  apply (f_equal (@List.length string)) in E.
  rewrite length_rev, split_length in E. discriminate.
Qed.

Lemma extractRepoName_run (sys : Clone.System) (repoURL : string)
  (done : list Clone.Action) :
  exists said repoName,
    Clone.extractRepoName sys repoURL done = (done ++ said, Ret repoName)
    /\ Forall (fun a => Clone.isTalk a = true) said
    /\ (forall name, repoName = Some name -> occurrences "/" name = 0%nat)
    /\ (repoName = None
        <-> exists e, said = [Clone.ErrorLog "Failed to extract repository name:" e])
    /\ (repoName <> None -> said = [])
    /\ (String.prefix "https://" repoURL = false -> repoName <> None).
Proof.
  unfold Clone.extractRepoName, try_catch, bind, lift, ret, Clone.act, modify.
  destruct (String.prefix "https://" repoURL).
  - destruct (Clone.URL_pathname sys repoURL) as [pathname | e].
    + destruct (Clone.lastWithoutGit (filter nonEmpty (split "/" pathname)))
        as [name | e] eqn:E.
      * exists [], (Some name). rewrite app_nil_r. split; [reflexivity |].
        split; [constructor |]. split; [| split; [| split]].
        -- intros ? [= <-]. eapply lastWithoutGit_occurrences; [| exact E].
           apply Forall_forall. intros piece Hin. apply filter_In in Hin.
           destruct Hin as [Hin _].
           pose proof (split_occurrences "/" pathname) as H.
           rewrite Forall_forall in H. now apply H.
        -- split; [discriminate | intros [? ?]; discriminate].
        -- reflexivity.
        -- discriminate.
      * exists [Clone.ErrorLog "Failed to extract repository name:" e], None.
        split; [reflexivity |]. split; [repeat constructor |].
        split; [discriminate |]. split; [split; eauto |].
        split; [intros H; now destruct H | discriminate].
    + exists [Clone.ErrorLog "Failed to extract repository name:" e], None.
      split; [reflexivity |]. split; [repeat constructor |].
      split; [discriminate |]. split; [split; eauto |].
      split; [intros H; now destruct H | discriminate].
  - assert (Hfallback : forall s,
      exists name, Clone.lastWithoutGit (split "/" s) = Ret name
                   /\ occurrences "/" name = 0%nat).
    { intros s. destruct (lastWithoutGit_split "/" s) as [name Hn].
      exists name. split; [exact Hn |].
      eapply lastWithoutGit_occurrences; [apply split_occurrences | exact Hn]. }
    assert (Hdone : forall s,
      exists said repoName,
        match Clone.lastWithoutGit (split "/" s) with
        | Ret a => (done, Ret (Some a))
        | Throw e => (done, Throw e)
        end = (done ++ said, Ret repoName)
        /\ Forall (fun a => Clone.isTalk a = true) said
        /\ (forall name, repoName = Some name -> occurrences "/" name = 0%nat)
        /\ (repoName = None
            <-> exists e, said = [Clone.ErrorLog "Failed to extract repository name:" e])
        /\ (repoName <> None -> said = [])
        /\ (false = false -> repoName <> None)).
    { intros s. destruct (Hfallback s) as (name & -> & Hn).
      exists [], (Some name). rewrite app_nil_r. split; [reflexivity |].
      split; [constructor |]. split; [now intros ? [= <-] |].
      split; [split; [discriminate | intros [? ?]; discriminate] |].
      split; [reflexivity | discriminate]. }
    destruct (if String.prefix "git@" repoURL then Clone.sshPath sys repoURL else None)
      as [group |]; [destruct (nonEmpty group) |].
    + destruct (Hdone group) as (said & o & H & Hrest).
      exists said, o. split; [| exact Hrest].
      destruct (Clone.lastWithoutGit (split "/" group)); [exact H | discriminate].
    + destruct (Hdone repoURL) as (said & o & H & Hrest).
      exists said, o. split; [| exact Hrest].
      destruct (Clone.lastWithoutGit (split "/" repoURL)); [exact H | discriminate].
    + destruct (Hdone repoURL) as (said & o & H & Hrest).
      exists said, o. split; [| exact Hrest].
      destruct (Clone.lastWithoutGit (split "/" repoURL)); [exact H | discriminate].
Qed.

(** X20.  extractRepoName never throws and touches nothing: at most it logs
    one error, and then it returns [null].  A name that it returns has no
    slash in it, whichever of the three branches found it.  For a URL that
    does not start with [https://] it always returns a name. *)
Theorem extractRepoName_is_one_segment (sys : Clone.System) (repoURL : string)
  (done : list Clone.Action) :
  exists said repoName,
    Clone.extractRepoName sys repoURL done = (done ++ said, Ret repoName)
    /\ Forall (fun a => Clone.isTalk a = true) said
    /\ (forall name, repoName = Some name -> occurrences "/" name = 0%nat)
    /\ (repoName = None
        <-> exists e, said = [Clone.ErrorLog "Failed to extract repository name:" e])
    /\ (String.prefix "https://" repoURL = false -> repoName <> None).
Proof.
  destruct (extractRepoName_run sys repoURL done)
    as (said & repoName & Hrun & Htalk & Hname & Hnone & _ & Hfallback).
  exists said, repoName. repeat split; try assumption; apply Hnone.
Qed.

(** ** cloneRepository.js: what a call does *)

Lemma nonEmpty_true (s : string) : nonEmpty s = true -> s <> "".
Proof. unfold nonEmpty. intros H ->. discriminate. Qed.

Lemma CloneRepository_run (sys : Clone.System) (repoURL : jsvalue)
  (done : list Clone.Action) :
  let url := string_of repoURL in
  let folder := Clone.path_resolve sys "Repository" in
  exists did r,
    Clone.CloneRepository sys repoURL done = (done ++ did, Ret r)
    /\ execIsLast did = true
    /\ (Forall (fun a => Clone.isTalk a = true) did
        \/ exists name,
             Clone.extractRepoName sys url done = (done, Ret (Some name))
             /\ name <> "" /\ occurrences "/" name = 0%nat
             /\ Forall (actsOn sys url name) did)
    /\ (Clone.Result.success r = true ->
        truthy repoURL && is_string repoURL = true
        /\ looksValid sys url = true
        /\ Clone.shell_which sys "git" = true
        /\ exists name before,
             Clone.extractRepoName sys url done = (done, Ret (Some name))
             /\ name <> ""
             /\ let targetPath := Clone.path_join sys folder name in
                Clone.Result.targetPath r = Some targetPath
                /\ Clone.Result.message r
                   = "Repository cloned successfully to " +++ targetPath
                /\ Clone.Result.error r = None
                /\ did = before
                         ++ [Clone.Log ("Cloning repository from " +++ url +++ "...");
                             Clone.Exec ("git clone " +++ url +++ " " +++ targetPath)]
                /\ exists result,
                     Clone.shell_exec sys
                       (done ++ before
                        ++ [Clone.Log ("Cloning repository from " +++ url +++ "...")])
                       ("git clone " +++ url +++ " " +++ targetPath) = Ret result
                     /\ Clone.code result = 0).
Proof.
  intros url folder.
  unfold Clone.CloneRepository.
  destruct (negb (truthy repoURL) || negb (is_string repoURL)) eqn:Hv.
  { exists [], (Clone.Result.rejected "Invalid repository URL"). rewrite app_nil_r.
    split; [reflexivity |]. split; [reflexivity |].
    split; [left; constructor | cbn; discriminate]. }
  unfold Clone.isLikelyValidGitRepoURL. rewrite Hv.
  apply orb_false_iff in Hv. destruct Hv as [Ht Hs].
  destruct repoURL as [| | | | s |]; try discriminate. cbn [string_of] in *. subst url.
  destruct (negb (Clone.gitUrlPattern_test sys (Clone.trim sys s))
            && negb (existsb (fun host => includesString host (Clone.trim sys s))
                       Clone.knownGitHosts)) eqn:Hvalid.
  { exists [Clone.Warn "Warning: URL might not be a valid Git repository URL."],
      (Clone.Result.rejected "URL might not be a valid Git repository URL.").
    split; [reflexivity |]. split; [reflexivity |].
    split; [left; repeat constructor | cbn; discriminate]. }
  assert (Hlooks : looksValid sys s = true).
  { unfold looksValid. rewrite <- negb_orb in Hvalid. now apply negb_false_iff in Hvalid. }
  assert (Hstring : truthy (JString s) && is_string (JString s) = true).
  { apply negb_false_iff in Ht. now rewrite Ht. }
  unfold try_catch at 1. unfold bind at 1. unfold ret at 1. cbn [negb].
  destruct (Clone.shell_which sys "git") eqn:Hgit; cbn [negb].
  2:{ exists [], (Clone.Result.rejected "Git is not installed on this system").
      rewrite app_nil_r.
      split; [reflexivity |]. split; [reflexivity |].
      split; [left; constructor | cbn; discriminate]. }
  destruct (extractRepoName_run sys s done)
    as (said & repoName & Hrun & Htalk & Hname & Hnone & Hsaid & _).
  unfold bind at 1. rewrite Hrun.
  destruct (nonEmpty (dflt "" repoName)) eqn:Hne; cbn [negb].
  2:{ exists said, (Clone.Result.rejected "Could not extract repository name from URL").
      split; [reflexivity |]. split.
      - destruct repoName as [name |].
        + rewrite (Hsaid ltac:(discriminate)). reflexivity.
        + destruct (proj1 Hnone eq_refl) as [e ->]. reflexivity.
      - split; [left; exact Htalk | cbn; discriminate]. }
  destruct repoName as [name |]; [| discriminate]. cbn [dflt] in *.
  rewrite (Hsaid ltac:(discriminate)) in *. rewrite app_nil_r in *.
  clear Htalk Hnone Hsaid.
  assert (Hnonempty : name <> "") by now apply nonEmpty_true.
  assert (Hslash : occurrences "/" name = 0%nat) by now apply Hname.
  clear Hname Hne.
  cbv beta iota delta [bind ret Clone.existsSync Clone.mkdirSync Clone.rm Clone.exec
                       Clone.act modify].
  repeat
    (match goal with
     | |- context [Clone.fs_existsSync sys ?l ?p] =>
         destruct (Clone.fs_existsSync sys l p) eqn:?
     | |- context [Clone.fs_mkdirSync sys ?l ?p] =>
         destruct (Clone.fs_mkdirSync sys l p) eqn:?
     | |- context [Clone.shell_rm sys ?l ?p] =>
         destruct (Clone.shell_rm sys l p) eqn:?
     | |- context [Clone.shell_exec sys ?l ?p] =>
         destruct (Clone.shell_exec sys l p) as [result | e] eqn:Hexec
     | |- context [Clone.code ?a =? 0] =>
         destruct (Clone.code a =? 0) eqn:Hcode
     end; cbv beta iota delta [negb]).
  all: eexists; eexists; (split; [rewrite <- ?app_assoc; cbn [app]; reflexivity |]).
  all: split; [reflexivity |].
  all: split;
    [right; exists name; split; [reflexivity |]; split; [exact Hnonempty |];
     split; [exact Hslash |];
     repeat (apply Forall_cons;
             [first [ left; reflexivity
                    | right; left; reflexivity
                    | right; right; left; reflexivity
                    | right; right; right; reflexivity ] |]);
     apply Forall_nil |].
  all: cbn [Clone.Result.success Clone.Result.targetPath Clone.Result.message
            Clone.Result.error];
    try discriminate.
  all: intros _; split; [exact Hstring |]; split; [exact Hlooks |];
    split; [reflexivity |];
    match goal with
    | |- context [@eq (list Clone.Action) ?l _] =>
        exists name, (removelast (removelast l))
    end;
    split; [reflexivity |]; split; [exact Hnonempty |]; cbv zeta; cbn [removelast];
    repeat (split; [reflexivity |]);
    exists result; split; [| now apply Z.eqb_eq];
    rewrite <- ?app_assoc in Hexec; exact Hexec.
Qed.

(** X21.  The checks of CloneRepository come in a fixed order, and a call
    that one of them rejects has done nothing to the system; it has at most
    talked: a value that is not a string with characters; a URL that neither
    matches the pattern nor includes a known host (one warning); no [git] on
    the system; no name to be had from the URL. *)
Theorem CloneRepository_rejects_before_acting (sys : Clone.System) (repoURL : jsvalue)
  (done : list Clone.Action) :
  let url := string_of repoURL in
  let rejects said msg :=
    Clone.CloneRepository sys repoURL done
    = (done ++ said, Ret (Clone.Result.rejected msg)) in
  (truthy repoURL && is_string repoURL = false ->
     rejects [] "Invalid repository URL")
  /\ (truthy repoURL && is_string repoURL = true ->
      looksValid sys url = false ->
      rejects [Clone.Warn "Warning: URL might not be a valid Git repository URL."]
        "URL might not be a valid Git repository URL.")
  /\ (truthy repoURL && is_string repoURL = true ->
      looksValid sys url = true ->
      Clone.shell_which sys "git" = false ->
      rejects [] "Git is not installed on this system")
  /\ (truthy repoURL && is_string repoURL = true ->
      looksValid sys url = true ->
      Clone.shell_which sys "git" = true ->
      forall said repoName,
        Clone.extractRepoName sys url done = (done ++ said, Ret repoName) ->
        nonEmpty (dflt "" repoName) = false ->
        rejects said "Could not extract repository name from URL"
        /\ Forall (fun a => Clone.isTalk a = true) said).
Proof.
  intros url rejects. subst url rejects. cbv beta. unfold Clone.CloneRepository.
  split; [| split; [| split]].
  - intros H. apply andb_false_iff in H.
    assert (E : negb (truthy repoURL) || negb (is_string repoURL) = true)
      by (destruct H as [-> | ->]; [| rewrite orb_true_r]; reflexivity).
    rewrite E. now rewrite app_nil_r.
  - intros H Hvalid. apply andb_true_iff in H. destruct H as [Ht Hs].
    unfold Clone.isLikelyValidGitRepoURL. rewrite Ht, Hs. cbn [negb orb].
    unfold looksValid in Hvalid. apply orb_false_iff in Hvalid.
    destruct Hvalid as [-> ->]. reflexivity.
  - intros H Hvalid Hgit. apply andb_true_iff in H. destruct H as [Ht Hs].
    unfold Clone.isLikelyValidGitRepoURL. rewrite Ht, Hs. cbn [negb orb].
    unfold looksValid in Hvalid. rewrite <- negb_orb, Hvalid.
    cbn [negb]. unfold try_catch, bind, ret. rewrite Hgit. now rewrite app_nil_r.
  - intros H Hvalid Hgit said repoName Hrun Hne.
    apply andb_true_iff in H. destruct H as [Ht Hs].
    split.
    + unfold Clone.isLikelyValidGitRepoURL. rewrite Ht, Hs. cbn [negb orb].
      unfold looksValid in Hvalid. rewrite <- negb_orb, Hvalid.
      cbn [negb]. unfold try_catch at 1. unfold bind at 1. unfold ret at 1.
      rewrite Hgit. cbn [negb]. unfold bind at 1. rewrite Hrun, Hne. reflexivity.
    + destruct (extractRepoName_run sys (string_of repoURL) done)
        as (said' & o & Hrun' & Htalk & _).
      rewrite Hrun in Hrun'. injection Hrun' as Hsaid _.
      apply app_inv_head in Hsaid. now subst said'.
Qed.

(** X21, witness: a URL of no known host and of no Git form. *)
Lemma CloneRepository_rejects_before_acting_witness :
  truthy (JString "ftp://example.org/x") && is_string (JString "ftp://example.org/x") = true
  /\ looksValid (CloneExample.system true (fun _ => false) 0) "ftp://example.org/x" = false
  /\ Clone.CloneRepository (CloneExample.system true (fun _ => false) 0)
       (JString "ftp://example.org/x") []
     = ([Clone.Warn "Warning: URL might not be a valid Git repository URL."],
        Ret (Clone.Result.rejected "URL might not be a valid Git repository URL.")).
Proof.
  split; [reflexivity |]. split; [reflexivity |].
  exact (proj1 (proj2 (CloneRepository_rejects_before_acting
                         (CloneExample.system true (fun _ => false) 0)
                         (JString "ftp://example.org/x") []))
           eq_refl eq_refl).
Defined.

(** X22.  CloneRepository never throws, and whatever the system answers,
    a command is the last thing that a call does, and either the call only
    talks, or extractRepoName returns a name for the URL, not empty and
    without a slash, and everything that the call does to the system is of
    three kinds: it creates the [Repository] folder, it removes the target,
    and it runs [git clone] of the URL into the target, where the target is
    [path.join] of the folder and that name.  The name may be [.] or [..]:
    nothing keeps the target inside the folder. *)
Theorem CloneRepository_actions (sys : Clone.System) (repoURL : jsvalue)
  (done : list Clone.Action) :
  let url := string_of repoURL in
  exists did r,
    Clone.CloneRepository sys repoURL done = (done ++ did, Ret r)
    /\ execIsLast did = true
    /\ (Forall (fun a => Clone.isTalk a = true) did
        \/ exists name,
             Clone.extractRepoName sys url done = (done, Ret (Some name))
             /\ name <> "" /\ occurrences "/" name = 0%nat
             /\ Forall
                  (fun a =>
                     Clone.isTalk a = true
                     \/ a = Clone.Mkdir (Clone.path_resolve sys "Repository")
                     \/ a = Clone.Rm
                              (Clone.path_join sys (Clone.path_resolve sys "Repository")
                                 name)
                     \/ a = Clone.Exec
                              ("git clone " +++ url +++ " "
                               +++ Clone.path_join sys
                                     (Clone.path_resolve sys "Repository") name))
                  did).
Proof.
  destruct (CloneRepository_run sys repoURL done) as (did & r & Hrun & Hlast & Hacts & _).
  exists did, r. split; [exact Hrun |]. split; [exact Hlast | exact Hacts].
Qed.

(** X22, witness: for [git@github.com:foo/..] the name is [..], and the call
    removes [path.join] of the folder and [..]. *)
Lemma CloneRepository_actions_witness :
  Clone.extractRepoName (CloneExample.system true (fun _ => true) 0)
    "git@github.com:foo/.." [] = ([], Ret (Some ".."))
  /\ exists did r,
       Clone.CloneRepository (CloneExample.system true (fun _ => true) 0)
         (JString "git@github.com:foo/..") [] = ([] ++ did, Ret r)
       /\ execIsLast did = true
       /\ In (Clone.Rm
                (Clone.path_join (CloneExample.system true (fun _ => true) 0)
                   (Clone.path_resolve (CloneExample.system true (fun _ => true) 0)
                      "Repository") ".."))
            did.
Proof.
  split; [reflexivity |].
  destruct (CloneRepository_actions (CloneExample.system true (fun _ => true) 0)
              (JString "git@github.com:foo/..") [])
    as (did & r & Hrun & Hlast & _).
  exists did, r. split; [exact Hrun |]. split; [exact Hlast |].
  vm_compute in Hrun. injection Hrun as <- _. right. left. reflexivity.
Defined.

(** X23.  A call of CloneRepository that reports success was given a string
    that passed the check of the URL, on a system with [git]; it has run, as
    its last action and after announcing it, the command [git clone], the URL
    as it was given, and the target; the command ended with code 0; the
    target is [path.join] of the [Repository] folder and the name that
    extractRepoName returns for the URL, and the result names it. *)
Theorem CloneRepository_success (sys : Clone.System) (repoURL : jsvalue)
  (done : list Clone.Action) :
  let url := string_of repoURL in
  exists did r,
    Clone.CloneRepository sys repoURL done = (done ++ did, Ret r)
    /\ (Clone.Result.success r = true ->
        truthy repoURL && is_string repoURL = true
        /\ looksValid sys url = true
        /\ Clone.shell_which sys "git" = true
        /\ exists name before,
             Clone.extractRepoName sys url done = (done, Ret (Some name))
             /\ name <> ""
             /\ let targetPath :=
                  Clone.path_join sys (Clone.path_resolve sys "Repository") name in
                Clone.Result.targetPath r = Some targetPath
                /\ Clone.Result.message r
                   = "Repository cloned successfully to " +++ targetPath
                /\ Clone.Result.error r = None
                /\ did = before
                         ++ [Clone.Log ("Cloning repository from " +++ url +++ "...");
                             Clone.Exec ("git clone " +++ url +++ " " +++ targetPath)]
                /\ exists result,
                     Clone.shell_exec sys
                       (done ++ before
                        ++ [Clone.Log ("Cloning repository from " +++ url +++ "...")])
                       ("git clone " +++ url +++ " " +++ targetPath) = Ret result
                     /\ Clone.code result = 0).
Proof.
  intros url.
  destruct (CloneRepository_run sys repoURL done) as (did & r & Hrun & _ & _ & Hok).
  exists did, r. split; assumption.
Qed.

(** X23, witness: a clone over SSH where the target exists already: the
    target is removed, then cloned into. *)
Lemma CloneRepository_success_witness :
  exists r,
    Clone.CloneRepository
      (CloneExample.system true (String.prefix "/work/Repository") 0)
      (JString "git@github.com:adityamehta242/reposketch.git") []
    = ([Clone.Log "Repository folder /work/Repository/reposketch already exists. Deleting...";
        Clone.Rm "/work/Repository/reposketch";
        Clone.Log "Cloning repository from git@github.com:adityamehta242/reposketch.git...";
        Clone.Exec
          "git clone git@github.com:adityamehta242/reposketch.git /work/Repository/reposketch"],
       Ret r)
    /\ Clone.Result.success r = true
    /\ Clone.Result.targetPath r = Some "/work/Repository/reposketch".
Proof.
  destruct (CloneRepository_success
              (CloneExample.system true (String.prefix "/work/Repository") 0)
              (JString "git@github.com:adityamehta242/reposketch.git") [])
    as (did & r & Hrun & Hok).
  exists r. vm_compute in Hrun. injection Hrun as <- <-.
  split; [reflexivity |]. split; reflexivity.
Defined.

(** ** printTree: the drawing of the tree *)

Section SameItems.
Context {R R' : Type} (rt : Runtime) (P : Entry R -> Entry R' -> Prop).

Lemma compareItems_same (a b : Entry R) (a' b' : Entry R') :
  name a = name a' -> target a = target a' ->
  name b = name b' -> target b = target b' ->
  compareItems rt a b = compareItems rt a' b'.
Proof.
  intros Hna Hta Hnb Htb. unfold compareItems. now rewrite Hna, Hta, Hnb, Htb.
Qed.

Lemma insert_same (x : Entry R) (x' : Entry R') (l : list (Entry R))
  (l' : list (Entry R')) :
  name x = name x' /\ target x = target x' /\ P x x' ->
  sameItems P l l' ->
  sameItems P (insert (compareItems rt) x l) (insert (compareItems rt) x' l').
Proof.
  intros Hx H. induction H as [| y y' l l' Hy Hrest IH]; cbn [insert].
  - repeat constructor; apply Hx.
  - destruct Hx as (Hn & Ht & Hp). destruct Hy as (Hn' & Ht' & Hp').
    rewrite (compareItems_same x y x' y' Hn Ht Hn' Ht').
    destruct (compareItems rt x' y' <=? 0).
    + constructor; [auto |]. constructor; [auto | exact Hrest].
    + constructor; [auto | exact IH].
Qed.

Lemma js_sort_same (l : list (Entry R)) (l' : list (Entry R')) :
  sameItems P l l' ->
  sameItems P (js_sort (compareItems rt) l) (js_sort (compareItems rt) l').
Proof.
  induction 1 as [| x x' l l' Hx _ IH]; [constructor |].
  cbn [js_sort fold_right]. now apply insert_same.
Qed.

Lemma filter_same (f : string -> bool) (l : list (Entry R)) (l' : list (Entry R')) :
  sameItems P l l' ->
  sameItems P (filter (fun it => f (name it)) l) (filter (fun it => f (name it)) l').
Proof.
  induction 1 as [| x x' l l' Hx _ IH]; [constructor |].
  cbn [filter]. destruct Hx as (Hn & Ht & Hp). rewrite Hn.
  destruct (f (name x')); [constructor; auto | exact IH].
Qed.
End SameItems.

Section Pictures.
Variable rt : Runtime.
Hypothesis joined : forall a b, path_join rt a b <> "".

(** An item of the walk and the item of the picture that stands for it. *)
Let drawnBy (o : Options.t) (a : Entry Walk) (b : Entry Draw) : Prop :=
  visit a = printTree_at rt logger (target a)
  /\ visit b = drawing rt (dflt false (Options.showHidden o)) (dflt [] (Options.exclude o))
                 (dflt false (Options.showSize o)) (dflt (-1) (Options.maxDepth o))
                 (target b)
  /\ draws rt (target a).

Lemma printItems_draw (o : Options.t) (resolvedPath prefix : string) (d : Z)
  (items : list (Entry Walk)) (pictures : list (Entry Draw)) :
  sameItems (drawnBy o) items pictures ->
  forall resultError out, exists resultError',
    printItems rt logger o resolvedPath prefix (dflt false (Options.showSize o)) d items
      resultError out
    = (out ++ drawItems rt (dflt false (Options.showSize o)) resolvedPath prefix d pictures,
       Ret resultError').
Proof.
  induction 1 as [| it pic items pictures (Hn & Ht & Hv & Hp & Hd) Hrest IH];
    intros resultError out.
  - exists resultError. cbn [printItems drawItems]. unfold ret. now rewrite app_nil_r.
  - cbn [printItems drawItems].
    assert (Hlast : match items with [] => true | _ :: _ => false end
                    = match pictures with [] => true | _ :: _ => false end)
      by (destruct Hrest; reflexivity).
    rewrite Hlast. set (isLast := match pictures with [] => true | _ :: _ => false end).
    assert (Hitem : exists e1,
      printItem rt logger o resolvedPath prefix (dflt false (Options.showSize o)) d it
        isLast resultError out
      = (out ++ itemLine rt prefix (dflt false (Options.showSize o)) d pic isLast
               :: (if isDirectoryNode (target pic)
                   then visit pic (path_join rt resolvedPath (name pic))
                          (prefix +++ (if isLast then "    " else "│   ")) (d + 1)
                   else []),
         Ret e1)).
    { unfold printItem, itemLine. rewrite Hv, Hp, <- Hn, <- Ht.
      cbn [logger]; unfold try_catch, bind, lift, modify, ret.
      destruct (target it) as [sz c | entries | e | e] eqn:Htarget;
        cbn [statSync isDirectory size negb isDirectoryNode].
      - exists resultError. destruct (dflt false (Options.showSize o)), isLast; reflexivity.
      - match goal with |- context [printTree_at rt logger ?n (JString ?p) ?o' ?s0] =>
          destruct (Hd eq_refl p o' s0 (joined _ _)) as (r & Hrun) end.
        rewrite Hrun.
        exists (if negb (WalkResult.success r) then WalkResult.error r else resultError).
        cbn [Options.descend Options.showHidden Options.exclude Options.showSize
             Options.maxDepth Options.prefix Options.currentDepth dflt].
        rewrite <- app_assoc.
        destruct (negb (WalkResult.success r)), (dflt false (Options.showSize o)), isLast;
          reflexivity.
      - match goal with |- context [printTree_at rt logger ?n (JString ?p) ?o' ?s0] =>
          destruct (Hd eq_refl p o' s0 (joined _ _)) as (r & Hrun) end.
        rewrite Hrun.
        exists (if negb (WalkResult.success r) then WalkResult.error r else resultError).
        cbn [Options.descend Options.showHidden Options.exclude Options.showSize
             Options.maxDepth Options.prefix Options.currentDepth dflt].
        rewrite <- app_assoc.
        destruct (negb (WalkResult.success r)), (dflt false (Options.showSize o)), isLast;
          reflexivity.
      - exists resultError. destruct isLast; reflexivity. }
    destruct Hitem as (e1 & Hrun1).
    destruct (IH e1 (out ++ itemLine rt prefix (dflt false (Options.showSize o)) d pic isLast
                         :: (if isDirectoryNode (target pic)
                             then visit pic (path_join rt resolvedPath (name pic))
                                    (prefix +++ (if isLast then "    " else "│   ")) (d + 1)
                             else [])))
      as (e2 & Hrun2).
    exists e2. erewrite bind_ret by exact Hrun1. rewrite Hrun2.
    now rewrite <- app_assoc.
Qed.

Lemma printTree_at_draws (n : node) : draws rt n.
Proof.
  induction n as [sz c | entries IH | e | e] using node_induction;
    intros Hnode s o out Hs; try discriminate;
    rewrite printTree_at_eq; unfold printTree_body;
    cbv beta iota delta [try_catch bind lift ret throw readdirSync existsSync statSync
                         isDirectory negb];
    rewrite (truthy_string s Hs); cbn [is_string orb string_of];
    cbn [drawing]; unfold drawing_body;
    set (d := dflt 0 (Options.currentDepth o));
    set (prefix := dflt "" (Options.prefix o));
    destruct ((dflt (-1) (Options.maxDepth o) >=? 0)
              && (d >? dflt (-1) (Options.maxDepth o)));
    try (exists {| WalkResult.success := true; WalkResult.error := None |};
         now rewrite app_nil_r).
  - set (hl := if d =? 0 then [rootLine rt prefix s] else []).
    assert (Hh : (if d =? 0
                  then logger d info (prefix +++ path_basename rt (path_resolve rt s) +++ "/")
                  else fun s0 => (s0, Ret tt)) out = (out ++ hl, Ret tt)).
    { unfold hl, rootLine. destruct (d =? 0) eqn:Hd0.
      - apply Z.eqb_eq in Hd0. cbn [logger]; unfold modify. now rewrite Hd0.
      - now rewrite app_nil_r. }
    rewrite Hh.
    match goal with |- context [drawItems rt _ _ _ _ ?pics] => set (pictures := pics) end.
    match goal with |- context [printItems rt logger o _ _ _ _ ?its] => set (items := its) end.
    assert (Hsame : sameItems (drawnBy o) items pictures).
    { unfold items, pictures. apply js_sort_same, filter_same.
      clear - IH. induction IH as [| [nm child] rest Hchild _ IHrest]; [constructor |].
      cbn [map fst snd]. constructor; [| exact IHrest].
      cbn [name target visit]. repeat split. exact Hchild. }
    destruct (printItems_draw o (path_resolve rt s) prefix d items pictures Hsame
                None (out ++ hl)) as (e' & Hrun).
    cbn [WalkResult.error WalkResult.success]. rewrite Hrun.
    assert (Hlen : (Z.of_nat (List.length items) =? 0)
                   = match pictures with [] => true | _ :: _ => false end).
    { destruct Hsame; [reflexivity |]. apply Z.eqb_neq. cbn [List.length]. lia. }
    rewrite Hlen. eexists.
    destruct pictures; cbn [logger]; unfold modify, emptyLine;
      rewrite <- ?app_assoc, ?app_nil_r; reflexivity.
  - unfold rootLine. destruct (d =? 0) eqn:Hd0; cbn [logger]; unfold modify.
    + apply Z.eqb_eq in Hd0. eexists. rewrite Hd0, <- app_assoc. reflexivity.
    + eexists. reflexivity.
Qed.
End Pictures.

(** X24.  The drawing of the tree.  A walk of a directory from a path with
    characters, where [path.join] never gives the empty string and [statSync]
    returns for every entry, returns, and what it logs is the picture of the
    directory: the line of the root if the depth is 0; then, for each item
    that passes the filter, in the order of the sort, the line of the item
    and, under a directory within the depth limit, the picture of that
    directory one level deeper, its prefix four columns longer, blank under
    the last item and with a bar under an item with items after it; the
    marker [[empty]] where no item passes the filter, and the line of the
    error where a directory cannot be listed. *)
Theorem printTree_draws_a_tree (rt : Runtime) (here : node) (s : string)
  (o : Options.t) (out : list Line) :
  (forall a b, path_join rt a b <> "") ->
  isDirectoryNode here = true -> s <> "" -> classified here = true ->
  exists r,
    printTree_at rt logger here (JString s) o out
    = (out ++ drawing rt (dflt false (Options.showHidden o)) (dflt [] (Options.exclude o))
                (dflt false (Options.showSize o)) (dflt (-1) (Options.maxDepth o))
                here s (dflt "" (Options.prefix o)) (dflt 0 (Options.currentDepth o)),
       Ret r).
Proof.
  intros Hjoin Hnode Hs _. now apply printTree_at_draws.
Qed.

(** X24, witness: the picture of the scenario tree. *)
Lemma printTree_draws_a_tree_witness :
  isDirectoryNode Example.scenario = true
  /\ classified Example.scenario = true
  /\ map text (drawing Example.runtime true [] true (-1) Example.scenario "/root" "" 0)
     = ["root/"; "├── b/"; "│   ├── .hidden (1.00 B)"; "│   └── c.js (10.00 B)";
        "└── a.txt (5.00 B)"]
  /\ exists r,
       printTree_at Example.runtime logger Example.scenario (JString "/root")
         {| Options.prefix := None; Options.maxDepth := None; Options.exclude := None;
            Options.showHidden := Some true; Options.showSize := Some true;
            Options.currentDepth := None; Options.extensions := None;
            Options.maxFileSize := None; Options.separator := None;
            Options.includeStats := None; Options.includeFileCount := None |} []
       = ([] ++ drawing Example.runtime true [] true (-1) Example.scenario "/root" "" 0,
          Ret r).
Proof.
  split; [reflexivity |]. split; [reflexivity |]. split; [reflexivity |].
  apply (printTree_draws_a_tree Example.runtime Example.scenario "/root").
  - intros a b. destruct a; discriminate.
  - reflexivity.
  - discriminate.
  - reflexivity.
Defined.
